(** * GPSSCAN: survey photographs, control points and canonical file names

    A shallow embedding of the two programs of the repository,

    - [開発用GPSSCAN_new.py] (class [GPSScanApp]), modelled at top level, and
    - [開発用GPSSCAN.py] (class [PySimPhotoRenamerAdvanced]), modelled in
      [Module Legacy],

    and the properties of the parser, the coordinate-frame classifier, the
    nearest-point matcher and the file-name assignment that the
    specification states.

    Modelling conventions.
    - Python [str] is [string], a byte string: the Japanese literals of the
      source are their UTF-8 bytes, and [strip] removes the white space
      of Unicode, character by character.
    - Python [float] is the carrier of the class [PyNum]; its operations,
      [float()], [int()] and the number formatting are the fields of the
      class, total functions (no [OverflowError]).  The theorems hold for
      every instance; the ones that reason about the order ask for
      [PyNumOrder], the laws of [<] and [<=] on doubles other than NaN.
      [Dec3] is an instance that computes, used for the scenarios.
    - The [ttk.Treeview] of photographs is a list of rows in display order;
      an item id is a position in that list, and a cell holds the string
      that was written into it.  Reading an item gives every cell through
      [int()] where that succeeds ([ttk._convert_stringval]): this is
      modelled for the matching point ([read_cell]), whose content comes
      from the point file.  The other cells read as written: a file name
      or new name ends in the extension of a photograph, a coordinate has
      three decimals, a distance ends in [m], the categories are words
      and a date has colons.
    - [self.photo_gps_data] is a finite map from file names to the
      coordinate entries of a photograph.
    - A loop that may run forever is a function of a number of turns that
      answers [None] while the loop is still running.
    - Dialogs, message boxes, printing and map drawing are left out. *)

From Stdlib Require Import ZArith String Ascii Lia DecimalString.
From Stdlib Require DecimalNat DecimalFacts.
From stdpp Require Import gmap strings list.

Local Open Scope Z_scope.

(** ** Python string primitives *)

Module PyStr.

(** The characters that [str.strip()] removes are the white space of
    Unicode; a string being the UTF-8 bytes of the Python string, each of
    them is one, two or three bytes. *)

(** U+0009 to U+000D, U+001C to U+0020 *)
Definition space1 (a : ascii) : bool :=
  let n := nat_of_ascii a in
  ((9 <=? n) && (n <=? 13) || (28 <=? n) && (n <=? 32))%nat.

(** U+0085 and U+00A0: [C2 85], [C2 A0] *)
Definition space2 (a b : ascii) : bool :=
  let m := nat_of_ascii a in
  let n := nat_of_ascii b in
  ((m =? 194) && ((n =? 133) || (n =? 160)))%nat.

(** U+1680 [E1 9A 80]; U+2000 to U+200A, U+2028, U+2029 and U+202F
    [E2 80 80..8A], [E2 80 A8], [E2 80 A9], [E2 80 AF]; U+205F [E2 81 9F];
    U+3000 [E3 80 80] *)
Definition space3 (a b c : ascii) : bool :=
  let l := nat_of_ascii a in
  let m := nat_of_ascii b in
  let n := nat_of_ascii c in
  ((l =? 225) && (m =? 154) && (n =? 128)
   || (l =? 226) && (m =? 128)
      && ((128 <=? n) && (n <=? 138) || (n =? 168) || (n =? 169) || (n =? 175))
   || (l =? 226) && (m =? 129) && (n =? 159)
   || (l =? 227) && (m =? 128) && (n =? 128))%nat.

(** What follows the white-space character that [s] starts with, if it
    starts with one. *)
Definition leading_space (s : string) : option string :=
  match s with
  | EmptyString => None
  | String a s1 =>
      if space1 a then Some s1
      else match s1 with
           | EmptyString => None
           | String b s2 =>
               if space2 a b then Some s2
               else match s2 with
                    | EmptyString => None
                    | String c s3 => if space3 a b c then Some s3 else None
                    end
           end
  end.

(** [s.lstrip()] *)
Fixpoint lstrip (s : string) : string :=
  match s with
  | EmptyString => EmptyString
  | String a s1 =>
      if space1 a then lstrip s1
      else match s1 with
           | EmptyString => s
           | String b s2 =>
               if space2 a b then lstrip s2
               else match s2 with
                    | EmptyString => s
                    | String c s3 => if space3 a b c then lstrip s3 else s
                    end
           end
  end.

(** [s] has white-space characters only. *)
Definition blank (s : string) : bool :=
  match lstrip s with
  | EmptyString => true
  | String _ _ => false
  end.

(** [s.rstrip()]: the longest end of [s] that has white-space characters
    only is cut off. *)
Fixpoint rstrip (s : string) : string :=
  match s with
  | EmptyString => EmptyString
  | String a s' => if blank s then EmptyString else String a (rstrip s')
  end.

(** [s.strip()] *)
Definition strip (s : string) : string := rstrip (lstrip s).

(** [s.startswith(p)] *)
Definition startswith (s p : string) : bool := String.prefix p s.

(** [s.split(sep)] for a one-character separator: never the empty list. *)
Fixpoint split (sep : ascii) (s : string) : list string :=
  match s with
  | EmptyString => [EmptyString]
  | String c s' =>
      if Ascii.eqb c sep then EmptyString :: split sep s'
      else match split sep s' with
           | h :: t => String c h :: t
           | [] => [String c EmptyString]
           end
  end.

(** [needle in s] *)
Fixpoint contains (needle s : string) : bool :=
  String.prefix needle s ||
  match s with
  | EmptyString => false
  | String _ s' => contains needle s'
  end.

(** The part of [s] after its last ["/"]. *)
Fixpoint basename (s : string) : string :=
  match s with
  | EmptyString => EmptyString
  | String c s' =>
      if contains "/" s then basename s' else s
  end.

Fixpoint skip_dots (s : string) : string :=
  match s with
  | String "."%char s' => skip_dots s'
  | _ => s
  end.

(** The suffix of [s] that starts at its last ["."], if any. *)
Fixpoint last_dot_suffix (s : string) : option string :=
  match s with
  | EmptyString => None
  | String c s' =>
      match last_dot_suffix s' with
      | Some e => Some e
      | None => if Ascii.eqb c "."%char then Some s else None
      end
  end.

(** Second component of [os.path.splitext(p)] (posixpath): the extension
    starts at the last dot of the last path component; leading dots of that
    component do not start an extension. *)
Definition splitext_ext (p : string) : string :=
  match last_dot_suffix (skip_dots (basename p)) with
  | Some e => e
  | None => EmptyString
  end.

End PyStr.

(** ** Numbers *)

(** What the programs use of Python's [float] and [int]. *)
Class PyNum := {
  float : Type;
(** [float(s)]; [None] is [ValueError] *)
  float_of_str : string -> option float;
(** [int(s)]; [None] is [ValueError] *)
  int_of_str : string -> option Z;
(** an [int] constant of the source compared with a [float] *)
  float_of_Z : Z -> float;
(** [float('inf')] *)
  inf : float;
  fsub : float -> float -> float;
  fadd : float -> float -> float;
  fdiv : float -> float -> float;
(** [x ** 2] *)
  fsquare : float -> float;
(** [math.sqrt] *)
  fsqrt : float -> float;
(** [abs] *)
  fabs : float -> float;
(** [<], [<=], [==] *)
  flt : float -> float -> bool;
  fle : float -> float -> bool;
  feq : float -> float -> bool;
(** [f"{x:.nf}"] *)
  format_f : nat -> float -> string
}.

(** The order of doubles that are not NaN: [<] is a strict weak order
    ([0.0] and [-0.0] are different values that compare equal), [<=] is its
    complement read backwards, and the integers up to [2 ^ 53] are doubles
    that compare as they do. *)
Class PyNumOrder (N : PyNum) : Prop := {
  flt_irrefl : forall a, flt a a = false;
  flt_trans : forall a b c, flt a b = true -> flt b c = true -> flt a c = true;
  flt_cotrans : forall a b c, flt a b = true -> flt a c = true \/ flt c b = true;
  fle_flt : forall a b, fle a b = negb (flt b a);
  flt_of_Z : forall a b,
    Z.abs a <= 2 ^ 53 -> Z.abs b <= 2 ^ 53 ->
    flt (float_of_Z a) (float_of_Z b) = (a <? b);
  fabs_of_Z : forall a, fabs (float_of_Z a) = float_of_Z (Z.abs a)
}.

(** ** Cells read back from the list of photographs *)

(** A value of [self.photos_tree.item(id)['values']]: [ttk] answers
    [int(str(cell))] when that succeeds and the string of the cell
    otherwise, so that a matching point written as ['001'] is read as [1]
    and ['0'] as [0]. *)
Inductive Cell :=
| CInt (n : Z)
| CStr (s : string).

(** The cell that was written as [written], read back; [int('')] is a
    [ValueError]. *)
Definition read_cell {N : PyNum} (written : string) : Cell :=
  if String.eqb written EmptyString then CStr EmptyString
  else match int_of_str written with
       | Some n => CInt n
       | None => CStr written
       end.

(** [str(n)] of an [int] *)
Definition str_of_int (n : Z) : string := NilZero.string_of_int (Z.to_int n).

(** [str(cell)] *)
Definition cell_str (c : Cell) : string :=
  match c with
  | CInt n => str_of_int n
  | CStr s => s
  end.

(** The truth value of a cell: [if cell], [if not cell]. *)
Definition cell_truth (c : Cell) : bool :=
  match c with
  | CInt n => negb (n =? 0)
  | CStr s => negb (String.eqb s EmptyString)
  end.

(** [s == cell] for a string [s]: no [int] equals a string. *)
Definition cell_is (c : Cell) (s : string) : bool :=
  match c with
  | CInt _ => false
  | CStr s' => String.eqb s s'
  end.

(** ** Data of the application ([GPSScanApp.__init__]) *)

(** An entry of [self.sim_points]: the dictionary built for an [A01] line. *)
Record Point {N : PyNum} := mkPoint {
  point_num : string;    (* '点番' *)
  point_name : string;   (* '点名' *)
  x_coord : float;       (* 'X座標' *)
  y_coord : float;       (* 'Y座標' *)
  z_coord : float        (* 'Z座標' *)
}.

(** The [values] of one item of [self.photos_tree], by column. *)
Record Row := mkRow {
  v_original : string;    (* values[0]  元ファイル名 *)
  v_new : string;         (* values[1]  新ファイル名 *)
  v_datetime : string;    (* values[2]  撮影日時 *)
  v_landscape : string;   (* values[3]  遠景/近景 *)
  v_x : string;           (* values[4]  X座標 *)
  v_y : string;           (* values[5]  Y座標 *)
  v_matching : string;    (* values[6]  マッチングポイント *)
  v_distance : string     (* values[7]  距離 *)
}.

(** The keys of an entry of [self.photo_gps_data] that the modelled code
    reads or writes; [None] is an absent key. *)
Record GpsData {N : PyNum} := mkGps {
  g_x_coord : option float;            (* 'x_coord' *)
  g_y_coord : option float;            (* 'y_coord' *)
  g_original_x_coord : option float;   (* 'original_x_coord' *)
  g_original_y_coord : option float    (* 'original_y_coord' *)
}.

(** The [tk] variables that the naming code reads. *)
Record Settings := mkSettings {
  use_point_name : bool;
  use_landscape_suffix : bool;
  force_point_name_for_special : bool
}.

(** The mutable part of the application that naming and matching touch. *)
Record App {N : PyNum} := mkApp {
  photos_tree : list Row;
  photo_gps_data : gmap string GpsData
}.

Definition distant : string := "遠景".
Definition close_up : string := "近景".
Definition unknown : string := "不明".

Section Naming.
Context {N : PyNum}.
Variable cfg : Settings.

(** ['基準点' in point_name or '引照点' in point_name] *)
Definition is_special_name (name : string) : bool :=
  PyStr.contains "基準点" name || PyStr.contains "引照点" name.

(** The identifier after the special-point override at the head of
    [create_filename]. *)
Definition effective_identifier (identifier : string)
    (point_data : option Point) : string :=
  match point_data with
  | Some p =>
      if force_point_name_for_special cfg then
        let name := PyStr.strip (point_name p) in
        if is_special_name name then name else identifier
      else identifier
  | None => identifier
  end.

(** [if landscape_type == "不明": landscape_type = "近景"] *)
Definition effective_landscape (landscape_type : string) : string :=
  if String.eqb landscape_type unknown then close_up else landscape_type.

Definition suffix_of (landscape_type : string) : string :=
  if String.eqb landscape_type distant then "-1" else "-2".

(** [base_filename] of [create_filename], in either mode. *)
Definition base_filename (identifier original_filename landscape_type : string)
    (point_data : option Point) : string :=
  let ext := PyStr.splitext_ext original_filename in
  let identifier := effective_identifier identifier point_data in
  if use_landscape_suffix cfg then
    identifier +:+ suffix_of (effective_landscape landscape_type) +:+ ext
  else identifier +:+ ext.

(** Membership of a row in [existing_photos]:
    [match_check and landscape_check and not_same_check] in suffix mode,
    [match_check and not_same_check] otherwise.  [identifier] and
    [landscape_type] are the effective ones; [match_check] is
    [str(current_matching) == str(identifier)] on the matching point as
    read from the list. *)
Definition is_existing (identifier original_filename landscape_type : string)
    (r : Row) : bool :=
  let current_matching := read_cell (v_matching r) in
  if use_landscape_suffix cfg then
    String.eqb (cell_str current_matching) identifier
    && String.eqb (v_landscape r) landscape_type
    && negb (String.eqb (v_original r) original_filename)
  else
    String.eqb (cell_str current_matching) identifier
    && negb (String.eqb (v_original r) original_filename).

(** The rows of [existing_photos] that hold the base name:
    [photo['new'] == base_filename]. *)
Definition collides (identifier original_filename landscape_type base : string)
    (r : Row) : bool :=
  is_existing identifier original_filename landscape_type r
  && String.eqb (v_new r) base.

(** [updated_values]: new file name, matching point and distance blanked. *)
Definition clear_row (r : Row) : Row :=
  {| v_original := v_original r; v_new := ""; v_datetime := v_datetime r;
     v_landscape := v_landscape r; v_x := v_x r; v_y := v_y r;
     v_matching := ""; v_distance := "" |}.

(** The coordinate restore of one displaced photograph: only when the entry
    exists and has both original coordinates. *)
Definition restore_coords (gps : gmap string GpsData) (name : string)
      : gmap string GpsData :=
    match gps !! name with
    | Some g =>
        match g_original_x_coord g, g_original_y_coord g with
        | Some ox, Some oy =>
            <[name := {| g_x_coord := Some ox; g_y_coord := Some oy;
                         g_original_x_coord := g_original_x_coord g;
                         g_original_y_coord := g_original_y_coord g |}]> gps
        | _, _ => gps
        end
    | None => gps
    end.

(** The loop over [existing_photos] of [create_filename]: every row that
    holds the base name has its coordinates restored and its new file name,
    matching point and distance blanked. *)
Definition demote (hit : Row -> bool) (st : App) : App :=
  let displaced := filter (fun r => hit r = true) (photos_tree st) in
  {| photos_tree :=
       (fun r => if hit r then clear_row r else r) <$> photos_tree st;
     photo_gps_data :=
       foldl restore_coords (photo_gps_data st) (v_original <$> displaced) |}.

(** [create_filename(identifier, original_filename, landscape_type,
    point_data)]: the returned name and the application afterwards.  The
    set [used_numbers] that the source fills from the numbered names of
    [existing_photos] is never read and is not part of the result. *)
Definition create_filename (identifier original_filename landscape_type : string)
    (point_data : option Point) (st : App) : string * App :=
  let base :=
    base_filename identifier original_filename landscape_type point_data in
  let identifier := effective_identifier identifier point_data in
  let landscape_type := effective_landscape landscape_type in
  (base, demote (collides identifier original_filename landscape_type base) st).

(** The row update of [confirm_landscape]: the first item whose
    [values[0]] is the photograph. *)
Fixpoint update_first (photo_name : string) (f : Row -> Row)
    (rows : list Row) : list Row :=
  match rows with
  | [] => []
  | r :: rows' =>
      if String.eqb (v_original r) photo_name then f r :: rows'
      else r :: update_first photo_name f rows'
  end.

(** [self.photo_gps_data[photo_name]['x_coord'] = ...; ['y_coord'] = ...] *)
Definition snap_coords (photo_name : string) (x y : float)
    (gps : gmap string GpsData) : gmap string GpsData :=
  match gps !! photo_name with
  | Some g =>
      <[photo_name := {| g_x_coord := Some x; g_y_coord := Some y;
                         g_original_x_coord := g_original_x_coord g;
                         g_original_y_coord := g_original_y_coord g |}]> gps
  | None => gps
  end.

(** The identifier chosen by [confirm_landscape]. *)
Definition dialog_identifier (matched_point : Point) : string :=
  if is_special_name (PyStr.strip (point_name matched_point))
  then point_name matched_point
  else if use_point_name cfg then point_name matched_point
       else point_num matched_point.

(** [confirm_landscape] of [show_landscape_dialog]: the assignment of a
    photograph to a point with the category chosen in the dialog. *)
Definition confirm_landscape (photo_name : string) (matched_point : Point)
    (matched_point_distance : float) (photo_landscape : string)
    (st : App) : App :=
  let identifier := dialog_identifier matched_point in
  let '(new_filename, st1) :=
    create_filename identifier photo_name photo_landscape
      (Some matched_point) st in
  let set_values r :=
    {| v_original := v_original r; v_new := new_filename;
       v_datetime := v_datetime r; v_landscape := photo_landscape;
       v_x := v_x r; v_y := v_y r; v_matching := identifier;
       v_distance := format_f 1 matched_point_distance +:+ "m" |} in
  {| photos_tree := update_first photo_name set_values (photos_tree st1);
     photo_gps_data :=
       snap_coords photo_name (x_coord matched_point) (y_coord matched_point)
         (photo_gps_data st1) |}.

End Naming.

(** ** The survey-network parser ([load_sim_points], [parse_d00_landparcel]) *)

(** An entry of [self.landparcel_data]; ['種別'] is present for [D00]
    parcels only. *)
Record LandParcel {N : PyNum} := mkLandParcel {
  lp_name : string;                      (* '地番' *)
  lp_type : option string;               (* '種別' *)
  lp_coords : list (float * float)       (* '座標' *)
}.

(** The variables of the [while] loop of [load_sim_points]. *)
Record ParseState {N : PyNum} := mkParseState {
  ps_i : Z;
  ps_points : list Point;
  ps_parcels : list LandParcel
}.

(** One turn of a loop: go on with a new state, leave the loop, or raise. *)
Inductive Turn (S R : Type) :=
| Next (s : S)
| Done (r : R)
| Raised.
Arguments Next {S R} s.
Arguments Done {S R} r.
Arguments Raised {S R}.

Section Parser.
Context {N : PyNum}.
Variable lines : list string.

Definition len_lines : Z := Z.of_nat (length lines).

(** [lines[i]]: negative indices count from the end; [None] is
    [IndexError]. *)
Definition py_index (i : Z) : option string :=
  if (0 <=? i) && (i <? len_lines) then lines !! Z.to_nat i
  else if (- len_lines <=? i) && (i <? 0) then lines !! Z.to_nat (len_lines + i)
  else None.

(** [parts[k]] of a list that is long enough. *)
Definition field (parts : list string) (k : nat) : string :=
  default EmptyString (parts !! k).

(** The body of the [try] of the [A01] branch, after the length test:
    [inl true] is the [continue] of the empty-coordinate test, [inl false]
    a [ValueError], [inr p] the appended point. *)
Definition parse_a01 (parts : list string) : bool + Point :=
  let point_num := PyStr.strip (field parts 1) in
  let point_name := PyStr.strip (field parts 2) in
  let x_str := PyStr.strip (field parts 3) in
  let y_str := PyStr.strip (field parts 4) in
  if String.eqb x_str EmptyString || String.eqb y_str EmptyString then inl true
  else
    match float_of_str x_str, float_of_str y_str with
    | Some x, Some y =>
        let z_str := PyStr.strip (field parts 5) in
        if (5 <? length parts)%nat && negb (String.eqb z_str EmptyString) then
          match float_of_str z_str with
          | Some z => inr (mkPoint N point_num point_name x y z)
          | None => inl false
          end
        else inr (mkPoint N point_num point_name x y (float_of_Z 0))
    | _, _ => inl false
    end.

(** The [for j in range(point_count)] loop of the [A02] branch, from [j] on:
    [None] is the [ValueError] of a coordinate that does not parse. *)
Fixpoint read_coords (i : Z) (count : nat) (j : Z)
    (acc : list (float * float)) : option (list (float * float)) :=
  match count with
  | O => Some acc
  | S count' =>
      if i + 1 + j <? len_lines then
        match py_index (i + 1 + j) with
        | None => None
        | Some l =>
            let coord_parts := PyStr.split ","%char (PyStr.strip l) in
            if (2 <=? length coord_parts)%nat then
              match float_of_str (PyStr.strip (field coord_parts 0)),
                    float_of_str (PyStr.strip (field coord_parts 1)) with
              | Some y, Some x => read_coords i count' (j + 1) (acc ++ [(x, y)])
              | _, _ => None
              end
            else read_coords i count' (j + 1) acc
        end
      else read_coords i count' (j + 1) acc
  end.

(** The body of the [try] of the [A02] branch: the parcels afterwards and
    the [point_count] added to [i]; [None] when an exception was caught. *)
Definition parse_a02 (i : Z) (parts : list string)
    (parcels : list LandParcel) : option (list LandParcel * Z) :=
  let name := PyStr.strip (field parts 2) in
  match int_of_str (PyStr.strip (field parts 3)) with
  | None => None
  | Some point_count =>
      match read_coords i (Z.to_nat point_count) 0 [] with
      | None => None
      | Some [] => Some (parcels, point_count)
      | Some coords =>
          Some (parcels ++ [mkLandParcel N name None coords], point_count)
      end
  end.

(** [point_coord_map] of [parse_d00_landparcel]. *)
Definition point_coord_map (points : list Point) : gmap string (float * float) :=
  foldl (fun m p =>
           let m := <[point_num p := (x_coord p, y_coord p)]> m in
           if String.eqb (point_name p) EmptyString then m
           else <[point_name p := (x_coord p, y_coord p)]> m)
        ∅ points.

(** The [while] loop of [parse_d00_landparcel] with [n] lines to go:
    the coordinates collected and the final [i]; [None] is an
    [IndexError]. *)
Fixpoint d00_loop (pmap : gmap string (float * float)) (n : nat) (i : Z)
    (coords : list (float * float)) : option (list (float * float) * Z) :=
  match n with
  | O => Some (coords, i)
  | S n' =>
      match py_index i with
      | None => None
      | Some l =>
          let b01_line := PyStr.strip l in
          if String.eqb b01_line EmptyString then d00_loop pmap n' (i + 1) coords
          else if PyStr.startswith b01_line "D99" then Some (coords, i)
          else if PyStr.startswith b01_line "D00" then Some (coords, i)
          else if PyStr.startswith b01_line "B01" then
            let b01_parts := PyStr.split ","%char b01_line in
            if (2 <=? length b01_parts)%nat then
              let num := PyStr.strip (field b01_parts 1) in
              let name :=
                if (2 <? length b01_parts)%nat
                then PyStr.strip (field b01_parts 2) else EmptyString in
              let coord :=
                match pmap !! num with
                | Some c => Some c
                | None =>
                    if String.eqb name EmptyString then None else pmap !! name
                end in
              match coord with
              | Some c => d00_loop pmap n' (i + 1) (coords ++ [c])
              | None => d00_loop pmap n' (i + 1) coords
              end
            else d00_loop pmap n' (i + 1) coords
          else d00_loop pmap n' (i + 1) coords
      end
  end.

(** [parse_d00_landparcel(lines, start_index)], called on a line that
    exists: [(landparcel_info, lines_processed)]. *)
Definition parse_d00_landparcel (points : list Point) (start_index : Z)
    (line : string) : option LandParcel * Z :=
  let parts := PyStr.split ","%char line in
  if (length parts <? 4)%nat then (None, 0)
  else
    let landparcel_type := PyStr.strip (field parts 1) in
    let name := PyStr.strip (field parts 2) in
    match d00_loop (point_coord_map points)
            (Z.to_nat (len_lines - (start_index + 1))) (start_index + 1) [] with
    | None => (None, 0)
    | Some (coords, i) =>
        let lines_processed := i - start_index in
        if (3 <=? length coords)%nat
        then (Some (mkLandParcel N name (Some landparcel_type) coords),
              lines_processed)
        else (None, lines_processed)
    end.

(** One turn of the [while i < len(lines)] loop of [load_sim_points]. *)
Definition parse_turn (st : ParseState)
    : Turn ParseState (list Point * list LandParcel) :=
  let i := ps_i st in
  if negb (i <? len_lines) then Done (ps_points st, ps_parcels st)
  else
    match py_index i with
    | None => Raised
    | Some l =>
        let line := PyStr.strip l in
        let advance := mkParseState N (i + 1) (ps_points st) (ps_parcels st) in
        if PyStr.startswith line "A01" then
          let parts := PyStr.split ","%char line in
          if (5 <=? length parts)%nat then
            match parse_a01 parts with
            | inl true => Next st
            | inl false => Next advance
            | inr p =>
                Next (mkParseState N (i + 1) (ps_points st ++ [p]) (ps_parcels st))
            end
          else Next advance
        else if PyStr.startswith line "A02" then
          let parts := PyStr.split ","%char line in
          if (4 <=? length parts)%nat then
            match parse_a02 i parts (ps_parcels st) with
            | Some (parcels, point_count) =>
                Next (mkParseState N (i + point_count + 1) (ps_points st) parcels)
            | None => Next advance
            end
          else Next advance
        else if PyStr.startswith line "D00" then
          match parse_d00_landparcel (ps_points st) i line with
          | (Some info, lines_processed) =>
              Next (mkParseState N (i + lines_processed) (ps_points st)
                      (ps_parcels st ++ [info]))
          | (None, _) => Next advance
          end
        else Next advance
    end.

(** The loop run for at most [fuel] turns; [None] when the loop is still
    running after them. *)
Fixpoint parse_loop (fuel : nat) (st : ParseState)
    : option (Turn ParseState (list Point * list LandParcel)) :=
  match fuel with
  | O => None
  | S fuel' =>
      match parse_turn st with
      | Next st' => parse_loop fuel' st'
      | t => Some t
      end
  end.

(** [load_sim_points] up to the end of its loop, from
    [self.sim_points = []], [self.landparcel_data = []], [i = 0]. *)
Definition load_sim_points (fuel : nat)
    : option (Turn ParseState (list Point * list LandParcel)) :=
  parse_loop fuel (mkParseState N 0 [] []).

End Parser.

(** ** The coordinate-frame classifier ([detect_coordinate_system_type]) *)

Section Classifier.
Context {N : PyNum}.

(** [min(l)] and [max(l)] of a non-empty list: the first smallest and the
    first largest element. *)
Definition py_min (x : float) (xs : list float) : float :=
  foldl (fun m a => if flt a m then a else m) x xs.

Definition py_max (x : float) (xs : list float) : float :=
  foldl (fun m a => if flt m a then a else m) x xs.

(** [(x_min, x_max, y_min, y_max)] of a non-empty point list. *)
Definition extrema (p : Point) (ps : list Point)
    : float * float * float * float :=
  (py_min (x_coord p) (x_coord <$> ps), py_max (x_coord p) (x_coord <$> ps),
   py_min (y_coord p) (y_coord <$> ps), py_max (y_coord p) (y_coord <$> ps)).

(** [abs(v) < bound] for the four extrema. *)
Definition all_within (bound : Z) (e : float * float * float * float) : bool :=
  let '(x_min, x_max, y_min, y_max) := e in
  flt (fabs x_max) (float_of_Z bound) && flt (fabs x_min) (float_of_Z bound)
  && flt (fabs y_max) (float_of_Z bound) && flt (fabs y_min) (float_of_Z bound).

(** [detect_coordinate_system_type]: [true] is an arbitrary (local) frame,
    [false] the plane-rectangular frames. *)
Definition detect_coordinate_system_type (sim_points : list Point) : bool :=
  match sim_points with
  | [] => false
  | p :: ps =>
      let '(x_min, x_max, y_min, y_max) := extrema p ps in
      if flt (fabs x_max) (float_of_Z 5000) && flt (fabs x_min) (float_of_Z 5000)
         && flt (fabs y_max) (float_of_Z 5000) && flt (fabs y_min) (float_of_Z 5000)
      then true
      else if flt (fabs x_min) (float_of_Z 300000)
              && flt (fabs x_max) (float_of_Z 300000)
              && flt (fabs y_min) (float_of_Z 300000)
              && flt (fabs y_max) (float_of_Z 300000)
      then false
      else true
  end.

(** The classification results that the specification names. *)
Inductive Frame := LOCAL | NATIONAL_PLANE | NEEDS_MANUAL.

(** The reference definition in the specification's words: over the
    extrema, all four below 5000 is local, else all four below 300000 is
    national plane, else local; no points needs manual input. *)
Definition classify_reference (sim_points : list Point) : Frame :=
  match sim_points with
  | [] => NEEDS_MANUAL
  | p :: ps =>
      if all_within 5000 (extrema p ps) then LOCAL
      else if all_within 300000 (extrema p ps) then NATIONAL_PLANE
      else LOCAL
  end.

(** [system_ranges] of [detect_coordinate_system_number]: the zone number
    with its [x_range] and [y_range], in the order of the dictionary. *)
Definition system_ranges : list (Z * (Z * Z) * (Z * Z)) :=
  [ (1, (-150000, 150000), (-150000, 100000));
    (2, (-250000, 50000), (-150000, 100000));
    (3, (-150000, 150000), (-150000, 150000));
    (4, (-150000, 150000), (-150000, 150000));
    (5, (-150000, 150000), (-150000, 150000));
    (6, (-150000, 150000), (-150000, 150000));
    (7, (-150000, 150000), (-150000, 150000));
    (8, (-150000, 150000), (-150000, 150000));
    (9, (-150000, 200000), (-150000, 150000));
    (10, (-150000, 150000), (-150000, 150000));
    (11, (-150000, 150000), (-150000, 150000));
    (12, (-150000, 150000), (-150000, 150000));
    (13, (-150000, 150000), (-150000, 150000));
    (14, (-200000, 200000), (-200000, 200000));
    (15, (-150000, 150000), (-150000, 150000));
    (16, (-150000, 150000), (-150000, 150000));
    (17, (-150000, 150000), (-150000, 150000));
    (18, (-200000, 200000), (-200000, 200000));
    (19, (-150000, 150000), (-150000, 150000)) ].

(** [sum(l) / len(l)] *)
Definition average (l : list float) : float :=
  fdiv (foldl fadd (float_of_Z 0) l) (float_of_Z (Z.of_nat (length l))).

(** [lo <= v <= hi] *)
Definition in_range (v : float) (range : Z * Z) : bool :=
  fle (float_of_Z (fst range)) v && fle v (float_of_Z (snd range)).

(** [detect_coordinate_system_number]: the first zone whose box holds the
    mean of the points, if any. *)
Definition detect_coordinate_system_number (sim_points : list Point)
    : option Z :=
  match sim_points with
  | [] => None
  | _ :: _ =>
      let avg_x := average (x_coord <$> sim_points) in
      let avg_y := average (y_coord <$> sim_points) in
      let candidates :=
        filter (fun '(_, x_range, y_range) =>
                  in_range avg_x x_range && in_range avg_y y_range = true)
               system_ranges in
      match candidates with
      | (system_num, _, _) :: _ => Some system_num
      | [] => None
      end
  end.

(** What the end of [load_sim_points] makes of the two detections: the
    arbitrary frame with GPS conversion off, a plane-rectangular zone, or
    the plane-rectangular frame with the configured zone kept and the
    operator asked to check it. *)
Inductive Resolution :=
| ArbitraryFrame
| PlaneZone (detected_system : Z)
| PlaneUnconfirmed.

Definition resolve_coordinate_system (sim_points : list Point) : Resolution :=
  if detect_coordinate_system_type sim_points then ArbitraryFrame
  else match detect_coordinate_system_number sim_points with
       | Some detected_system => PlaneZone detected_system
       | None => PlaneUnconfirmed
       end.

(** How [load_sim_points] reads the result: [is_arbitrary] or not. *)
Definition frame_of (is_arbitrary : bool) : Frame :=
  if is_arbitrary then LOCAL else NATIONAL_PLANE.

End Classifier.

(** ** GPS auto-matching ([auto_match_by_gps]) *)

(** [matched_count], [skipped_count], [no_gps_count]. *)
Record Counts := mkCounts {
  matched_count : nat;
  skipped_count : nat;
  no_gps_count : nat
}.

Section AutoMatch.
Context {N : PyNum}.
Variable cfg : Settings.

(** [math.sqrt((point['X座標'] - x) ** 2 + (point['Y座標'] - y) ** 2)] *)
Definition point_distance (x y : float) (point : Point) : float :=
  fsqrt (fadd (fsquare (fsub (x_coord point) x))
              (fsquare (fsub (y_coord point) y))).

(** One turn of the scan [for point in self.sim_points]. *)
Definition scan_turn (x y : float) (best : float * option Point)
    (point : Point) : float * option Point :=
  let dist := point_distance x y point in
  if flt dist (fst best) then (dist, Some point) else best.

(** [(min_distance, matched_point)] after the scan. *)
Definition nearest_point (x y : float) (sim_points : list Point)
    : float * option Point :=
  foldl (scan_turn x y) (inf, None) sim_points.

(** The item of position [item_id] visited by the loop of
    [auto_match_by_gps]: the values are read when the visit starts and
    written back to the same item after [create_filename].  The item is
    skipped when its matching point, as read from the list, is true. *)
Definition auto_match_visit (distance : float) (sim_points : list Point)
    (acc : App * Counts) (item_id : nat) : App * Counts :=
  let '(st, c) := acc in
  match photos_tree st !! item_id with
  | None => acc
  | Some values =>
      let photo_name := v_original values in
      if cell_truth (read_cell (v_matching values)) then
        (st, mkCounts (matched_count c) (S (skipped_count c)) (no_gps_count c))
      else
        let no_gps :=
          (st, mkCounts (matched_count c) (skipped_count c) (S (no_gps_count c))) in
        match photo_gps_data st !! photo_name with
        | None => no_gps
        | Some data =>
            match g_x_coord data, g_y_coord data with
            | Some x, Some y =>
                match nearest_point x y sim_points with
                | (min_distance, Some matched_point) =>
                    if fle min_distance distance then
                      let identifier :=
                        if use_point_name cfg then point_name matched_point
                        else point_num matched_point in
                      let '(new_filename, st1) :=
                        create_filename cfg identifier photo_name close_up
                          (Some matched_point) st in
                      let values' :=
                        {| v_original := v_original values;
                           v_new := new_filename;
                           v_datetime := v_datetime values;
                           v_landscape := close_up;
                           v_x := format_f 3 (x_coord matched_point);
                           v_y := format_f 3 (y_coord matched_point);
                           v_matching := identifier;
                           v_distance := format_f 1 min_distance +:+ "m" |} in
                      ({| photos_tree := <[item_id := values']> (photos_tree st1);
                          photo_gps_data :=
                            snap_coords photo_name (x_coord matched_point)
                              (y_coord matched_point) (photo_gps_data st1) |},
                       mkCounts (S (matched_count c)) (skipped_count c)
                         (no_gps_count c))
                    else acc
                | (_, None) => acc
                end
            | _, _ => no_gps
            end
        end
  end.

(** The test by which [create_filename], called from the visit of
    [photo_name] matched to [point], picks the rows it displaces. *)
Definition auto_match_hit (point : Point) (photo_name : string) : Row -> bool :=
  let identifier :=
    if use_point_name cfg then point_name point else point_num point in
  collides cfg (effective_identifier cfg identifier (Some point)) photo_name
    (effective_landscape close_up)
    (base_filename cfg identifier photo_name close_up (Some point)).

(** The loop [for item_id in self.photos_tree.get_children()]. *)
Definition auto_match_pass (distance : float) (sim_points : list Point)
    (st : App) : App * Counts :=
  foldl (auto_match_visit distance sim_points) (st, mkCounts 0 0 0)
        (seq 0 (length (photos_tree st))).

(** The assignment that the visit of [item_id] makes, if it makes one:
    the photograph and the point that it hands to [create_filename]. *)
Definition visit_assignment (distance : float) (sim_points : list Point)
    (st : App) (item_id : nat) : option (string * Point) :=
  match photos_tree st !! item_id with
  | None => None
  | Some values =>
      if cell_truth (read_cell (v_matching values)) then None
      else
        match photo_gps_data st !! v_original values with
        | None => None
        | Some data =>
            match g_x_coord data, g_y_coord data with
            | Some x, Some y =>
                match nearest_point x y sim_points with
                | (min_distance, Some matched_point) =>
                    if fle min_distance distance
                    then Some (v_original values, matched_point)
                    else None
                | (_, None) => None
                end
            | _, _ => None
            end
        end
  end.


(** [auto_match_by_gps] with the distance entered in the dialog ([None]
    when the dialog is cancelled): the guards, then the pass. *)
Definition auto_match_by_gps (use_arbitrary_coordinates use_gps_conversion : bool)
    (distance : option float) (sim_points : list Point) (st : App) : App :=
  match sim_points, distance with
  | [], _ => st
  | _, None => st
  | _ :: _, Some d =>
      if decide (photo_gps_data st = ∅) then st
      else if use_arbitrary_coordinates then st
      else if negb use_gps_conversion then st
      else if feq d (float_of_Z 0) then st
      else fst (auto_match_pass d sim_points st)
  end.

End AutoMatch.

(** ** The earlier program ([開発用GPSSCAN.py]) *)

Module Legacy.

(** A row of [self.points_df]. *)
Record Point {N : PyNum} := mkPoint {
  point_num : string;    (* '点番' *)
  point_name : string;   (* '点名' *)
  x_coord : float;       (* 'X座標' *)
  y_coord : float        (* 'Y座標' *)
}.

(** What [load_sim_points] leaves behind: the points stored in
    [self.points_df] under the encoding that was accepted, or the error box
    "ファイルを解析できませんでした". *)
Inductive LoadResult {N : PyNum} :=
| Loaded (encoding : string) (points : list Point)
| Unparsable.

(** The outcome of matching one photograph. *)
Inductive MatchResult {N : PyNum} :=
| Matched (closest_point : Point) (min_distance : float)
| OutOfRange (min_distance : float)         (* "範囲外" *)
| NoCoordinates.                            (* "座標なし" *)

Section Program.
Context {N : PyNum}.

(** [encodings] of [load_sim_points]. *)
Definition encodings : list string := ["shift-jis"; "utf-8"; "cp932"; "euc-jp"].

(** The file as [open(file_path, 'r', encoding=e).read()] sees it: the text,
    or [None] for [UnicodeDecodeError] and [IOError]. *)
Variable read_file : string -> option string.

(** [point_pattern.finditer(content)] turned into the list [points]. *)
Variable find_points : string -> list Point.

(** The loop [for encoding in encodings] from a given candidate on. *)
Fixpoint try_encodings (candidates : list string) : LoadResult :=
  match candidates with
  | [] => Unparsable
  | encoding :: rest =>
      match read_file encoding with
      | None => try_encodings rest
      | Some content =>
          match find_points content with
          | [] => try_encodings rest
          | points => Loaded encoding points
          end
      end
  end.

Definition load_sim_points : LoadResult := try_encodings encodings.

(** The point records that the file yields under a candidate encoding;
    none when the file does not decode. *)
Definition decoded_points (encoding : string) : list Point :=
  match read_file encoding with
  | Some content => find_points content
  | None => []
  end.

(** [calculate_xy_distance(x1, y1, x2, y2)] *)
Definition calculate_xy_distance (x1 y1 x2 y2 : option float) : float :=
  match x1, y1, x2, y2 with
  | Some x1, Some y1, Some x2, Some y2 =>
      fsqrt (fadd (fsquare (fsub x2 x1)) (fsquare (fsub y2 y1)))
  | _, _, _, _ => inf
  end.

(** [create_filename(identifier, original_filename, landscape_type)] *)
Definition create_filename (use_landscape_suffix : bool)
    (identifier original_filename landscape_type : string) : string :=
  let ext := PyStr.splitext_ext original_filename in
  if use_landscape_suffix then
    identifier +:+ (if String.eqb landscape_type distant then "-1" else "-2") +:+ ext
  else identifier +:+ ext.

(** One turn of [for _, point in self.points_df.iterrows()]. *)
Definition scan_turn (photo_x photo_y : float) (best : float * option Point)
    (point : Point) : float * option Point :=
  let distance :=
    calculate_xy_distance (Some photo_x) (Some photo_y)
      (Some (x_coord point)) (Some (y_coord point)) in
  if flt distance (fst best) then (distance, Some point) else best.

(** [(min_distance, closest_point)] after the scan. *)
Definition closest (photo_x photo_y : float) (points : list Point)
    : float * option Point :=
  foldl (scan_turn photo_x photo_y) (inf, None) points.

(** The decision of [match_photos_to_points_xy] for one photograph whose
    projected position is [xy] ([None] without ['x_coord']). *)
Definition match_photo (max_distance : float) (points : list Point)
    (xy : option (float * float)) : MatchResult :=
  match xy with
  | None => NoCoordinates
  | Some (photo_x, photo_y) =>
      match closest photo_x photo_y points with
      | (min_distance, Some closest_point) =>
          if fle min_distance max_distance
          then Matched closest_point min_distance
          else OutOfRange min_distance
      | (min_distance, None) => OutOfRange min_distance
      end
  end.

(** The values written back to the item. *)
Definition write_result (use_point_name use_landscape_suffix : bool)
    (values : Row) (r : MatchResult) : Row :=
  let photo_name := v_original values in
  match r with
  | Matched closest_point min_distance =>
      let identifier :=
        if use_point_name then point_name closest_point
        else point_num closest_point in
      {| v_original := photo_name;
         v_new := create_filename use_landscape_suffix identifier photo_name
                    (v_landscape values);
         v_datetime := v_datetime values; v_landscape := v_landscape values;
         v_x := v_x values; v_y := v_y values;
         v_matching := identifier;
         v_distance := format_f 1 min_distance +:+ "m" |}
  | OutOfRange min_distance =>
      {| v_original := photo_name; v_new := photo_name;
         v_datetime := v_datetime values; v_landscape := v_landscape values;
         v_x := v_x values; v_y := v_y values;
         v_matching := "範囲外";
         v_distance := if feq min_distance inf then "不明"
                       else format_f 1 min_distance +:+ "m" |}
  | NoCoordinates =>
      {| v_original := photo_name; v_new := photo_name;
         v_datetime := v_datetime values; v_landscape := v_landscape values;
         v_x := v_x values; v_y := v_y values;
         v_matching := "座標なし"; v_distance := "" |}
  end.

(** The loop of [match_photos_to_points_xy] over the items;
    [photo_gps_data] gives the projected position of a photograph. *)
Definition match_photos_to_points_xy (use_point_name use_landscape_suffix : bool)
    (max_distance : float) (points : list Point)
    (photo_gps_data : gmap string (float * float)) (tree : list Row) : list Row :=
  (fun values =>
     write_result use_point_name use_landscape_suffix values
       (match_photo max_distance points (photo_gps_data !! v_original values)))
  <$> tree.

End Program.
End Legacy.

(** ** A decimal instance of the numbers

    Thousandths as integers, with the two infinities: enough to run the
    definitions on the scenarios of the specification.  The instance
    reads plain decimal literals: ASCII digits with an optional sign and
    white space around.  Where [float()] and [int()] of Python accept
    more (exponents, underscores between digits, [nan] and [inf], the
    decimal digits of other scripts) it answers [None]; the scenarios
    have no such literal, and the theorems that are stated for every
    instance do not depend on it. *)

Module Dec3.

Inductive t :=
| Fin (m : Z)
| Inf (negative : bool).

Definition ltb (a b : t) : bool :=
  match a, b with
  | Fin x, Fin y => x <? y
  | Fin _, Inf negative => negb negative
  | Inf negative, Fin _ => negative
  | Inf n1, Inf n2 => n1 && negb n2
  end.

Definition leb (a b : t) : bool := negb (ltb b a).

Definition eqb (a b : t) : bool := negb (ltb a b) && negb (ltb b a).

Definition of_Z (z : Z) : t := Fin (1000 * z).

Definition neg (a : t) : t :=
  match a with
  | Fin x => Fin (- x)
  | Inf negative => Inf (negb negative)
  end.

Definition add (a b : t) : t :=
  match a, b with
  | Fin x, Fin y => Fin (x + y)
  | Inf negative, _ => Inf negative
  | _, Inf negative => Inf negative
  end.

Definition sub (a b : t) : t := add a (neg b).

Definition div (a b : t) : t :=
  match a, b with
  | Fin x, Fin y => Fin (x * 1000 / y)
  | Fin _, Inf _ => Fin 0
  | Inf negative, _ => Inf negative
  end.

Definition square (a : t) : t :=
  match a with
  | Fin x => Fin (x * x / 1000)
  | Inf _ => Inf false
  end.

Definition sqrt (a : t) : t :=
  match a with
  | Fin x => Fin (Z.sqrt (x * 1000))
  | Inf negative => Inf negative
  end.

Definition abs (a : t) : t :=
  match a with
  | Fin x => Fin (Z.abs x)
  | Inf _ => Inf false
  end.

Definition digit_val (c : ascii) : option Z :=
  let n := nat_of_ascii c in
  if ((48 <=? n) && (n <=? 57))%nat then Some (Z.of_nat (n - 48)) else None.

(** The value of a string of decimal digits, continuing from [acc]. *)
Fixpoint digits (s : string) (acc : Z) : option Z :=
  match s with
  | EmptyString => Some acc
  | String c s' =>
      match digit_val c with
      | Some d => digits s' (10 * acc + d)
      | None => None
      end
  end.

(** The first [k] digits of a fraction, padded with zeros; what follows
    must be digits and is dropped. *)
Fixpoint fraction (s : string) (k : nat) (acc : Z) : option Z :=
  match k with
  | O => match digits s 0 with Some _ => Some acc | None => None end
  | S k' =>
      match s with
      | EmptyString => Some (acc * 10 ^ Z.of_nat k)
      | String c s' =>
          match digit_val c with
          | Some d => fraction s' k' (10 * acc + d)
          | None => None
          end
      end
  end.

Definition unsigned (s : string) : option Z :=
  match PyStr.split "."%char s with
  | [ip] =>
      if String.eqb ip EmptyString then None
      else match digits ip 0 with Some v => Some (1000 * v) | None => None end
  | [ip; fp] =>
      if String.eqb ip EmptyString && String.eqb fp EmptyString then None
      else match digits ip 0, fraction fp 3 0 with
           | Some v, Some f => Some (1000 * v + f)
           | _, _ => None
           end
  | _ => None
  end.

(** Decimal literals with an optional sign, after [strip]. *)
Definition parse_float (s : string) : option t :=
  match PyStr.strip s with
  | String "-"%char r =>
      match unsigned r with Some v => Some (Fin (- v)) | None => None end
  | String "+"%char r =>
      match unsigned r with Some v => Some (Fin v) | None => None end
  | r => match unsigned r with Some v => Some (Fin v) | None => None end
  end.

(** Integer literals with an optional sign, after [strip]. *)
Definition parse_int (s : string) : option Z :=
  let nonempty r :=
    if String.eqb r EmptyString then None else digits r 0 in
  match PyStr.strip s with
  | String "-"%char r =>
      match nonempty r with Some v => Some (- v) | None => None end
  | String "+"%char r => nonempty r
  | r => nonempty r
  end.

Definition string_of_nonneg (z : Z) : string :=
  NilZero.string_of_uint (N.to_uint (Z.to_N z)).

Fixpoint zeros (k : nat) : string :=
  match k with
  | O => EmptyString
  | S k' => String "0"%char (zeros k')
  end.

(** [n] decimals, rounding half up in magnitude. *)
Definition format (n : nat) (a : t) : string :=
  match a with
  | Inf negative => if negative then "-inf" else "inf"
  | Fin m =>
      let scaled :=
        if (n <=? 3)%nat
        then (2 * Z.abs m + 10 ^ Z.of_nat (3 - n)) / (2 * 10 ^ Z.of_nat (3 - n))
        else Z.abs m * 10 ^ Z.of_nat (n - 3) in
      let ip := string_of_nonneg (scaled / 10 ^ Z.of_nat n) in
      let fp := string_of_nonneg (scaled mod 10 ^ Z.of_nat n) in
      let sign := if m <? 0 then "-" else EmptyString in
      match n with
      | O => sign +:+ ip
      | _ => sign +:+ ip +:+ "." +:+ zeros (n - String.length fp) +:+ fp
      end
  end.

#[export] Instance num : PyNum := {|
  float := t;
  float_of_str := parse_float;
  int_of_str := parse_int;
  float_of_Z := of_Z;
  inf := Inf false;
  fsub := sub;
  fadd := add;
  fdiv := div;
  fsquare := square;
  fsqrt := sqrt;
  fabs := abs;
  flt := ltb;
  fle := leb;
  feq := eqb;
  format_f := format
|}.

End Dec3.

(** The bookkeeping of [load_photos]: the projected position found in the
    EXIF data is kept a second time as the original position. *)
Definition record_original_coords {N : PyNum} (exif_data : GpsData) : GpsData :=
  match g_x_coord exif_data, g_y_coord exif_data with
  | Some x, Some y =>
      {| g_x_coord := Some x; g_y_coord := Some y;
         g_original_x_coord := Some x; g_original_y_coord := Some y |}
  | _, _ => exif_data
  end.

(** The values of the item that [load_photos] inserts for a photograph. *)
Definition loaded_row {N : PyNum} (photo_file datetime : string)
    (exif_data : GpsData) : Row :=
  let shown c :=
    match c with Some v => format_f 3 v | None => EmptyString end in
  {| v_original := photo_file; v_new := ""; v_datetime := datetime;
     v_landscape := unknown; v_x := shown (g_x_coord exif_data);
     v_y := shown (g_y_coord exif_data); v_matching := ""; v_distance := "" |}.

(** ** Entries of the coordinate store *)

(** What [restore_coords] does to the entry of the photograph. *)
Definition restore_entry {N : PyNum} (g : GpsData) : GpsData :=
  match g_original_x_coord g, g_original_y_coord g with
  | Some ox, Some oy =>
      {| g_x_coord := Some ox; g_y_coord := Some oy;
         g_original_x_coord := g_original_x_coord g;
         g_original_y_coord := g_original_y_coord g |}
  | _, _ => g
  end.

(** What [snap_coords] does to the entry of the photograph. *)
Definition snap_entry {N : PyNum} (x y : float) (g : GpsData) : GpsData :=
  {| g_x_coord := Some x; g_y_coord := Some y;
     g_original_x_coord := g_original_x_coord g;
     g_original_y_coord := g_original_y_coord g |}.

(** ** The scenarios of the specification, on the decimal instance *)

Module Scenario.
Import Dec3.

(** Identifier by point number, suffixes in use, special points forced to
    their name: the defaults of [GPSScanApp.__init__]. *)
Definition cfg : Settings :=
  {| use_point_name := false; use_landscape_suffix := true;
     force_point_name_for_special := true |}.

(** Two control points in the range of the plane-rectangular frames. *)
Definition BM1 : Point :=
  mkPoint num "BM1" "bench one" (of_Z 10100) (of_Z 10200) (of_Z 0).
Definition BM2 : Point :=
  mkPoint num "BM2" "bench two" (of_Z 10500) (of_Z 10200) (of_Z 0).

(** The EXIF entry of a photograph projected to [(x, y)], as [load_photos]
    stores it. *)
Definition exif (x y : Z) : GpsData :=
  record_original_coords (mkGps num (Some (of_Z x)) (Some (of_Z y)) None None).

(** Two photographs near [BM1] and one with another extension, freshly
    loaded. *)
Definition loaded : App :=
  {| photos_tree := [loaded_row "P1.jpg" "" (exif 10110 10205);
                     loaded_row "P2.jpg" "" (exif 10101 10201);
                     loaded_row "P3.png" "" (exif 10099 10199)];
     photo_gps_data :=
       <["P1.jpg" := exif 10110 10205]>
         (<["P2.jpg" := exif 10101 10201]>
            (<["P3.png" := exif 10099 10199]> ∅)) |}.

(** [P1] is the incumbent of ["BM1-2.jpg"]. *)
Definition p1_incumbent : App :=
  confirm_landscape cfg "P1.jpg" BM1 (Fin 11180) close_up loaded.

(** [P1] is the incumbent of ["BM1-1.jpg"], the distant view. *)
Definition p1_distant : App :=
  confirm_landscape cfg "P1.jpg" BM1 (Fin 11180) distant loaded.


(** [P1], then [P2], assigned to [BM1] as close views. *)
Definition p2_after_p1 : App :=
  confirm_landscape cfg "P2.jpg" BM1 (Fin 1414) close_up p1_incumbent.

(** A reference point: its name carries the marker 基準点, its number does
    not. *)
Definition REF : Point :=
  mkPoint num "12" "基準点A" (of_Z 10100) (of_Z 10200) (of_Z 0).

(** Control points whose numbers are not read from the list as they
    were written: ["0"] is read as the integer [0], ["001"] as [1]. *)
Definition ZERO : Point :=
  mkPoint num "0" "origin" (of_Z 10100) (of_Z 10200) (of_Z 0).
Definition LEADING : Point :=
  mkPoint num "001" "first" (of_Z 10100) (of_Z 10200) (of_Z 0).

(** [P1] assigned to [ZERO] as a distant view. *)
Definition p1_on_zero : App :=
  confirm_landscape cfg "P1.jpg" ZERO (Fin 11180) distant loaded.

(** [P1], then [P2], assigned to [LEADING] as close views. *)
Definition p2_after_p1_on_leading : App :=
  confirm_landscape cfg "P2.jpg" LEADING (Fin 1414) close_up
    (confirm_landscape cfg "P1.jpg" LEADING (Fin 11180) close_up loaded).

(** [auto_match_by_gps] with the distance entered in the dialog, the flags
    being what [load_sim_points] made of the control points. *)
Definition auto_match (distance : Z) (sim_points : list Point) (st : App) : App :=
  let is_arbitrary := detect_coordinate_system_type sim_points in
  auto_match_by_gps cfg is_arbitrary (negb is_arbitrary) (Some (of_Z distance))
    sim_points st.

(** The freshly loaded list after [auto_match_by_gps] with distance 15 and
    [REF] as the only control point. *)
Definition auto_matched_to_ref : App := auto_match 15 [REF] loaded.

End Scenario.

(** ** Reading the legacy parcel record *)

Section ParcelLines.
Context {N : PyNum}.

(** The coordinate pair that the [A02] branch takes from a line that
    follows the record: second field as [x], first field as [y]; nothing
    when the line has fewer than two fields or a field is not a number. *)
Definition a02_coordinate (l : string) : option (float * float) :=
  let coord_parts := PyStr.split ","%char (PyStr.strip l) in
  if (2 <=? length coord_parts)%nat then
    match float_of_str (PyStr.strip (field coord_parts 0)),
          float_of_str (PyStr.strip (field coord_parts 1)) with
    | Some y, Some x => Some (x, y)
    | _, _ => None
    end
  else None.

(** A following line that does not stop the record: fewer than two fields,
    or two numbers in front. *)
Definition a02_line_ok (l : string) : Prop :=
  (length (PyStr.split ","%char (PyStr.strip l)) < 2)%nat
  \/ is_Some (a02_coordinate l).

(** The turn of the loop at an [A02] record leaves the index just behind
    the [point_count] lines that follow the record. *)
Definition consumes_declared_lines (lines : list string) (st : ParseState)
    (point_count : Z) : Prop :=
  exists st', parse_turn lines st = Next st'
              /\ ps_i st' = ps_i st + point_count + 1.

End ParcelLines.

(** ** The nearest-point scan, for any distance *)

Section Scan.
Context {N : PyNum} {A : Type}.
Variable dist : A -> float.

(** One turn of [if dist < min_distance: min_distance = dist;
    matched_point = point]. *)
Definition keep_nearer (best : float * option A) (a : A) : float * option A :=
  if flt (dist a) (fst best) then (dist a, Some a) else best.

(** [a] at position [i] of [l] is the nearest element and the first among
    the nearest. *)
Definition first_nearest (l : list A) (i : nat) (a : A) : Prop :=
  l !! i = Some a
  /\ (forall b, b ∈ l -> flt (dist b) (dist a) = false)
  /\ (forall j b, (j < i)%nat -> l !! j = Some b -> flt (dist a) (dist b) = true).

End Scan.

(** ** The names held by the rows *)

(** The numbered name [{identifier}_{n}{ext}] of the specification. *)
Definition numbered_name (identifier : string) (n : nat) (ext : string) : string :=
  identifier +:+ "_" +:+ NilZero.string_of_uint (Nat.to_uint n) +:+ ext.

(** No two rows with the same matching point and category hold the same
    new file name. *)
Definition names_unique (tree : list Row) : Prop :=
  forall i j r1 r2,
    tree !! i = Some r1 -> tree !! j = Some r2 ->
    v_matching r1 = v_matching r2 ->
    v_landscape r1 = v_landscape r2 ->
    v_new r1 = v_new r2 ->
    v_new r1 <> EmptyString ->
    i = j.

(** The applications reached from [st0] by assignments of the dialog, to
    points as the parser builds them (names stripped) and with a category
    of the dialog. *)
Inductive assigned_from {N : PyNum} (cfg : Settings) (st0 : App) : App -> Prop :=
| assigned_start : assigned_from cfg st0 st0
| assigned_step st photo_name matched_point matched_point_distance landscape :
    assigned_from cfg st0 st ->
    PyStr.strip (point_name matched_point) = point_name matched_point ->
    landscape = distant \/ landscape = close_up ->
    assigned_from cfg st0
      (confirm_landscape cfg photo_name matched_point matched_point_distance
         landscape st).

(** ** What a pass keeps of a row *)


(** ** Lines that keep the parser from moving on *)

Section ParserLines.
Context {N : PyNum}.

(** An [A01] record with five fields or more and an empty x or y field: the
    line on which the loop of [load_sim_points] takes its [continue]. *)
Definition a01_stalls (l : string) : bool :=
  let line := PyStr.strip l in
  let parts := PyStr.split ","%char line in
  PyStr.startswith line "A01" && (5 <=? length parts)%nat
  && (String.eqb (PyStr.strip (field parts 3)) EmptyString
      || String.eqb (PyStr.strip (field parts 4)) EmptyString).

(** An [A02] record with four fields or more that declares a negative
    number of lines: [i += point_count] moves the index backwards. *)
Definition a02_rewinds (l : string) : bool :=
  let line := PyStr.strip l in
  let parts := PyStr.split ","%char line in
  negb (PyStr.startswith line "A01") && PyStr.startswith line "A02"
  && (4 <=? length parts)%nat
  && match int_of_str (PyStr.strip (field parts 3)) with
     | Some point_count => point_count <? 0
     | None => false
     end.

(** The point [p] is what the [A01] branch appends for the line [l]. *)
Definition from_a01_line (l : string) (p : Point) : Prop :=
  PyStr.startswith (PyStr.strip l) "A01" = true
  /\ (5 <= length (PyStr.split ","%char (PyStr.strip l)))%nat
  /\ parse_a01 (PyStr.split ","%char (PyStr.strip l)) = inr p.

(** A parcel as the parser stores it: a legacy parcel with a coordinate at
    least, or a linked parcel whose three or more corners are positions of
    the given points. *)
Definition parcel_well_formed (points : list Point) (lp : LandParcel) : Prop :=
  match lp_type lp with
  | None => lp_coords lp <> []
  | Some _ =>
      (3 <= length (lp_coords lp))%nat
      /\ forall c, c ∈ lp_coords lp ->
           exists p, p ∈ points /\ c = (x_coord p, y_coord p)
  end.

(** What holds of the points and parcels collected so far: every point was
    appended for an [A01] line of the file, every parcel is well formed. *)
Definition collected_ok (lines : list string) (st : ParseState) : Prop :=
  (forall p, p ∈ ps_points st -> exists l, l ∈ lines /\ from_a01_line l p)
  /\ (forall lp, lp ∈ ps_parcels st -> parcel_well_formed (ps_points st) lp).

(** The line at index [i] carries one of the tags that end a [D00] block. *)
Definition at_block_end (lines : list string) (i : Z) : Prop :=
  exists l, py_index lines i = Some l
            /\ (PyStr.startswith (PyStr.strip l) "D99" = true
                \/ PyStr.startswith (PyStr.strip l) "D00" = true).

End ParserLines.

(** A survey file with three points, a legacy parcel of two coordinate
    lines and a linked parcel of three corners. *)
Definition sample_sim_lines : list string :=
  [ "Z00,survey";
    "A01,1,K1,10100.0,10200.0,5.5";
    "A01,2,K2,10500.0,10200.0";
    " A01, 3 , K3 ,10500.0,10600.0,";
    "A02,9,lot,2";
    "10.5,20.25";
    "30.0,40.0";
    "D00,1,12-3,1";
    "B01,1,K1";
    "C03,400.0,90";
    "B01,2,K2";
    "B01,3,K3";
    "D99";
    "A99" ].

(** The points and the parcels of [sample_sim_lines]. *)
Definition sample_points : list (@Point Dec3.num) :=
  [ mkPoint Dec3.num "1" "K1" (Dec3.of_Z 10100) (Dec3.of_Z 10200) (Dec3.Fin 5500);
    mkPoint Dec3.num "2" "K2" (Dec3.of_Z 10500) (Dec3.of_Z 10200) (Dec3.of_Z 0);
    mkPoint Dec3.num "3" "K3" (Dec3.of_Z 10500) (Dec3.of_Z 10600) (Dec3.of_Z 0) ].

Definition sample_parcels : list (@LandParcel Dec3.num) :=
  [ mkLandParcel Dec3.num "lot" None
      [(Dec3.Fin 20250, Dec3.Fin 10500); (Dec3.Fin 40000, Dec3.Fin 30000)];
    mkLandParcel Dec3.num "12-3" (Some "1")
      [(Dec3.of_Z 10100, Dec3.of_Z 10200); (Dec3.of_Z 10500, Dec3.of_Z 10200);
       (Dec3.of_Z 10500, Dec3.of_Z 10600)] ].

(** ** The other operations on the list of photographs *)

(** What [extract_exif_data] finds in a photograph: the date and the
    projected position. *)
Record Exif {N : PyNum} := mkExif {
  e_datetime : option string;            (* 'datetime' *)
  e_position : option (float * float)    (* 'x_coord', 'y_coord' *)
}.

Section Operations.
Context {N : PyNum}.

(** The truth value of a [float]: [0.0] is false. *)
Definition truthy (x : float) : bool := negb (feq x (float_of_Z 0)).

(** The entry that [load_photos] gets from [extract_exif_data]. *)
Definition exif_entry (exif_data : Exif) : GpsData :=
  match e_position exif_data with
  | Some (x, y) => mkGps N (Some x) (Some y) None None
  | None => mkGps N None None None None
  end.

(** The values of the item that [load_photos] inserts: a coordinate cell
    is left empty without a coordinate and for the coordinate [0.0]. *)
Definition inserted_values (photo_file : string) (exif_data : Exif) : Row :=
  let shown c :=
    match c with
    | Some v => if truthy v then format_f 3 v else EmptyString
    | None => EmptyString
    end in
  {| v_original := photo_file; v_new := "";
     v_datetime := default EmptyString (e_datetime exif_data);
     v_landscape := unknown;
     v_x := shown (fst <$> e_position exif_data);
     v_y := shown (snd <$> e_position exif_data);
     v_matching := ""; v_distance := "" |}.

(** The loop [for photo_file in photo_files] of [load_photos], from the
    emptied list and store; each file comes with what [extract_exif_data]
    finds in it. *)
Definition load_photos (photo_files : list (string * Exif)) : App :=
  foldl (fun st '(photo_file, exif_data) =>
           {| photos_tree :=
                photos_tree st ++ [inserted_values photo_file exif_data];
              photo_gps_data :=
                <[photo_file := record_original_coords (exif_entry exif_data)]>
                  (photo_gps_data st) |})
        {| photos_tree := []; photo_gps_data := ∅ |} photo_files.

(** [event.xdata and event.ydata]: the position of the mouse on the map. *)
Definition on_map (xdata ydata : option float) : option (float * float) :=
  match xdata, ydata with
  | Some x, Some y => if truthy x && truthy y then Some (x, y) else None
  | _, _ => None
  end.

(** The point on which [on_map_release] drops the photograph, with its
    distance: the display shows [(Y, X)], so [drop_x = event.ydata] and
    [drop_y = event.xdata]. *)
Definition drop_target (xdata ydata : option float) (sim_points : list Point)
    : option (Point * float) :=
  match on_map xdata ydata with
  | Some (xd, yd) =>
      let drop_x := yd in
      let drop_y := xd in
      match nearest_point drop_x drop_y sim_points with
      | (min_distance, Some matched_point) =>
          if flt min_distance (float_of_Z 50)
          then Some (matched_point, min_distance) else None
      | (_, None) => None
      end
  | None => None
  end.

(** [on_map_release] for the left button and the dialog it opens:
    [choice] is the category confirmed in the dialog, [None] when the
    dialog is closed without. *)
Definition on_map_release (cfg : Settings) (dragging_photo : option string)
    (xdata ydata : option float) (choice : option string)
    (sim_points : list Point) (st : App) : App :=
  match dragging_photo with
  | None => st
  | Some dragging_photo_name =>
      if String.eqb dragging_photo_name EmptyString then st
      else
        match drop_target xdata ydata sim_points, choice with
        | Some (matched_point, min_distance), Some photo_landscape =>
            confirm_landscape cfg dragging_photo_name matched_point
              min_distance photo_landscape st
        | _, _ => st
        end
  end.

(** [unmatch_photo]: the selected item, if any, and the answer to the
    confirmation.  An item whose matching point reads as false is refused.
    The coordinate store is not touched. *)
Definition unmatch_photo (selection : option nat) (confirmed : bool)
    (st : App) : App :=
  match selection with
  | None => st
  | Some photo_item =>
      match photos_tree st !! photo_item with
      | None => st
      | Some values =>
          if negb (cell_truth (read_cell (v_matching values))) then st
          else if confirmed then
            {| photos_tree :=
                 <[photo_item :=
                     {| v_original := v_original values; v_new := "";
                        v_datetime := v_datetime values;
                        v_landscape := unknown;
                        v_x := v_x values; v_y := v_y values;
                        v_matching := ""; v_distance := "" |}]>
                   (photos_tree st);
               photo_gps_data := photo_gps_data st |}
          else st
      end
  end.

(** The search of [save_edit] for the point of the row: the first point
    whose identifier or name equals the matching point as read from the
    list, which no point does when that is an [int]. *)
Fixpoint find_matched_point (cfg : Settings) (identifier : Cell)
    (sim_points : list Point) : option Point :=
  match sim_points with
  | [] => None
  | point :: rest =>
      let point_id :=
        if use_point_name cfg then point_name point else point_num point in
      if cell_is identifier point_id || cell_is identifier (point_name point)
      then Some point
      else find_matched_point cfg identifier rest
  end.

(** [edit_photo_matching] and its [save_edit]: the selected item, the
    radio button picked in the dialog ([None] leaves the category of the
    row) and whether the dialog is saved.  [updated_values] is the list
    that was read, so the matching point is written back as it was
    read. *)
Definition edit_photo_matching (cfg : Settings) (selection : option nat)
    (picked : option string) (saved : bool) (sim_points : list Point)
    (st : App) : App :=
  match selection with
  | None => st
  | Some photo_item =>
      match photos_tree st !! photo_item with
      | None => st
      | Some values =>
          if negb (cell_truth (read_cell (v_matching values))) then st
          else if negb saved then st
          else
            let new_landscape := default (v_landscape values) picked in
            let identifier := read_cell (v_matching values) in
            let original_filename := v_original values in
            match find_matched_point cfg identifier sim_points with
            | Some matched_point =>
                let '(new_filename, st1) :=
                  create_filename cfg (cell_str identifier) original_filename
                    new_landscape (Some matched_point) st in
                {| photos_tree :=
                     <[photo_item :=
                         {| v_original := v_original values;
                            v_new := new_filename;
                            v_datetime := v_datetime values;
                            v_landscape := new_landscape;
                            v_x := v_x values; v_y := v_y values;
                            v_matching := cell_str identifier;
                            v_distance := v_distance values |}]>
                       (photos_tree st1);
                   photo_gps_data := photo_gps_data st1 |}
            | None => st
            end
      end
  end.

End Operations.

(** ** What naming and matching leave alone *)

(** The part of the coordinate store that no naming or matching step
    writes: the photographs that have an entry, with their original
    position. *)
Definition originals {N : PyNum} (gps : gmap string GpsData)
    : gmap string (option float * option float) :=
  (fun g => (g_original_x_coord g, g_original_y_coord g)) <$> gps.

(** The file name and the date of every row, in display order. *)
Definition row_heads (tree : list Row) : list (string * string) :=
  (fun r => (v_original r, v_datetime r)) <$> tree.

Definition same_frame {N : PyNum} (st st' : App) : Prop :=
  row_heads (photos_tree st') = row_heads (photos_tree st)
  /\ originals (photo_gps_data st') = originals (photo_gps_data st).

(** ** The states of a session *)

(** The names of the points are stripped, as the parser leaves them. *)
Definition names_stripped {N : PyNum} (sim_points : list Point) : Prop :=
  forall p, p ∈ sim_points -> PyStr.strip (point_name p) = point_name p.

(** [auto_match_by_gps] and [save_edit] write into the matching cell the
    identifier under which [create_filename] looks for the rows to
    displace: the check box that forces the name of reference points is
    off, or the identifier is the point name anyway, or no point is a
    reference point. *)
Definition identifiers_agree {N : PyNum} (cfg : Settings)
    (sim_points : list Point) : Prop :=
  force_point_name_for_special cfg = false
  \/ use_point_name cfg = true
  \/ forall p, p ∈ sim_points ->
       is_special_name (PyStr.strip (point_name p)) = false.

(** A category that the radio buttons of the dialogs offer. *)
Definition offered (picked : option string) : Prop :=
  picked = None \/ picked = Some distant \/ picked = Some close_up.

(** The applications reached from [st0] by drops on the map, automatic
    matching, edits and unmatching, whatever the settings and the control
    points of each step. *)
Inductive reachable {N : PyNum} (st0 : App) : App -> Prop :=
| reach_start : reachable st0 st0
| reach_drop cfg sim_points dragging_photo xdata ydata choice st :
    reachable st0 st ->
    names_stripped sim_points ->
    offered choice ->
    reachable st0
      (on_map_release cfg dragging_photo xdata ydata choice sim_points st)
| reach_auto_match cfg sim_points use_arbitrary_coordinates use_gps_conversion
    distance st :
    reachable st0 st ->
    names_stripped sim_points ->
    identifiers_agree cfg sim_points ->
    reachable st0
      (auto_match_by_gps cfg use_arbitrary_coordinates use_gps_conversion
         distance sim_points st)
| reach_edit cfg sim_points selection picked saved st :
    reachable st0 st ->
    names_stripped sim_points ->
    identifiers_agree cfg sim_points ->
    offered picked ->
    reachable st0
      (edit_photo_matching cfg selection picked saved sim_points st)
| reach_unmatch selection confirmed st :
    reachable st0 st ->
    reachable st0 (unmatch_photo selection confirmed st).

(** A string that is read from the list as it was written into a cell:
    not an integer literal, or the decimal writing that [str] gives its
    value. *)
Definition reads_as_written {N : PyNum} (written : string) : Prop :=
  cell_str (read_cell written) = written.

(** The numbers and names of the points read as written. *)
Definition identifiers_read_back {N : PyNum} (sim_points : list Point) : Prop :=
  forall p, p ∈ sim_points ->
    reads_as_written (point_num p) /\ reads_as_written (point_name p).

(** The applications reached as by [reachable], with control points whose
    identifiers read as written in the steps that write one into the
    list. *)
Inductive reachable_as_written {N : PyNum} (st0 : App) : App -> Prop :=
| written_start : reachable_as_written st0 st0
| written_drop cfg sim_points dragging_photo xdata ydata choice st :
    reachable_as_written st0 st ->
    names_stripped sim_points ->
    identifiers_read_back sim_points ->
    offered choice ->
    reachable_as_written st0
      (on_map_release cfg dragging_photo xdata ydata choice sim_points st)
| written_auto_match cfg sim_points use_arbitrary_coordinates
    use_gps_conversion distance st :
    reachable_as_written st0 st ->
    names_stripped sim_points ->
    identifiers_agree cfg sim_points ->
    identifiers_read_back sim_points ->
    reachable_as_written st0
      (auto_match_by_gps cfg use_arbitrary_coordinates use_gps_conversion
         distance sim_points st)
| written_edit cfg sim_points selection picked saved st :
    reachable_as_written st0 st ->
    names_stripped sim_points ->
    identifiers_agree cfg sim_points ->
    offered picked ->
    reachable_as_written st0
      (edit_photo_matching cfg selection picked saved sim_points st)
| written_unmatch selection confirmed st :
    reachable_as_written st0 st ->
    reachable_as_written st0 (unmatch_photo selection confirmed st).

(** Every matching point of the list reads as written. *)
Definition cells_as_written {N : PyNum} (tree : list Row) : Prop :=
  forall r, r ∈ tree -> reads_as_written (v_matching r).

(** Every matched row has a category of the dialogs. *)
Definition categories_ok (tree : list Row) : Prop :=
  forall r, r ∈ tree -> v_matching r <> EmptyString ->
    v_landscape r = distant \/ v_landscape r = close_up.

(** What holds of the list along a session whose identifiers read as
    written: distinct file names, unique new names, and matching points
    that read as written. *)
Definition list_ok {N : PyNum} (st : App) : Prop :=
  NoDup (v_original <$> photos_tree st)
  /\ names_unique (photos_tree st)
  /\ cells_as_written (photos_tree st).

(** ** Statistics and settings *)

(** The counters of [show_statistics] (the percentage is left out). *)
Record Statistics := mkStatistics {
  stat_total : nat;       (* total *)
  stat_matched : nat;     (* matched *)
  stat_distant : nat;     (* distant *)
  stat_close : nat;       (* close *)
  stat_unmatched : nat    (* unmatched *)
}.

(** One turn of the loop of [show_statistics] over the items:
    [(matched, distant, close)]. *)
Definition count_row {N : PyNum} (acc : nat * nat * nat) (values : Row)
    : nat * nat * nat :=
  let '(matched, n_distant, n_close) := acc in
  if cell_truth (read_cell (v_matching values)) then
    if String.eqb (v_landscape values) distant
    then (S matched, S n_distant, n_close)
    else if String.eqb (v_landscape values) close_up
         then (S matched, n_distant, S n_close)
         else (S matched, n_distant, n_close)
  else acc.

Definition show_statistics {N : PyNum} (tree : list Row) : Statistics :=
  let total := length tree in
  let '(matched, n_distant, n_close) := foldl count_row (0, 0, 0)%nat tree in
  {| stat_total := total; stat_matched := matched; stat_distant := n_distant;
     stat_close := n_close; stat_unmatched := (total - matched)%nat |}.

(** The [tk] variables that [save_settings] and [load_settings] read and
    write, and [use_arbitrary_coordinates]. *)
Record Variables := mkVariables {
  naming : Settings;
  coordinate_system : Z;
  use_gps_conversion : bool;
  drag_mode : Z;
  use_arbitrary_coordinates : bool
}.

(** The object in [gpsscan_settings.json]; [None] is a key that the file
    does not have. *)
Record SettingsFile := mkSettingsFile {
  file_use_point_name : option bool;
  file_use_landscape_suffix : option bool;
  file_force_point_name_for_special : option bool;
  file_coordinate_system : option Z;
  file_use_gps_conversion : option bool;
  file_drag_mode : option Z
}.

(** The dictionary that [save_settings] dumps. *)
Definition save_settings (v : Variables) : SettingsFile :=
  {| file_use_point_name := Some (use_point_name (naming v));
     file_use_landscape_suffix := Some (use_landscape_suffix (naming v));
     file_force_point_name_for_special :=
       Some (force_point_name_for_special (naming v));
     file_coordinate_system := Some (coordinate_system v);
     file_use_gps_conversion := Some (use_gps_conversion v);
     file_drag_mode := Some (drag_mode v) |}.

(** [load_settings]; [None] when the file does not exist. *)
Definition load_settings (file : option SettingsFile) (v : Variables)
    : Variables :=
  match file with
  | None => v
  | Some settings =>
      {| naming :=
           {| use_point_name := default false (file_use_point_name settings);
              use_landscape_suffix :=
                default true (file_use_landscape_suffix settings);
              force_point_name_for_special :=
                default true (file_force_point_name_for_special settings) |};
         coordinate_system := default 9 (file_coordinate_system settings);
         use_gps_conversion :=
           if negb (use_arbitrary_coordinates v)
           then default true (file_use_gps_conversion settings)
           else use_gps_conversion v;
         drag_mode := default 1 (file_drag_mode settings);
         use_arbitrary_coordinates := use_arbitrary_coordinates v |}
  end.

(** What the end of [load_sim_points] writes into the variables. *)
Definition apply_resolution (r : Resolution) (v : Variables) : Variables :=
  match r with
  | ArbitraryFrame =>
      {| naming := naming v; coordinate_system := coordinate_system v;
         use_gps_conversion := false; drag_mode := drag_mode v;
         use_arbitrary_coordinates := true |}
  | PlaneZone detected_system =>
      {| naming := naming v; coordinate_system := detected_system;
         use_gps_conversion := true; drag_mode := drag_mode v;
         use_arbitrary_coordinates := false |}
  | PlaneUnconfirmed =>
      {| naming := naming v; coordinate_system := coordinate_system v;
         use_gps_conversion := true; drag_mode := drag_mode v;
         use_arbitrary_coordinates := false |}
  end.

(** [auto_match_by_gps] as the menu calls it, on the variables. *)
Definition auto_match_command {N : PyNum} (v : Variables)
    (distance : option float) (sim_points : list Point) (st : App) : App :=
  auto_match_by_gps (naming v) (use_arbitrary_coordinates v)
    (use_gps_conversion v) distance sim_points st.

(** ** A session on the decimal instance *)

Module Session.
Import Dec3.

(** Two photographs near [BM1], one of them dated, and one without a
    position. *)
Definition files : list (string * @Exif num) :=
  [ ("P1.jpg", mkExif num (Some "2024:05:01 10:00:00")
                 (Some (of_Z 10110, of_Z 10205)));
    ("P2.jpg", mkExif num None (Some (of_Z 10101, of_Z 10201)));
    ("P3.png", mkExif num None None) ].

Definition sim_points : list Point := [Scenario.BM1; Scenario.BM2].

(** Automatic matching within 15. *)
Definition after_auto_match : App :=
  auto_match_by_gps Scenario.cfg false true (Some (of_Z 15)) sim_points
    (load_photos files).

(** [P3.png] dropped next to [BM2], at display position [(10201, 10500)],
    as a distant view. *)
Definition after_drop : App :=
  on_map_release Scenario.cfg (Some "P3.png") (Some (of_Z 10201))
    (Some (of_Z 10500)) (Some distant) sim_points after_auto_match.

(** The second row edited to a distant view. *)
Definition after_edit : App :=
  edit_photo_matching Scenario.cfg (Some 1%nat) (Some distant) true sim_points
    after_drop.

(** The third row unmatched. *)
Definition after_unmatch : App :=
  unmatch_photo (Some 2%nat) true after_edit.

End Session.

(** ** Copying the photographs under their new names

    A folder tree is a finite map from paths to file contents; it holds
    files only, and the names in the list are file names. *)

(** First component of [os.path.splitext(p)]: what is left of [p] before
    the extension. *)
Definition splitext_root (p : string) : string :=
  String.substring 0 (String.length p - String.length (PyStr.splitext_ext p)) p.

Section Copying.

(** [os.path.join(folder, name)] *)
Variable join : string -> string -> string.

(** The exception that [shutil.copy2(src, dst)] raises in a folder tree,
    as its message; [None] when the file is copied. *)
Variable copy_error : gmap string string -> string -> string -> option string.

(** [rename_list] of [rename_photos_to_new_folder]: the rows with a new
    file name. *)
Definition rename_list (tree : list Row) : list Row :=
  filter (fun values => v_new values <> EmptyString) tree.

(** One turn of the loop [for item in rename_list]:
    [(files, success_count, error_list)]. *)
Definition copy_item (photo_directory output_folder : string)
    (acc : gmap string string * nat * list string) (item : Row)
    : gmap string string * nat * list string :=
  let '(files, success_count, error_list) := acc in
  let src_path := join photo_directory (v_original item) in
  let dst_path := join output_folder (v_new item) in
  match files !! src_path with
  | None =>
      (files, success_count,
       error_list ++ [v_original item +:+ ": ファイルが見つかりません"])
  | Some content =>
      match copy_error files src_path dst_path with
      | Some message =>
          (files, success_count,
           error_list ++ [v_original item +:+ ": " +:+ message])
      | None => (<[dst_path := content]> files, S success_count, error_list)
      end
  end.

(** How [rename_photos_to_new_folder] ends: before the copy loop, or with
    [success_count] and [error_list]. *)
Inductive RenameResult :=
| NotRun
| Ran (success_count : nat) (error_list : list string).

(** [rename_photos_to_new_folder]: the answer to the backup question, the
    folder of the photographs, the folder chosen for the output (empty
    when the dialog is cancelled).  The method [create_backup] that the
    backup branch calls is not defined in the class: the call raises
    [AttributeError], the error box is shown and the function returns. *)
Definition rename_photos_to_new_folder {N : PyNum} (create_backup : bool)
    (photo_directory output_folder : string) (st : App)
    (files : gmap string string) : gmap string string * RenameResult :=
  if decide (photo_gps_data st = ∅) then (files, NotRun)
  else if create_backup then (files, NotRun)
  else
    match rename_list (photos_tree st) with
    | [] => (files, NotRun)
    | items =>
        if String.eqb output_folder EmptyString then (files, NotRun)
        else
          let '(files', success_count, error_list) :=
            foldl (copy_item photo_directory output_folder)
                  (files, 0%nat, []) items in
          (files', Ran success_count error_list)
    end.

(** The marks of [開発用GPSSCAN.py] in the matching cell of a row that is
    not matched. *)
Definition unmatched_marks : list string :=
  ["未マッチング"; "範囲外"; "GPS情報なし"; "座標なし"].

(** The loop [while os.path.exists(new_path)] of the earlier program, for
    at most [fuel] tests: the path that is free, [None] when the loop is
    still running.  [new_filename] is the name under test, [counter] the
    number of the next one. *)
Fixpoint free_path (fuel : nat) (files : gmap string string)
    (renamed_folder base_new_filename new_filename : string) (counter : nat)
    : option string :=
  match fuel with
  | O => None
  | S fuel' =>
      let new_path := join renamed_folder new_filename in
      if decide (is_Some (files !! new_path)) then
        free_path fuel' files renamed_folder base_new_filename
          (numbered_name (splitext_root base_new_filename) counter
             (PyStr.splitext_ext base_new_filename))
          (S counter)
      else Some new_path
  end.

(** One turn of the loop over the items of
    [rename_photos_to_new_folder] of the earlier program:
    [(files, renamed_count, skipped_count)]; [None] when the search for a
    free path is still running. *)
Definition legacy_copy_item (fuel : nat) (directory renamed_folder : string)
    (acc : option (gmap string string * nat * nat)) (values : Row)
    : option (gmap string string * nat * nat) :=
  match acc with
  | None => None
  | Some (files, renamed_count, skipped_count) =>
      if bool_decide (v_matching values ∈ unmatched_marks)
      then Some (files, renamed_count, S skipped_count)
      else
        let original_path := join directory (v_original values) in
        match free_path fuel files renamed_folder (v_new values)
                (v_new values) 1 with
        | None => None
        | Some new_path =>
            match files !! original_path with
            | None => Some (files, renamed_count, skipped_count)
            | Some content =>
                match copy_error files original_path new_path with
                | Some _ => Some (files, renamed_count, skipped_count)
                | None =>
                    Some (<[new_path := content]> files, S renamed_count,
                          skipped_count)
                end
            end
        end
  end.

(** The copy loop of [rename_photos_to_new_folder] of the earlier
    program, into the folder [renamed_folder] that it has made. *)
Definition legacy_rename (fuel : nat) (directory renamed_folder : string)
    (tree : list Row) (files : gmap string string)
    : option (gmap string string * nat * nat) :=
  foldl (legacy_copy_item fuel directory renamed_folder)
        (Some (files, 0%nat, 0%nat)) tree.

End Copying.

(** [os.path.join] of a folder that does not end in a separator and a
    relative name. *)
Definition join_path (folder name : string) : string :=
  folder +:+ "/" +:+ name.

(** A folder tree in which every copy succeeds. *)
Definition copies (files : gmap string string) (src dst : string)
    : option string := None.

(** The two photographs of the collision scenario and their contents. *)
Definition photo_folder : gmap string string :=
  <["photos/P1.jpg" := "first"]>
    (<["photos/P2.jpg" := "second"]>
       (<["photos/P3.png" := "third"]> ∅)).

(** Three rows of the earlier program after matching: two photographs
    matched to [BM1] as close views, which get the same new name, and one
    out of range. *)
Definition legacy_rows : list Row :=
  [ {| v_original := "P1.jpg"; v_new := "BM1-2.jpg"; v_datetime := "";
       v_landscape := close_up; v_x := ""; v_y := ""; v_matching := "BM1";
       v_distance := "11.2m" |};
    {| v_original := "P2.jpg"; v_new := "BM1-2.jpg"; v_datetime := "";
       v_landscape := close_up; v_x := ""; v_y := ""; v_matching := "BM1";
       v_distance := "1.4m" |};
    {| v_original := "P3.png"; v_new := "P3.png"; v_datetime := "";
       v_landscape := close_up; v_x := ""; v_y := ""; v_matching := "範囲外";
       v_distance := "412.3m" |} ].



(** The photographs and an output folder that holds a file already. *)
Definition legacy_folder : gmap string string :=
  <["photos/renamed/BM1-2.jpg" := "older"]> photo_folder.

(** ** Files of point records *)

Section PointFiles.
Context {N : PyNum}.

(** The point that the [A01] branch of [load_sim_points] appends for a
    line, if any. *)
Definition a01_point (l : string) : option Point :=
  let line := PyStr.strip l in
  let parts := PyStr.split ","%char line in
  if PyStr.startswith line "A01" && (5 <=? length parts)%nat then
    match parse_a01 parts with
    | inr p => Some p
    | inl _ => None
    end
  else None.

(** A file without parcel records and without a point record that stalls
    the loop. *)
Definition point_file (lines : list string) : Prop :=
  forall l, l ∈ lines ->
    a01_stalls l = false
    /\ PyStr.startswith (PyStr.strip l) "A02" = false
    /\ PyStr.startswith (PyStr.strip l) "D00" = false.

End PointFiles.

(** * Properties *)

(** ** Coordinate entries *)

Section CoordinateStore.
Context {N : PyNum}.

Lemma restore_entry_idemp g : restore_entry (restore_entry g) = restore_entry g.
Proof.
  unfold restore_entry.
  destruct g as [x y [ox|] [oy|]]; reflexivity.
Qed.

Lemma restore_coords_lookup (gps : gmap string GpsData) k k' :
  restore_coords gps k !! k' =
  if decide (k = k') then restore_entry <$> gps !! k' else gps !! k'.
Proof.
  unfold restore_coords.
  destruct (decide (k = k')) as [<-|Hne].
  - destruct (gps !! k) as [g|] eqn:Hg; simpl; [|by rewrite Hg].
    unfold restore_entry.
    destruct (g_original_x_coord g), (g_original_y_coord g);
      rewrite ?lookup_insert_eq, ?Hg; reflexivity.
  - destruct (gps !! k) as [g|]; [|reflexivity].
    destruct (g_original_x_coord g), (g_original_y_coord g);
      rewrite ?lookup_insert_ne; done.
Qed.

Lemma snap_coords_lookup (gps : gmap string GpsData) p x y k :
  snap_coords p x y gps !! k =
  if decide (p = k) then snap_entry x y <$> gps !! k else gps !! k.
Proof.
  unfold snap_coords.
  destruct (decide (p = k)) as [<-|Hne].
  - destruct (gps !! p) as [g|] eqn:Hg; simpl; [|by rewrite Hg].
    by rewrite lookup_insert_eq.
  - destruct (gps !! p) as [g|]; [|reflexivity].
    by rewrite lookup_insert_ne.
Qed.

Lemma foldl_restore_lookup (names : list string) (gps : gmap string GpsData) k :
  foldl restore_coords gps names !! k =
  if decide (k ∈ names) then restore_entry <$> gps !! k else gps !! k.
Proof.
  revert gps. induction names as [|n names IH]; intros gps; simpl.
  - destruct (decide (k ∈ [])) as [H|H]; [by apply elem_of_nil in H|done].
  - rewrite IH, restore_coords_lookup.
    destruct (decide (n = k)) as [->|Hne].
    + rewrite (decide_True (P := k ∈ k :: names)) by apply list_elem_of_here.
      destruct (decide (k ∈ names)); [|done].
      destruct (gps !! k); simpl; [by rewrite restore_entry_idemp|done].
    + destruct (decide (k ∈ names)) as [Hin|Hnin].
      * rewrite decide_True by (by apply list_elem_of_further). done.
      * rewrite decide_False; [done|].
        intros [->|?]%elem_of_cons; done.
Qed.

End CoordinateStore.
(** ** Cells read back *)

Section CellFacts.
Context {N : PyNum}.


(** A cell that reads as a true value was not written empty. *)
Lemma cell_truth_written written :
  cell_truth (read_cell written) = true -> written <> EmptyString.
Proof. intros H ->. discriminate H. Qed.

(** A cell that reads as a string reads as written. *)
Lemma read_cell_str written s : read_cell written = CStr s -> s = written.
Proof.
  unfold read_cell.
  destruct (String.eqb written EmptyString) eqn:He.
  - apply String.eqb_eq in He. by intros [= <-].
  - destruct (int_of_str written); [discriminate|]. by intros [= <-].
Qed.

Lemma cell_is_str c s : cell_is c s = true -> c = CStr s.
Proof.
  destruct c as [n|s']; [discriminate|]. cbn.
  by intros ->%String.eqb_eq.
Qed.

End CellFacts.


(** ** File-name assignment *)

Section NamingFacts.
Context {N : PyNum}.
Variable cfg : Settings.

Lemma clear_row_original r : v_original (clear_row r) = v_original r.
Proof. reflexivity. Qed.

Lemma clear_row_idemp r : clear_row (clear_row r) = clear_row r.
Proof. reflexivity. Qed.

(** A row that holds the base name belongs to another photograph. *)
Lemma collides_other identifier original_filename landscape_type base r :
  collides cfg identifier original_filename landscape_type base r = true ->
  v_original r <> original_filename.
Proof.
  unfold collides, is_existing. intros H Heq.
  apply String.eqb_eq in Heq.
  destruct (use_landscape_suffix cfg); rewrite Heq in H; simpl in H;
    rewrite ?andb_false_r in H; discriminate.
Qed.

(** The names of the rows displaced by a second sweep were displaced by the
    first. *)
Lemma displaced_again (hit : Row -> bool) (tree : list Row) k :
  k ∈ v_original <$>
      filter (fun r => hit r = true)
        ((fun r => if hit r then clear_row r else r) <$> tree) ->
  k ∈ v_original <$> filter (fun r => hit r = true) tree.
Proof.
  intros (r' & -> & Hr')%list_elem_of_fmap.
  apply list_elem_of_filter in Hr' as [Hhit (r & -> & Hr)%list_elem_of_fmap].
  destruct (hit r) eqn:Hr0.
  - change (v_original r ∈ v_original <$> filter (fun r => hit r = true) tree).
    apply list_elem_of_fmap_2, list_elem_of_filter. by split.
  - congruence.
Qed.

(** Sweeping twice with the same test is sweeping once. *)
Lemma demote_idemp (hit : Row -> bool) (st : App) :
  demote hit (demote hit st) = demote hit st.
Proof.
  unfold demote; simpl. f_equal.
  - rewrite <- list_fmap_compose. apply list_fmap_ext. intros _ r _. simpl.
    destruct (hit r) eqn:Hr; [|by rewrite Hr].
    by destruct (hit (clear_row r)).
  - apply map_eq. intros k. rewrite !foldl_restore_lookup.
    destruct (decide (k ∈ v_original <$> filter _ (_ <$> photos_tree st)))
      as [Hin|Hnin]; [|reflexivity].
    apply displaced_again in Hin.
    rewrite decide_True by done.
    destruct (photo_gps_data st !! k); simpl; [|reflexivity].
    by rewrite restore_entry_idemp.
Qed.

Lemma update_first_fmap_original photo_name f (tree : list Row) :
  (forall r, v_original (f r) = v_original r) ->
  v_original <$> update_first photo_name f tree = v_original <$> tree.
Proof.
  intros Hf. induction tree as [|r tree IH]; cbn [update_first]; [reflexivity|].
  destruct (String.eqb (v_original r) photo_name); rewrite !fmap_cons.
  - by rewrite Hf.
  - by rewrite IH.
Qed.

(** Writing the same values twice into the row of a photograph. *)
Lemma update_first_twice photo_name f (tree : list Row) :
  (forall r, v_original (f r) = v_original r) ->
  (forall r, f (f r) = f r) ->
  update_first photo_name f (update_first photo_name f tree)
  = update_first photo_name f tree.
Proof.
  intros Hf Hff. induction tree as [|r tree IH]; cbn [update_first]; [reflexivity|].
  destruct (String.eqb (v_original r) photo_name) eqn:Hr; cbn [update_first].
  - by rewrite Hf, Hr, Hff.
  - by rewrite Hr, IH.
Qed.

(** A sweep that spares the rows of a photograph commutes with the update
    of its row. *)
Lemma sweep_update_first (hit : Row -> bool) photo_name f (tree : list Row) :
  (forall r, v_original r = photo_name -> hit r = false) ->
  (forall r, v_original (f r) = v_original r) ->
  (fun r => if hit r then clear_row r else r) <$> update_first photo_name f tree
  = update_first photo_name f ((fun r => if hit r then clear_row r else r) <$> tree).
Proof.
  intros Hspare Hf. induction tree as [|r tree IH]; cbn [update_first]; [reflexivity|].
  destruct (String.eqb (v_original r) photo_name) eqn:Hr;
    rewrite !fmap_cons; cbn [update_first].
  - apply String.eqb_eq in Hr.
    rewrite (Hspare r Hr). rewrite (Hspare (f r)) by (by rewrite Hf).
    apply String.eqb_eq in Hr. by rewrite Hr.
  - rewrite IH.
    destruct (hit r); cbn [clear_row v_original]; by rewrite Hr.
Qed.

Lemma elem_of_update_first photo_name f (tree : list Row) r :
  r ∈ update_first photo_name f tree ->
  r ∈ tree \/ exists r0, r0 ∈ tree /\ v_original r0 = photo_name /\ r = f r0.
Proof.
  induction tree as [|r0 tree IH]; cbn [update_first]; [by left|].
  destruct (String.eqb (v_original r0) photo_name) eqn:Hr0.
  - intros [->|Hr]%elem_of_cons.
    + right. exists r0. apply String.eqb_eq in Hr0. split; [by left|done].
    + left. by right.
  - intros [->|Hr]%elem_of_cons; [left; by left|].
    destruct (IH Hr) as [?|(r1 & ? & ? & ?)]; [left; by right|].
    right. exists r1. split; [by right|done].
Qed.

(** The rows displaced after the update of the row of a photograph were
    displaced before it. *)
Lemma displaced_after_update (hit : Row -> bool) photo_name f (tree : list Row) k :
  (forall r, v_original r = photo_name -> hit r = false) ->
  (forall r, v_original (f r) = v_original r) ->
  k ∈ v_original <$> filter (fun r => hit r = true) (update_first photo_name f tree) ->
  k <> photo_name /\ k ∈ v_original <$> filter (fun r => hit r = true) tree.
Proof.
  intros Hspare Hf (r & -> & [Hhit Hr]%list_elem_of_filter)%list_elem_of_fmap.
  split.
  { intros Heq. rewrite (Hspare r Heq) in Hhit. discriminate. }
  apply list_elem_of_fmap_2, list_elem_of_filter. split; [done|].
  apply elem_of_update_first in Hr as [Hr|(r0 & _ & Hr0 & ->)]; [done|].
  rewrite Hspare in Hhit; [discriminate|]. by rewrite Hf.
Qed.

End NamingFacts.

Section NamingTheorems.
Context {N : PyNum}.
Variable cfg : Settings.

Lemma sweep_idemp (hit : Row -> bool) (tree : list Row) :
  (fun r => if hit r then clear_row r else r)
    <$> ((fun r => if hit r then clear_row r else r) <$> tree)
  = (fun r => if hit r then clear_row r else r) <$> tree.
Proof.
  rewrite <- list_fmap_compose. apply list_fmap_ext. intros _ r _. simpl.
  destruct (hit r) eqn:Hr; [|by rewrite Hr].
  by destruct (hit (clear_row r)).
Qed.

(** The coordinate entry of a displaced photograph after the sweep. *)
Lemma demote_lookup_displaced (hit : Row -> bool) (st : App) r :
  r ∈ photos_tree st -> hit r = true ->
  photo_gps_data (demote hit st) !! v_original r
  = restore_entry <$> photo_gps_data st !! v_original r.
Proof.
  intros Hr Hhit. unfold demote; simpl. rewrite foldl_restore_lookup.
  rewrite decide_True; [reflexivity|].
  apply list_elem_of_fmap_2, list_elem_of_filter. by split.
Qed.

(** Whatever the state, the row that holds the base name is left without
    new file name, matching point and distance: no numbered name is ever
    written. *)
Lemma displaced_row_is_blanked
    identifier original_filename landscape_type point_data st i r :
  photos_tree st !! i = Some r ->
  collides cfg (effective_identifier cfg identifier point_data)
    original_filename (effective_landscape landscape_type)
    (base_filename cfg identifier original_filename landscape_type point_data)
    r = true ->
  photos_tree
    (snd (create_filename cfg identifier original_filename landscape_type
            point_data st)) !! i
  = Some (clear_row r).
Proof.
  intros Hi Hhit. unfold create_filename, demote. cbn [snd photos_tree].
  rewrite list_lookup_fmap, Hi. cbn. by rewrite Hhit.
Qed.

(** C3. A photograph displaced from the base name by [create_filename],
    whose original projected coordinates were recorded when it was loaded,
    has them as its stored position afterwards: right after
    [create_filename], and after the whole assignment of the dialog, which
    moves only the newly assigned photograph onto the matched point. *)
Theorem demotion_restores_original_position
    identifier original_filename landscape_type point_data st r g ox oy :
  r ∈ photos_tree st ->
  collides cfg (effective_identifier cfg identifier point_data)
    original_filename (effective_landscape landscape_type)
    (base_filename cfg identifier original_filename landscape_type point_data)
    r = true ->
  photo_gps_data st !! v_original r = Some g ->
  g_original_x_coord g = Some ox ->
  g_original_y_coord g = Some oy ->
  let restored :=
    {| g_x_coord := Some ox; g_y_coord := Some oy;
       g_original_x_coord := Some ox; g_original_y_coord := Some oy |} in
  photo_gps_data
    (snd (create_filename cfg identifier original_filename landscape_type
            point_data st)) !! v_original r = Some restored
  /\ forall matched_point matched_point_distance,
       identifier = dialog_identifier cfg matched_point ->
       point_data = Some matched_point ->
       photo_gps_data
         (confirm_landscape cfg original_filename matched_point
            matched_point_distance landscape_type st) !! v_original r
       = Some restored.
Proof.
  intros Hr Hhit Hg Hox Hoy restored.
  assert (photo_gps_data
            (snd (create_filename cfg identifier original_filename
                    landscape_type point_data st)) !! v_original r
          = Some restored) as Hfirst.
  { unfold create_filename; cbn [snd].
    rewrite (demote_lookup_displaced _ st r Hr Hhit), Hg. simpl.
    unfold restore_entry. by rewrite Hox, Hoy. }
  split; [exact Hfirst|].
  intros matched_point d -> ->.
  unfold confirm_landscape.
  unfold create_filename in *. cbn [snd photo_gps_data] in *.
  rewrite snap_coords_lookup.
  rewrite decide_False; [exact Hfirst|].
  intros Heq. by apply collides_other in Hhit.
Qed.

(** C8. Calling [create_filename] a second time with the arguments of the
    call just made returns the same file name and changes nothing: no
    further photograph is displaced.  The same holds when the caller's
    update of the assigned row lies between the two calls: the assignment
    of the dialog done twice is the assignment done once.  A row of the
    photograph being named is never among the displaced ones. *)
Theorem assign_twice_same identifier original_filename landscape_type point_data st :
  create_filename cfg identifier original_filename landscape_type point_data
    (snd (create_filename cfg identifier original_filename landscape_type
            point_data st))
  = create_filename cfg identifier original_filename landscape_type point_data st
  /\ (forall r, v_original r = original_filename ->
        collides cfg (effective_identifier cfg identifier point_data)
          original_filename (effective_landscape landscape_type)
          (base_filename cfg identifier original_filename landscape_type
             point_data) r = false)
  /\ forall matched_point matched_point_distance,
       confirm_landscape cfg original_filename matched_point
         matched_point_distance landscape_type
         (confirm_landscape cfg original_filename matched_point
            matched_point_distance landscape_type st)
       = confirm_landscape cfg original_filename matched_point
           matched_point_distance landscape_type st.
Proof.
  split.
  { unfold create_filename; cbn [snd]. by rewrite demote_idemp. }
  split.
  { intros r Hr.
    destruct (collides cfg _ original_filename _ _ r) eqn:Hh; [|reflexivity].
    by apply collides_other in Hh. }
  intros matched_point d.
  unfold confirm_landscape, create_filename.
  set (id0 := dialog_identifier cfg matched_point).
  set (base := base_filename cfg id0 original_filename landscape_type
                 (Some matched_point)).
  set (hit := collides cfg (effective_identifier cfg id0 (Some matched_point))
                original_filename (effective_landscape landscape_type) base).
  set (f := fun r : Row =>
              {| v_original := v_original r; v_new := base;
                 v_datetime := v_datetime r; v_landscape := landscape_type;
                 v_x := v_x r; v_y := v_y r; v_matching := id0;
                 v_distance := format_f 1 d +:+ "m" |}).
  assert (forall r, v_original r = original_filename -> hit r = false) as Hspare.
  { intros r Hr. destruct (hit r) eqn:Hh; [|reflexivity].
    by apply collides_other in Hh. }
  assert (forall r, v_original (f r) = v_original r) as Hf by reflexivity.
  assert (forall r, f (f r) = f r) as Hff by reflexivity.
  unfold demote; cbn [photos_tree photo_gps_data]. f_equal.
  - rewrite (sweep_update_first hit _ f _ Hspare Hf), sweep_idemp.
    by apply update_first_twice.
  - apply map_eq. intros k.
    rewrite !snap_coords_lookup, !foldl_restore_lookup, !snap_coords_lookup.
    rewrite !foldl_restore_lookup.
    destruct (decide (original_filename = k)) as [<-|Hne].
    + rewrite decide_False.
      2:{ intros Hin. by apply displaced_after_update in Hin as [? _]. }
      destruct (decide (original_filename ∈ _)) as [_|_];
        by destruct (photo_gps_data st !! original_filename).
    + destruct (decide (k ∈ v_original <$> filter _ (update_first _ _ _)))
        as [Hin|_]; [|reflexivity].
      apply displaced_after_update in Hin as [_ Hin]; [|done..].
      apply displaced_again in Hin.
      rewrite decide_True by done.
      destruct (photo_gps_data st !! k); simpl; [|reflexivity].
      by rewrite restore_entry_idemp.
Qed.

End NamingTheorems.

(** C3 on the collision scenario: [P1] holds ["BM1-2.jpg"] and sits on the
    point; assigning [P2] puts [P1] back at [(10110, 10205)]. *)
Lemma demotion_restores_original_position_witness :
  let r := {| v_original := "P1.jpg"; v_new := "BM1-2.jpg"; v_datetime := "";
              v_landscape := close_up; v_x := "10110.000"; v_y := "10205.000";
              v_matching := "BM1"; v_distance := "11.2m" |} in
  r ∈ photos_tree Scenario.p1_incumbent
  /\ photo_gps_data Scenario.p1_incumbent !! "P1.jpg"
     = Some (mkGps Dec3.num (Some (Dec3.of_Z 10100)) (Some (Dec3.of_Z 10200))
               (Some (Dec3.of_Z 10110)) (Some (Dec3.of_Z 10205)))
  /\ photo_gps_data
       (snd (create_filename Scenario.cfg "BM1" "P2.jpg" close_up
               (Some Scenario.BM1) Scenario.p1_incumbent)) !! "P1.jpg"
     = Some (mkGps Dec3.num (Some (Dec3.of_Z 10110)) (Some (Dec3.of_Z 10205))
               (Some (Dec3.of_Z 10110)) (Some (Dec3.of_Z 10205))).
Proof.
  intros r.
  assert (r ∈ photos_tree Scenario.p1_incumbent) as Hr
    by (vm_compute; apply list_elem_of_here).
  split; [exact Hr|]. split; [reflexivity|].
  refine (proj1 (@demotion_restores_original_position Dec3.num Scenario.cfg
            "BM1" "P2.jpg" close_up (Some Scenario.BM1) Scenario.p1_incumbent
            r _ (Dec3.of_Z 10110) (Dec3.of_Z 10205) Hr _ _ _ _));
    reflexivity.
Defined.

(** C1, on the collision scenario of the specification: [P1] holds
    ["BM1-2.jpg"]; assigning [P2] to the same point and category leaves [P1]
    without any new file name (and without matching point and distance),
    not with ["BM1_3.jpg"]. *)
Theorem demotion_blanks_the_incumbent :
  photos_tree Scenario.p1_incumbent !! 0%nat
  = Some {| v_original := "P1.jpg"; v_new := "BM1-2.jpg"; v_datetime := "";
            v_landscape := close_up; v_x := "10110.000"; v_y := "10205.000";
            v_matching := "BM1"; v_distance := "11.2m" |}
  /\ create_filename Scenario.cfg "BM1" "P2.jpg" close_up (Some Scenario.BM1)
       Scenario.p1_incumbent
     = ("BM1-2.jpg",
        snd (create_filename Scenario.cfg "BM1" "P2.jpg" close_up
               (Some Scenario.BM1) Scenario.p1_incumbent))
  /\ photos_tree
       (confirm_landscape Scenario.cfg "P2.jpg" Scenario.BM1 (Dec3.Fin 1414)
          close_up Scenario.p1_incumbent)
     = [ {| v_original := "P1.jpg"; v_new := ""; v_datetime := "";
            v_landscape := close_up; v_x := "10110.000"; v_y := "10205.000";
            v_matching := ""; v_distance := "" |};
         {| v_original := "P2.jpg"; v_new := "BM1-2.jpg"; v_datetime := "";
            v_landscape := close_up; v_x := "10101.000"; v_y := "10201.000";
            v_matching := "BM1"; v_distance := "1.4m" |};
         {| v_original := "P3.png"; v_new := ""; v_datetime := "";
            v_landscape := unknown; v_x := "10099.000"; v_y := "10199.000";
            v_matching := ""; v_distance := "" |} ].
Proof. repeat split; vm_compute; reflexivity. Qed.

(** ** The parser *)

Section ParserFacts.
Context {N : PyNum}.

Lemma startswith_A02_not_A01 s :
  PyStr.startswith s "A02" = true -> PyStr.startswith s "A01" = false.
Proof.
  unfold PyStr.startswith.
  intros H02. destruct (String.prefix "A01" s) eqn:H01; [|reflexivity].
  apply String.prefix_correct in H02, H01.
  cbn [String.length] in H02, H01. rewrite H02 in H01. discriminate.
Qed.

Lemma py_index_nat (lines : list string) (k : nat) :
  (k < length lines)%nat -> py_index lines (Z.of_nat k) = lines !! k.
Proof.
  intros Hk. unfold py_index, len_lines.
  replace (0 <=? Z.of_nat k) with true by (symmetry; apply Z.leb_le; lia).
  replace (Z.of_nat k <? Z.of_nat (length lines)) with true
    by (symmetry; apply Z.ltb_lt; lia).
  simpl. by rewrite Nat2Z.id.
Qed.

(** The [for j in range(point_count)] loop reads the lines that exist among
    the next [count] ones, in order, when none of them stops the record. *)
Lemma read_coords_spec (lines : list string) (i : Z) :
  forall (count k : nat) (acc : list (float * float)),
    Forall a02_line_ok (take count (drop k lines)) ->
    read_coords lines i count (Z.of_nat k - i - 1) acc
    = Some (acc ++ omap a02_coordinate (take count (drop k lines))).
Proof.
  induction count as [|count IH]; intros k acc Hok; cbn [read_coords].
  - by rewrite take_0, app_nil_r.
  - replace (i + 1 + (Z.of_nat k - i - 1)) with (Z.of_nat k) by lia.
    replace (Z.of_nat k - i - 1 + 1) with (Z.of_nat (S k) - i - 1) by lia.
    unfold len_lines.
    destruct (Z.ltb_spec (Z.of_nat k) (Z.of_nat (length lines))) as [Hlt|Hge].
    + rewrite py_index_nat by lia.
      destruct (lines !! k) as [l|] eqn:Hl.
      2:{ apply lookup_ge_None in Hl. lia. }
      rewrite (drop_S _ _ _ Hl) in Hok |- *.
      rewrite firstn_cons in Hok |- *.
      apply Forall_cons in Hok as [Hl_ok Hok].
      specialize (IH (S k)).
      cbn [omap list_omap].
      unfold a02_line_ok, a02_coordinate in Hl_ok |- *.
      destruct (2 <=? length (PyStr.split "," (PyStr.strip l)))%nat eqn:Hlen.
      * destruct Hl_ok as [Hshort|[c Hc]].
        { apply Nat.leb_le in Hlen. lia. }
        destruct (float_of_str (PyStr.strip (field (PyStr.split "," (PyStr.strip l)) 0)));
          [|discriminate].
        destruct (float_of_str (PyStr.strip (field (PyStr.split "," (PyStr.strip l)) 1)));
          [|discriminate].
        rewrite IH by done. by rewrite <- app_assoc.
      * by rewrite IH.
    + rewrite drop_ge in Hok |- * by lia.
      rewrite take_nil in Hok |- *.
      specialize (IH (S k) acc). rewrite drop_ge, take_nil in IH by lia.
      apply IH. constructor.
Qed.

(** The loop stops with [ValueError] at the first following line that has
    two fields or more and not two numbers in front. *)
Lemma read_coords_fails (lines : list string) (i : Z) :
  forall (count k : nat) (acc : list (float * float)),
    Exists (fun l => ~ a02_line_ok l) (take count (drop k lines)) ->
    read_coords lines i count (Z.of_nat k - i - 1) acc = None.
Proof.
  induction count as [|count IH]; intros k acc Hbad; cbn [read_coords].
  - rewrite take_0 in Hbad. by apply Exists_nil in Hbad.
  - replace (i + 1 + (Z.of_nat k - i - 1)) with (Z.of_nat k) by lia.
    replace (Z.of_nat k - i - 1 + 1) with (Z.of_nat (S k) - i - 1) by lia.
    unfold len_lines.
    destruct (Z.ltb_spec (Z.of_nat k) (Z.of_nat (length lines))) as [Hlt|Hge].
    + rewrite py_index_nat by lia.
      destruct (lines !! k) as [l|] eqn:Hl.
      2:{ apply lookup_ge_None in Hl. lia. }
      rewrite (drop_S _ _ _ Hl), firstn_cons in Hbad.
      apply Exists_cons in Hbad.
      specialize (IH (S k)).
      unfold a02_line_ok, a02_coordinate in Hbad.
      destruct (2 <=? length (PyStr.split "," (PyStr.strip l)))%nat eqn:Hlen.
      * destruct (float_of_str (PyStr.strip (field (PyStr.split "," (PyStr.strip l)) 0)));
          [|reflexivity].
        destruct (float_of_str (PyStr.strip (field (PyStr.split "," (PyStr.strip l)) 1)));
          [|reflexivity].
        destruct Hbad as [Hhead|Htail]; [|by apply IH].
        exfalso. apply Hhead. right. by eexists.
      * destruct Hbad as [Hhead|Htail]; [|by apply IH].
        exfalso. apply Hhead. left. apply Nat.leb_gt in Hlen. lia.
    + rewrite drop_ge, take_nil in Hbad by lia. by apply Exists_nil in Hbad.
Qed.

End ParserFacts.

Section ParserTheorems.
Context {N : PyNum}.

(** C9, amended.  At an [A02] record that declares [point_count >= 0]:
    when each of the [point_count] following lines that exist has fewer
    than two fields or two numbers in front, the turn of the loop leaves
    the index behind exactly [point_count] following lines whatever their
    tags, and the parcel gets, in order, one pair per line with at least two
    fields: second field as [x], first field as [y], stored as [(x, y)];
    without any pair no parcel is stored.  When one of these lines has two
    fields or more and not two numbers in front, the record is dropped and
    the turn moves to the next line only. *)
Theorem a02_reads_declared_lines
    (lines : list string) (st : ParseState) (k : nat) (l : string)
    (point_count : Z) :
  ps_i st = Z.of_nat k ->
  lines !! k = Some l ->
  PyStr.startswith (PyStr.strip l) "A02" = true ->
  (4 <= length (PyStr.split ","%char (PyStr.strip l)))%nat ->
  int_of_str (PyStr.strip (field (PyStr.split ","%char (PyStr.strip l)) 3))
    = Some point_count ->
  0 <= point_count ->
  let following := take (Z.to_nat point_count) (drop (S k) lines) in
  let coords := omap a02_coordinate following in
  let name := PyStr.strip (field (PyStr.split ","%char (PyStr.strip l)) 2) in
  (Forall a02_line_ok following ->
   parse_turn lines st
   = Next {| ps_i := Z.of_nat k + point_count + 1;
             ps_points := ps_points st;
             ps_parcels :=
               match coords with
               | [] => ps_parcels st
               | _ => ps_parcels st ++ [mkLandParcel N name None coords]
               end |}
   /\ consumes_declared_lines lines st point_count)
  /\ (Exists (fun l' => ~ a02_line_ok l') following ->
      parse_turn lines st
      = Next {| ps_i := Z.of_nat k + 1; ps_points := ps_points st;
                ps_parcels := ps_parcels st |}).
Proof.
  intros Hi Hl Htag Hlen Hcount Hnonneg following coords name.
  assert (k < length lines)%nat as Hk by (by apply lookup_lt_Some in Hl).
  assert (parse_turn lines st
          = match parse_a02 lines (Z.of_nat k)
                    (PyStr.split ","%char (PyStr.strip l)) (ps_parcels st) with
            | Some (parcels, point_count) =>
                Next (mkParseState N (Z.of_nat k + point_count + 1)
                        (ps_points st) parcels)
            | None =>
                Next (mkParseState N (Z.of_nat k + 1) (ps_points st)
                        (ps_parcels st))
            end) as Hbranch.
  { unfold parse_turn. rewrite Hi.
    replace (Z.of_nat k <? len_lines lines) with true
      by (symmetry; apply Z.ltb_lt; unfold len_lines; lia).
    cbn [negb]. rewrite py_index_nat, Hl by done.
    rewrite (startswith_A02_not_A01 _ Htag), Htag.
    replace (4 <=? length (PyStr.split "," (PyStr.strip l)))%nat with true
      by (symmetry; by apply Nat.leb_le).
    reflexivity. }
  split.
  - intros Hok.
    assert (parse_turn lines st
            = Next {| ps_i := Z.of_nat k + point_count + 1;
                      ps_points := ps_points st;
                      ps_parcels :=
                        match coords with
                        | [] => ps_parcels st
                        | _ => ps_parcels st ++ [mkLandParcel N name None coords]
                        end |}) as Hturn.
    { rewrite Hbranch. unfold parse_a02. rewrite Hcount.
      pose proof (read_coords_spec lines (Z.of_nat k) (Z.to_nat point_count)
                    (S k) [] Hok) as Hread.
      replace (Z.of_nat (S k) - Z.of_nat k - 1) with 0 in Hread by lia.
      rewrite Hread. cbn [app]. fold following. fold coords.
      by destruct coords. }
    split; [exact Hturn|].
    eexists. split; [exact Hturn|]. simpl. by rewrite Hi.
  - intros Hbad. rewrite Hbranch. unfold parse_a02. rewrite Hcount.
    pose proof (read_coords_fails lines (Z.of_nat k) (Z.to_nat point_count)
                  (S k) [] Hbad) as Hread.
    replace (Z.of_nat (S k) - Z.of_nat k - 1) with 0 in Hread by lia.
    by rewrite Hread.
Qed.

(** C4, on a one-line file: the [A01] record with an empty [x] field takes
    the [continue] of the empty-coordinate test, which skips [i += 1]; the
    loop is at the same line after every number of turns and
    [load_sim_points] never returns. *)
Theorem empty_coordinate_never_returns (fuel : nat) :
  load_sim_points ["A01,1,P1,,200.0"] fuel = None.
Proof.
  unfold load_sim_points.
  induction fuel as [|fuel IH]; [reflexivity|].
  cbn [parse_loop].
  change (parse_turn ["A01,1,P1,,200.0"] (mkParseState N 0 [] []))
    with (@Next ParseState (list Point * list LandParcel) (mkParseState N 0 [] [])).
  exact IH.
Qed.

End ParserTheorems.

(** A legacy parcel record that declares [-1] lines leaves the index where
    it is ([i += point_count] and then [i += 1]): the loop does not end
    either. *)
Lemma negative_point_count_never_returns (fuel : nat) :
  @load_sim_points Dec3.num ["A02,1,lot,-1"] fuel = None.
Proof.
  unfold load_sim_points.
  induction fuel as [|fuel IH]; [reflexivity|].
  cbn [parse_loop].
  change (parse_turn ["A02,1,lot,-1"] (mkParseState Dec3.num 0 [] []))
    with (@Next (@ParseState Dec3.num)
            (list (@Point Dec3.num) * list (@LandParcel Dec3.num))
            (mkParseState Dec3.num 0 [] [])).
  exact IH.
Qed.

(** A legacy parcel record that declares [-5] lines moves the index before
    the first line by more than the length of the file: [lines[i]] raises
    [IndexError] outside any [try], and the whole load fails. *)
Lemma negative_point_count_raises :
  @load_sim_points Dec3.num ["A02,1,lot,-5"] 2 = Some Raised.
Proof. reflexivity. Qed.

(** A record with a coordinate that is not a number takes the [except]
    branch: it is skipped and the next line is read. *)
Lemma unparsable_coordinate_is_skipped :
  load_sim_points ["A01,1,P1,abc,200.0"; "A01,2,P2,1.0,2.0"] 3
  = Some (Done ([mkPoint Dec3.num "2" "P2" (Dec3.Fin 1000) (Dec3.Fin 2000)
                   (Dec3.Fin 0)], [])).
Proof. reflexivity. Qed.

(** C7 as stated fails for [load_sim_points] of the newer program, which
    has a single encoding and no test on the number of points: a file
    without point records is read to its end and accepted with no point,
    where the specification has the parser never succeed with zero
    points. *)
Lemma file_without_records_is_accepted :
  @load_sim_points Dec3.num ["Z00,header"; ""] 3 = Some (Done ([], [])).
Proof. reflexivity. Qed.

(** C9 on a record followed by its two coordinate lines: the pairs are
    stored with the fields swapped and the next record is read after
    them. *)
Lemma a02_reads_declared_lines_witness :
  let lines := ["A02,1,lot,2"; "10.5,20.25"; "30.0,40.0"; "A01,7,P7,1.0,2.0"] in
  parse_turn lines (mkParseState Dec3.num 0 [] [])
  = Next {| ps_i := 3; ps_points := [];
            ps_parcels :=
              [mkLandParcel Dec3.num "lot" None
                 [(Dec3.Fin 20250, Dec3.Fin 10500);
                  (Dec3.Fin 40000, Dec3.Fin 30000)]] |}
  /\ consumes_declared_lines lines (mkParseState Dec3.num 0 [] []) 2.
Proof.
  intros lines.
  refine (proj1 (@a02_reads_declared_lines Dec3.num lines
                   (mkParseState Dec3.num 0 [] []) 0%nat "A02,1,lot,2" 2
                   eq_refl eq_refl eq_refl _ eq_refl _) _).
  - vm_compute. lia.
  - lia.
  - change (Forall (@a02_line_ok Dec3.num) ["10.5,20.25"; "30.0,40.0"]).
    repeat (apply Forall_cons_2; [right; eexists; reflexivity|]).
    apply Forall_nil_2.
Defined.

(** C9 as stated fails when a following line carries a tag and more
    fields: the record declares one line, the [A01] line after it is not a
    number pair, the record is dropped, the index moves by one only, and the
    line is then read as the point record it is. *)
Lemma a02_tagged_line_not_consumed :
  let lines := ["A02,1,lot,1"; "A01,7,P7,100.5,200.5"] in
  ~ consumes_declared_lines lines (mkParseState Dec3.num 0 [] []) 1
  /\ load_sim_points lines 3
     = Some (Done ([mkPoint Dec3.num "7" "P7" (Dec3.Fin 100500)
                      (Dec3.Fin 200500) (Dec3.Fin 0)], [])).
Proof.
  intros lines. split; [|reflexivity].
  intros (st' & Hturn & Hi).
  assert (parse_turn lines (mkParseState Dec3.num 0 [] [])
          = Next (mkParseState Dec3.num 1 [] [])) as Heq
    by (reflexivity).
  rewrite Heq in Hturn. injection Hturn as <-. simpl in Hi. lia.
Qed.

(** ** The order of the decimal instance *)

Module Dec3Order.
Import Dec3.

Lemma ltb_irrefl a : ltb a a = false.
Proof. destruct a as [m|[]]; simpl; [apply Z.ltb_irrefl|reflexivity..]. Qed.

Lemma ltb_trans a b c : ltb a b = true -> ltb b c = true -> ltb a c = true.
Proof.
  destruct a as [x|[]], b as [y|[]], c as [z|[]]; simpl;
    try discriminate; try reflexivity.
  rewrite !Z.ltb_lt. lia.
Qed.

Lemma ltb_cotrans a b c : ltb a b = true -> ltb a c = true \/ ltb c b = true.
Proof.
  destruct a as [x|[]], b as [y|[]], c as [z|[]]; simpl;
    try discriminate; auto.
  rewrite !Z.ltb_lt. lia.
Qed.

Lemma ltb_of_Z a b :
  Z.abs a <= 2 ^ 53 -> Z.abs b <= 2 ^ 53 -> ltb (of_Z a) (of_Z b) = (a <? b).
Proof.
  intros _ _.
  unfold of_Z; simpl.
  destruct (Z.ltb_spec a b), (Z.ltb_spec (1000 * a) (1000 * b)); lia || reflexivity.
Qed.

Lemma abs_of_Z a : abs (of_Z a) = of_Z (Z.abs a).
Proof. unfold of_Z, abs. f_equal. rewrite Z.abs_mul. reflexivity. Qed.

#[export] Instance order : PyNumOrder num.
Proof.
  split.
  - exact ltb_irrefl.
  - exact ltb_trans.
  - exact ltb_cotrans.
  - reflexivity.
  - exact ltb_of_Z.
  - exact abs_of_Z.
Qed.

End Dec3Order.

(** ** The classifier *)

Section ClassifierTheorems.
Context {N : PyNum}.

Lemma detect_refines_reference (p : Point) (ps : list Point) :
  frame_of (detect_coordinate_system_type (p :: ps))
  = classify_reference (p :: ps).
Proof.
  unfold detect_coordinate_system_type, classify_reference, all_within.
  destruct (extrema p ps) as [[[x_min x_max] y_min] y_max].
  destruct (flt (fabs x_max) (float_of_Z 5000)),
           (flt (fabs x_min) (float_of_Z 5000)),
           (flt (fabs y_max) (float_of_Z 5000)),
           (flt (fabs y_min) (float_of_Z 5000)); simpl; try reflexivity;
    destruct (flt (fabs x_min) (float_of_Z 300000)),
             (flt (fabs x_max) (float_of_Z 300000)),
             (flt (fabs y_min) (float_of_Z 300000)),
             (flt (fabs y_max) (float_of_Z 300000)); reflexivity.
Qed.

(** C5, amended.  On every non-empty point set the classifier computes the
    reference definition over the extrema (local below 5000, else national
    plane below 300000, else local); extrema of exactly 4999 give the local
    frame and extrema of exactly 5000 the national-plane branch; on the
    empty point set it returns [False], the result of the national-plane
    branch, and no zone is detected, so that the configured zone is kept
    and the operator is asked to check it. *)
Theorem classifier_refines_reference (O : PyNumOrder N) :
  (forall sim_points, sim_points <> [] ->
     frame_of (detect_coordinate_system_type sim_points)
     = classify_reference sim_points)
  /\ (forall p ps,
        extrema p ps = (float_of_Z 4999, float_of_Z 4999,
                        float_of_Z 4999, float_of_Z 4999) ->
        frame_of (detect_coordinate_system_type (p :: ps)) = LOCAL)
  /\ (forall p ps,
        extrema p ps = (float_of_Z 5000, float_of_Z 5000,
                        float_of_Z 5000, float_of_Z 5000) ->
        frame_of (detect_coordinate_system_type (p :: ps)) = NATIONAL_PLANE)
  /\ frame_of (detect_coordinate_system_type []) = NATIONAL_PLANE
  /\ resolve_coordinate_system [] = PlaneUnconfirmed.
Proof.
  split; [|split; [|split; [|split]]].
  - intros [|p ps] Hne; [done|]. apply detect_refines_reference.
  - intros p ps He. unfold detect_coordinate_system_type. rewrite He.
    rewrite !fabs_of_Z, !flt_of_Z by (cbn; lia). reflexivity.
  - intros p ps He. unfold detect_coordinate_system_type. rewrite He.
    rewrite !fabs_of_Z, !flt_of_Z by (cbn; lia). reflexivity.
  - reflexivity.
  - reflexivity.
Qed.

End ClassifierTheorems.

(** C5 on a one-point set at [(4999, -4999)]. *)
Lemma classifier_refines_reference_witness :
  let p := mkPoint Dec3.num "1" "P1" (Dec3.of_Z 4999) (Dec3.of_Z (-4999))
             (Dec3.of_Z 0) in
  [p] <> []
  /\ frame_of (detect_coordinate_system_type [p]) = classify_reference [p]
  /\ classify_reference [p] = LOCAL.
Proof.
  intros p.
  assert ([p] <> []) as Hne by discriminate.
  split; [exact Hne|]. split; [|reflexivity].
  exact (proj1 (@classifier_refines_reference Dec3.num Dec3Order.order) [p] Hne).
Defined.

(** C5 as stated fails on the empty point set: the classifier answers it
    like a national-plane set, the reference definition tells the two
    apart, so no reading of the Boolean result gives the reference
    classification. *)
Lemma classifier_empty_set_not_manual :
  ~ exists decode : bool -> Frame,
      forall sim_points : list (@Point Dec3.num),
        decode (detect_coordinate_system_type sim_points)
        = classify_reference sim_points.
Proof.
  intros [decode H].
  pose proof (H []) as H0.
  pose proof (H [mkPoint Dec3.num "1" "P1" (Dec3.of_Z 10000) (Dec3.of_Z 10000)
                   (Dec3.of_Z 0)]) as H1.
  vm_compute in H0, H1. congruence.
Qed.

(** ** The nearest-point scan *)

Section ScanFacts.
Context {N : PyNum} {O : PyNumOrder N} {A : Type}.
Variable dist : A -> float.

(** [<=] read off [<]: not below means at least. *)
Lemma not_below_trans a b c :
  flt a b = false -> flt b c = false -> flt a c = false.
Proof.
  intros Hab Hbc. destruct (flt a c) eqn:Hac; [|reflexivity].
  destruct (flt_cotrans _ _ b Hac); congruence.
Qed.

(** The scan from any starting pair: the distance kept never grows, no
    element is below it, and either the pair is the starting one and no
    element was below it, or it is the first nearest element, which is
    below the start. *)
Lemma scan_invariant (l : list A) :
  forall (b : float) (ob : option A),
    let r := foldl (keep_nearer dist) (b, ob) l in
    flt b (fst r) = false
    /\ (forall a, a ∈ l -> flt (dist a) (fst r) = false)
    /\ ((r = (b, ob) /\ forall a, a ∈ l -> flt (dist a) b = false)
        \/ exists i a, first_nearest dist l i a
                       /\ r = (dist a, Some a) /\ flt (dist a) b = true).
Proof.
  induction l as [|a l IH]; intros b ob; cbn zeta.
  - cbn [foldl fst]. split; [apply flt_irrefl|].
    split; [intros a Ha; by apply elem_of_nil in Ha|].
    left. split; [reflexivity|]. intros a Ha. by apply elem_of_nil in Ha.
  - cbn [foldl].
    change (keep_nearer dist (b, ob) a)
      with (if flt (dist a) b then (dist a, Some a) else (b, ob)).
    destruct (flt (dist a) b) eqn:Hab.
    + destruct (IH (dist a) (Some a)) as (Hmono & Hlow & Hcase).
      set (r := foldl (keep_nearer dist) (dist a, Some a) l) in *.
      split.
      { destruct (flt b (fst r)) eqn:Hbr; [|reflexivity].
        pose proof (flt_trans _ _ _ Hab Hbr). congruence. }
      split.
      { intros a' [->|Ha']%elem_of_cons; [exact Hmono|by apply Hlow]. }
      right. destruct Hcase as [[Hr Hall]|(i & a' & (Hi & Hmin & Hfirst) & Hr & Hlt)].
      * exists 0%nat, a. split; [|by split].
        split; [reflexivity|]. split.
        -- intros a' [->|Ha']%elem_of_cons; [apply flt_irrefl|by apply Hall].
        -- intros j a' Hj. lia.
      * exists (S i), a'. split; [|split; [exact Hr|by eapply flt_trans]].
        split; [exact Hi|]. split.
        -- intros a'' [->|Ha'']%elem_of_cons; [|by apply Hmin].
           rewrite Hr in Hmono. exact Hmono.
        -- intros [|j] a'' Hj Hl; [|apply (Hfirst j); [lia|exact Hl]].
           injection Hl as <-. exact Hlt.
    + destruct (IH b ob) as (Hmono & Hlow & Hcase).
      set (r := foldl (keep_nearer dist) (b, ob) l) in *.
      split; [exact Hmono|]. split.
      { intros a' [->|Ha']%elem_of_cons; [|by apply Hlow].
        by apply (not_below_trans _ b). }
      destruct Hcase as [[Hr Hall]|(i & a' & (Hi & Hmin & Hfirst) & Hr & Hlt)].
      * left. split; [exact Hr|].
        intros a' [->|Ha']%elem_of_cons; [exact Hab|by apply Hall].
      * right. exists (S i), a'. split; [|by split].
        split; [exact Hi|]. split.
        -- intros a'' [->|Ha'']%elem_of_cons; [|by apply Hmin].
           rewrite Hr in Hlow, Hmono. cbn [fst] in Hmono.
           by apply (not_below_trans _ b).
        -- intros [|j] a'' Hj Hl; [|apply (Hfirst j); [lia|exact Hl]].
           injection Hl as <-.
           destruct (flt_cotrans _ _ (dist a) Hlt); congruence.
Qed.

(** The scan from [(inf, None)] over a non-empty list of finite
    distances ends on the first nearest element. *)
Lemma scan_finds_first_nearest (l : list A) :
  l <> [] ->
  (forall a, a ∈ l -> flt (dist a) inf = true) ->
  exists i a, first_nearest dist l i a
              /\ foldl (keep_nearer dist) (inf, None) l = (dist a, Some a).
Proof.
  intros Hne Hfin.
  destruct (scan_invariant l inf None) as (_ & _ & [[_ Hall]|(i & a & ? & ? & _)]).
  - destruct l as [|a l]; [done|].
    specialize (Hall a (list_elem_of_here _ _)).
    rewrite Hfin in Hall by apply list_elem_of_here. discriminate.
  - by exists i, a.
Qed.

(** Whatever the scan keeps is an element of the list or the start. *)
Lemma scan_keeps_element (l : list A) b ob d a :
  foldl (keep_nearer dist) (b, ob) l = (d, Some a) -> ob = Some a \/ a ∈ l.
Proof.
  revert b ob. induction l as [|a0 l IH]; intros b ob; cbn [foldl].
  - intros [= _ ->]. by left.
  - change (keep_nearer dist (b, ob) a0)
      with (if flt (dist a0) b then (dist a0, Some a0) else (b, ob)).
    destruct (flt (dist a0) b); intros H; apply IH in H as [H|H].
    + injection H as ->. right. left.
    + right. by right.
    + by left.
    + right. by right.
Qed.

End ScanFacts.

(** ** The earlier program: matching and loading *)

Section LegacyTheorems.
Context {N : PyNum}.


Variable read_file : string -> option string.
Variable find_points : string -> list Legacy.Point.

(** The candidates are tried in order: a result comes from the first one
    that decodes and yields a point, and there is none only when no
    candidate does. *)
Lemma try_encodings_spec (candidates : list string) :
  match Legacy.try_encodings read_file find_points candidates with
  | Legacy.Loaded e points =>
      points <> []
      /\ (exists content, read_file e = Some content
                          /\ find_points content = points)
      /\ exists before after,
           candidates = before ++ e :: after
           /\ forall e', e' ∈ before ->
                Legacy.decoded_points read_file find_points e' = []
  | Legacy.Unparsable =>
      forall e, e ∈ candidates ->
        Legacy.decoded_points read_file find_points e = []
  end.
Proof.
  induction candidates as [|e rest IH]; cbn [Legacy.try_encodings].
  - intros e He. by apply elem_of_nil in He.
  - destruct (read_file e) as [content|] eqn:Hread.
    + destruct (find_points content) as [|p points] eqn:Hfind.
      * destruct (Legacy.try_encodings read_file find_points rest)
          as [e1 points1|].
        -- destruct IH as (Hne & Hcontent & before & after & -> & Hbefore).
           split; [exact Hne|]. split; [exact Hcontent|].
           exists (e :: before), after. split; [reflexivity|].
           intros e' [->|He']%elem_of_cons; [|by apply Hbefore].
           unfold Legacy.decoded_points. by rewrite Hread.
        -- intros e' [->|He']%elem_of_cons; [|by apply IH].
           unfold Legacy.decoded_points. by rewrite Hread.
      * split; [discriminate|]. split; [by exists content|].
        exists [], rest. split; [reflexivity|].
        intros e' He'. by apply elem_of_nil in He'.
    + destruct (Legacy.try_encodings read_file find_points rest)
        as [e1 points1|].
      * destruct IH as (Hne & Hcontent & before & after & -> & Hbefore).
        split; [exact Hne|]. split; [exact Hcontent|].
        exists (e :: before), after. split; [reflexivity|].
        intros e' [->|He']%elem_of_cons; [|by apply Hbefore].
        unfold Legacy.decoded_points. by rewrite Hread.
      * intros e' [->|He']%elem_of_cons; [|by apply IH].
        unfold Legacy.decoded_points. by rewrite Hread.
Qed.

End LegacyTheorems.

(** ** GPS auto-matching *)

Section AutoMatchTheorems.
Context {N : PyNum}.
Variable cfg : Settings.
Variable distance : float.
Variable sim_points : list Point.

Lemma nearest_point_element x y d p :
  nearest_point x y sim_points = (d, Some p) -> p ∈ sim_points.
Proof.
  intros H.
  destruct (scan_keeps_element (point_distance x y) sim_points inf None d p H)
    as [?|?]; [discriminate|done].
Qed.

(** The scan of [auto_match_by_gps] ends on the first nearest point, as
    the scan of the earlier program does. *)
Lemma nearest_point_first_nearest (O : PyNumOrder N) x y :
  sim_points <> [] ->
  (forall p, p ∈ sim_points -> flt (point_distance x y p) inf = true) ->
  exists i p, first_nearest (point_distance x y) sim_points i p
              /\ nearest_point x y sim_points = (point_distance x y p, Some p).
Proof. apply scan_finds_first_nearest. Qed.

Lemma sweep_original (hit : Row -> bool) (tree : list Row) :
  v_original <$> ((fun r => if hit r then clear_row r else r) <$> tree)
  = v_original <$> tree.
Proof.
  rewrite <- list_fmap_compose. apply list_fmap_ext. intros _ r _. simpl.
  by destruct (hit r).
Qed.


(** A visit that makes no assignment leaves the application as it is. *)
Lemma visit_without_assignment (st : App) c item_id :
  visit_assignment distance sim_points st item_id = None ->
  fst (auto_match_visit cfg distance sim_points (st, c) item_id) = st.
Proof.
  unfold visit_assignment, auto_match_visit.
  destruct (photos_tree st !! item_id) as [values|]; [|done].
  destruct (cell_truth (read_cell (v_matching values))); [done|].
  destruct (photo_gps_data st !! v_original values) as [data|]; [|done].
  destruct (g_x_coord data) as [x|]; [|done].
  destruct (g_y_coord data) as [y|]; [|done].
  destruct (nearest_point x y sim_points) as [min_distance [matched_point|]];
    [|done].
  destruct (fle min_distance distance); [discriminate|done].
Qed.

(** A visit that assigns [photo] to [q] sweeps the list with the test of
    [create_filename] for that assignment and then writes the visited
    row. *)
Lemma visit_with_assignment (st : App) c item_id photo q :
  visit_assignment distance sim_points st item_id = Some (photo, q) ->
  q ∈ sim_points
  /\ exists values values',
       photos_tree st !! item_id = Some values
       /\ v_original values = photo
       /\ cell_truth (read_cell (v_matching values)) = false
       /\ photos_tree
            (fst (auto_match_visit cfg distance sim_points (st, c) item_id))
          = <[item_id := values']>
              ((fun r => if auto_match_hit cfg q photo r then clear_row r
                         else r) <$> photos_tree st).
Proof.
  unfold visit_assignment, auto_match_visit.
  destruct (photos_tree st !! item_id) as [values|]; [|done].
  destruct (cell_truth (read_cell (v_matching values))) eqn:Hskip; [done|].
  destruct (photo_gps_data st !! v_original values) as [data|]; [|done].
  destruct (g_x_coord data) as [x|]; [|done].
  destruct (g_y_coord data) as [y|]; [|done].
  destruct (nearest_point x y sim_points) as [min_distance [matched_point|]]
    eqn:Hnear; [|done].
  destruct (fle min_distance distance); [|done].
  intros [= <- <-]. split; [by eapply nearest_point_element|].
  eexists values, _.
  split; [reflexivity|]. split; [reflexivity|]. split; [exact Hskip|].
  unfold create_filename, demote, auto_match_hit. reflexivity.
Qed.



End AutoMatchTheorems.



(** The skip test of the pass is the truth value of the matching point as
    read from the list: [P1], assigned to the point numbered ["0"] as a
    distant view, is not skipped at its own visit but matched again, and
    ends as a close view under another name. *)
Lemma auto_match_rematches_point_zero :
  let out := auto_match_visit (N := Dec3.num) Scenario.cfg (Dec3.of_Z 15)
               [Scenario.ZERO] (Scenario.p1_on_zero, mkCounts 0 0 0) 0 in
  photos_tree Scenario.p1_on_zero !! 0%nat
  = Some {| v_original := "P1.jpg"; v_new := "0-1.jpg"; v_datetime := "";
            v_landscape := distant; v_x := "10110.000"; v_y := "10205.000";
            v_matching := "0"; v_distance := "11.2m" |}
  /\ read_cell (N := Dec3.num) "0" = CInt 0
  /\ photos_tree out.1 !! 0%nat
     = Some {| v_original := "P1.jpg"; v_new := "0-2.jpg"; v_datetime := "";
               v_landscape := close_up; v_x := "10100.000";
               v_y := "10200.000"; v_matching := "0"; v_distance := "0.0m" |}
  /\ out.2 = mkCounts 1 0 0.
Proof. repeat split; reflexivity. Qed.

(** ** Names after assignments *)

Section NameInvariant.
Context {N : PyNum}.
Variable cfg : Settings.

Lemma update_first_lookup photo_name f (tree : list Row) i :
  NoDup (v_original <$> tree) ->
  update_first photo_name f tree !! i
  = (fun r => if String.eqb (v_original r) photo_name then f r else r)
      <$> tree !! i.
Proof.
  revert i. induction tree as [|r tree IH]; intros i Hnodup;
    cbn [update_first]; [reflexivity|].
  rewrite fmap_cons in Hnodup. apply NoDup_cons in Hnodup as [Hnotin Hnodup].
  destruct (String.eqb (v_original r) photo_name) eqn:Hr.
  - destruct i as [|i]; [cbn; by rewrite Hr|].
    change (tree !! i
            = (fun r => if String.eqb (v_original r) photo_name then f r else r)
                <$> tree !! i).
    destruct (tree !! i) as [r'|] eqn:Hi; [|reflexivity]. cbn.
    destruct (String.eqb (v_original r') photo_name) eqn:Hr'; [|reflexivity].
    exfalso. apply Hnotin.
    apply String.eqb_eq in Hr, Hr'. rewrite Hr, <- Hr'.
    apply list_elem_of_fmap_2. by eapply list_elem_of_lookup_2.
  - destruct i as [|i]; [cbn; by rewrite Hr|].
    by apply IH.
Qed.

Lemma dialog_identifier_effective (matched_point : Point) :
  PyStr.strip (point_name matched_point) = point_name matched_point ->
  effective_identifier cfg (dialog_identifier cfg matched_point)
    (Some matched_point)
  = dialog_identifier cfg matched_point.
Proof.
  intros Hstrip. unfold effective_identifier, dialog_identifier.
  rewrite Hstrip.
  destruct (force_point_name_for_special cfg); [|reflexivity].
  by destruct (is_special_name (point_name matched_point)).
Qed.

Lemma dialog_landscape_effective landscape :
  landscape = distant \/ landscape = close_up ->
  effective_landscape landscape = landscape.
Proof. intros [->| ->]; reflexivity. Qed.

End NameInvariant.

(** C2, on two runs from the freshly loaded list.  First,
    [auto_match_by_gps] with a reference point as control point: the rows
    get the point number as matching point while [create_filename] looks
    for rows matched to the point name, so [P1] and [P2] both hold the base
    name ["基準点A-2.jpg"] of the same identifier and category.  Second, the
    collision scenario through the dialog: after [P1] and then [P2] are
    assigned to [BM1] as close views, [P2] holds the base name and [P1],
    which shared the identifier, holds no name at all, hence no numbered
    name. *)
Theorem base_name_invariant_broken :
  (photos_tree Scenario.auto_matched_to_ref
   = [ {| v_original := "P1.jpg"; v_new := "基準点A-2.jpg"; v_datetime := "";
          v_landscape := close_up; v_x := "10100.000"; v_y := "10200.000";
          v_matching := "12"; v_distance := "11.2m" |};
       {| v_original := "P2.jpg"; v_new := "基準点A-2.jpg"; v_datetime := "";
          v_landscape := close_up; v_x := "10100.000"; v_y := "10200.000";
          v_matching := "12"; v_distance := "1.4m" |};
       {| v_original := "P3.png"; v_new := "基準点A-2.png"; v_datetime := "";
          v_landscape := close_up; v_x := "10100.000"; v_y := "10200.000";
          v_matching := "12"; v_distance := "1.4m" |} ]
   /\ ~ names_unique (photos_tree Scenario.auto_matched_to_ref))
  /\ assigned_from Scenario.cfg Scenario.loaded Scenario.p2_after_p1
  /\ photos_tree Scenario.p2_after_p1
     = [ {| v_original := "P1.jpg"; v_new := ""; v_datetime := "";
            v_landscape := close_up; v_x := "10110.000"; v_y := "10205.000";
            v_matching := ""; v_distance := "" |};
         {| v_original := "P2.jpg"; v_new := "BM1-2.jpg"; v_datetime := "";
            v_landscape := close_up; v_x := "10101.000"; v_y := "10201.000";
            v_matching := "BM1"; v_distance := "1.4m" |};
         {| v_original := "P3.png"; v_new := ""; v_datetime := "";
            v_landscape := unknown; v_x := "10099.000"; v_y := "10199.000";
            v_matching := ""; v_distance := "" |} ]
  /\ forall r n,
       photos_tree Scenario.p2_after_p1 !! 0%nat = Some r ->
       v_new r <> numbered_name "BM1" n ".jpg".
Proof.
  assert (photos_tree Scenario.auto_matched_to_ref
          = [ {| v_original := "P1.jpg"; v_new := "基準点A-2.jpg";
                 v_datetime := ""; v_landscape := close_up; v_x := "10100.000";
                 v_y := "10200.000"; v_matching := "12"; v_distance := "11.2m" |};
              {| v_original := "P2.jpg"; v_new := "基準点A-2.jpg";
                 v_datetime := ""; v_landscape := close_up; v_x := "10100.000";
                 v_y := "10200.000"; v_matching := "12"; v_distance := "1.4m" |};
              {| v_original := "P3.png"; v_new := "基準点A-2.png";
                 v_datetime := ""; v_landscape := close_up; v_x := "10100.000";
                 v_y := "10200.000"; v_matching := "12"; v_distance := "1.4m" |} ])
    as Htree by reflexivity.
  split; [split; [exact Htree|]|split; [|split]].
  - rewrite Htree. intros Huniq.
    specialize (Huniq 0%nat 1%nat _ _ eq_refl eq_refl eq_refl eq_refl eq_refl).
    cbn in Huniq. assert (0 = 1)%nat by (apply Huniq; discriminate).
    discriminate.
  - unfold Scenario.p2_after_p1, Scenario.p1_incumbent.
    repeat (apply assigned_step; [|reflexivity|by right]).
    apply assigned_start.
  - reflexivity.
  - intros r n Hr.
    assert (r = {| v_original := "P1.jpg"; v_new := ""; v_datetime := "";
                   v_landscape := close_up; v_x := "10110.000"; v_y := "10205.000";
                   v_matching := ""; v_distance := "" |}) as ->.
    { assert (photos_tree Scenario.p2_after_p1 !! 0%nat
              = Some {| v_original := "P1.jpg"; v_new := ""; v_datetime := "";
                        v_landscape := close_up; v_x := "10110.000";
                        v_y := "10205.000"; v_matching := "";
                        v_distance := "" |}) as H0 by reflexivity.
      rewrite H0 in Hr. by injection Hr. }
    unfold numbered_name. discriminate.
Qed.

(** ** The parser: progress, termination and provenance *)

Section ParserProgress.
Context {N : PyNum}.
Variable lines : list string.

Lemma lstrip_unfold s :
  PyStr.lstrip s
  = match PyStr.leading_space s with
    | Some r => PyStr.lstrip r
    | None => s
    end.
Proof.
  destruct s as [|a [|b [|c s]]]; cbn [PyStr.lstrip PyStr.leading_space];
    try reflexivity.
  - by destruct (PyStr.space1 a).
  - destruct (PyStr.space1 a); [reflexivity|]. by destruct (PyStr.space2 a b).
  - destruct (PyStr.space1 a); [reflexivity|].
    destruct (PyStr.space2 a b); [reflexivity|].
    by destruct (PyStr.space3 a b c).
Qed.

Lemma leading_space_length s r :
  PyStr.leading_space s = Some r -> (String.length r < String.length s)%nat.
Proof.
  destruct s as [|a [|b [|c s]]]; cbn [PyStr.leading_space]; [discriminate|..].
  - destruct (PyStr.space1 a); [|discriminate]. intros [= <-]. simpl. lia.
  - destruct (PyStr.space1 a); [intros [= <-]; simpl; lia|].
    destruct (PyStr.space2 a b); [|discriminate]. intros [= <-]. simpl. lia.
  - destruct (PyStr.space1 a); [intros [= <-]; simpl; lia|].
    destruct (PyStr.space2 a b); [intros [= <-]; simpl; lia|].
    destruct (PyStr.space3 a b c); [|discriminate]. intros [= <-]. simpl. lia.
Qed.

(** A string that starts with a white-space character still does when it
    is continued. *)
Lemma leading_space_app s r t :
  PyStr.leading_space s = Some r ->
  PyStr.leading_space (s +:+ t) = Some (r +:+ t).
Proof.
  destruct s as [|a [|b [|c s]]]; [discriminate|..].
  - change (String a EmptyString +:+ t) with (String a t).
    cbn [PyStr.leading_space].
    destruct (PyStr.space1 a); [|discriminate]. by intros [= <-].
  - change (String a (String b EmptyString) +:+ t) with (String a (String b t)).
    cbn [PyStr.leading_space].
    destruct (PyStr.space1 a); [by intros [= <-]|].
    destruct (PyStr.space2 a b); [|discriminate]. by intros [= <-].
  - change (String a (String b (String c s)) +:+ t)
      with (String a (String b (String c (s +:+ t)))).
    cbn [PyStr.leading_space].
    destruct (PyStr.space1 a); [by intros [= <-]|].
    destruct (PyStr.space2 a b); [by intros [= <-]|].
    destruct (PyStr.space3 a b c); [|discriminate]. by intros [= <-].
Qed.

(** What [lstrip] leaves does not start with a white-space character. *)
Lemma lstrip_fixed s : PyStr.leading_space (PyStr.lstrip s) = None.
Proof.
  remember (String.length s) as n eqn:Hn.
  revert s Hn. induction (lt_wf n) as [n _ IH]. intros s ->.
  rewrite lstrip_unfold.
  destruct (PyStr.leading_space s) as [r|] eqn:Hs; [|exact Hs].
  exact (IH _ (leading_space_length s r Hs) r eq_refl).
Qed.

Lemma lstrip_blank_app s t :
  PyStr.lstrip s = EmptyString -> PyStr.lstrip (s +:+ t) = PyStr.lstrip t.
Proof.
  remember (String.length s) as n eqn:Hn.
  revert s Hn. induction (lt_wf n) as [n _ IH]. intros s ->.
  rewrite (lstrip_unfold s).
  destruct (PyStr.leading_space s) as [r|] eqn:Hs.
  - intros Hr. rewrite (lstrip_unfold (s +:+ t)), (leading_space_app s r t Hs).
    exact (IH _ (leading_space_length s r Hs) r eq_refl Hr).
  - by intros ->.
Qed.

(** What [rstrip] cuts off has white-space characters only. *)
Lemma rstrip_split s :
  exists b, s = PyStr.rstrip s +:+ b /\ PyStr.lstrip b = EmptyString.
Proof.
  induction s as [|a s (b & Hs & Hb)]; [by exists EmptyString|].
  cbn [PyStr.rstrip]. unfold PyStr.blank.
  destruct (PyStr.lstrip (String a s)) as [|a' s'] eqn:Hl.
  - by exists (String a s).
  - exists b. split; [|exact Hb].
    change (String a (PyStr.rstrip s) +:+ b)
      with (String a (PyStr.rstrip s +:+ b)).
    by rewrite <- Hs.
Qed.

Lemma rstrip_idemp s : PyStr.rstrip (PyStr.rstrip s) = PyStr.rstrip s.
Proof.
  induction s as [|a s IH]; [reflexivity|].
  cbn [PyStr.rstrip].
  destruct (PyStr.blank (String a s)) eqn:Hblank; [reflexivity|].
  cbn [PyStr.rstrip]. rewrite IH.
  destruct (PyStr.blank (String a (PyStr.rstrip s))) eqn:Hblank';
    [|reflexivity].
  exfalso. destruct (rstrip_split s) as (b & Hs & Hb).
  unfold PyStr.blank in Hblank, Hblank'.
  destruct (PyStr.lstrip (String a (PyStr.rstrip s))) eqn:Hl; [|discriminate].
  pose proof (lstrip_blank_app _ b Hl) as Happ.
  change (String a (PyStr.rstrip s) +:+ b)
    with (String a (PyStr.rstrip s +:+ b)) in Happ.
  rewrite <- Hs, Hb in Happ. rewrite Happ in Hblank. discriminate.
Qed.

(** [strip] of a stripped string changes nothing. *)
Lemma strip_idemp s : PyStr.strip (PyStr.strip s) = PyStr.strip s.
Proof.
  unfold PyStr.strip.
  assert (PyStr.lstrip (PyStr.rstrip (PyStr.lstrip s))
          = PyStr.rstrip (PyStr.lstrip s)) as ->; [|apply rstrip_idemp].
  destruct (rstrip_split (PyStr.lstrip s)) as (b & Hs & _).
  rewrite lstrip_unfold.
  destruct (PyStr.leading_space (PyStr.rstrip (PyStr.lstrip s))) as [r|] eqn:Hr;
    [|reflexivity].
  pose proof (leading_space_app _ _ b Hr) as Happ.
  rewrite <- Hs, lstrip_fixed in Happ. discriminate.
Qed.

(** The loop of [parse_d00_landparcel] never moves its index backwards. *)
Lemma d00_loop_index pmap n i coords coords' i' :
  d00_loop lines pmap n i coords = Some (coords', i') -> i <= i'.
Proof.
  revert i coords. induction n as [|n IH]; intros i coords; cbn [d00_loop].
  - intros [= _ <-]. lia.
  - destruct (py_index lines i) as [l|]; [|discriminate].
    repeat match goal with
           | |- context [if ?b then _ else _] => destruct b
           | |- context [match ?o with Some _ => _ | None => _ end] => destruct o
           end;
      intros H; try (injection H as _ <-; lia); apply IH in H; lia.
Qed.

(** Every coordinate that the loop of [parse_d00_landparcel] adds is in
    the map of the points. *)
Lemma d00_loop_coords pmap n i coords coords' i' :
  d00_loop lines pmap n i coords = Some (coords', i') ->
  (length coords <= length coords')%nat
  /\ forall c, c ∈ coords' -> c ∈ coords \/ exists k, pmap !! k = Some c.
Proof.
  revert i coords. induction n as [|n IH]; intros i coords; cbn [d00_loop].
  - intros [= <- _]. split; [lia|]. by left.
  - destruct (py_index lines i) as [l|]; [|discriminate].
    destruct (String.eqb (PyStr.strip l) EmptyString); [apply IH|].
    destruct (PyStr.startswith (PyStr.strip l) "D99").
    { intros [= <- _]. split; [lia|]. by left. }
    destruct (PyStr.startswith (PyStr.strip l) "D00").
    { intros [= <- _]. split; [lia|]. by left. }
    destruct (PyStr.startswith (PyStr.strip l) "B01"); [|apply IH].
    destruct (2 <=? length (PyStr.split "," (PyStr.strip l)))%nat; [|apply IH].
    match goal with
    | |- context [match ?o with Some c => d00_loop _ _ _ _ (coords ++ [c])
                              | None => _ end] =>
        destruct o as [c0|] eqn:Hc0
    end; [|apply IH].
    intros H. apply IH in H as [Hlen Hin]. rewrite length_app in Hlen.
    split; [simpl in Hlen; lia|].
    intros c Hc. destruct (Hin c Hc) as [Hc'|?]; [|by right].
    apply elem_of_app in Hc' as [?|Hc']; [by left|].
    apply list_elem_of_singleton in Hc' as ->. right.
    destruct (pmap !! PyStr.strip (field (PyStr.split "," (PyStr.strip l)) 1))
      eqn:Hnum.
    + injection Hc0 as <-. by eexists.
    + destruct (String.eqb _ EmptyString); [discriminate|]. by eexists.
Qed.

Lemma py_index_elem i l : py_index lines i = Some l -> l ∈ lines.
Proof.
  unfold py_index. intros H.
  repeat case_match; try discriminate; by eapply list_elem_of_lookup_2.
Qed.

Lemma py_index_inside i :
  0 <= i < len_lines lines ->
  exists l, py_index lines i = Some l /\ lines !! Z.to_nat i = Some l.
Proof.
  intros Hi. unfold py_index.
  replace (0 <=? i) with true by (symmetry; apply Z.leb_le; lia).
  replace (i <? len_lines lines) with true by (symmetry; apply Z.ltb_lt; lia).
  cbn [andb]. destruct (lines !! Z.to_nat i) as [l|] eqn:Hl; [by exists l|].
  apply lookup_ge_None in Hl. unfold len_lines in Hi. lia.
Qed.

Lemma parse_a02_count i parts parcels parcels' point_count :
  parse_a02 lines i parts parcels = Some (parcels', point_count) ->
  int_of_str (PyStr.strip (field parts 3)) = Some point_count.
Proof.
  unfold parse_a02. destruct (int_of_str _) as [pc|]; [|done].
  destruct (read_coords _ _ _ _ _) as [[|c cs]|]; [| |done];
    by intros [= _ <-].
Qed.

(** A stored legacy parcel has a coordinate at least; the other parcels
    stay. *)
Lemma parse_a02_parcels i parts parcels parcels' point_count :
  parse_a02 lines i parts parcels = Some (parcels', point_count) ->
  parcels' = parcels
  \/ exists lp, parcels' = parcels ++ [lp] /\ lp_type lp = None
                /\ lp_coords lp <> [].
Proof.
  unfold parse_a02. destruct (int_of_str _) as [pc|]; [|done].
  destruct (read_coords _ _ _ _ _) as [[|c cs]|]; [| |done]; intros [= <- _].
  - by left.
  - right. eexists. by repeat split.
Qed.

(** The values of [point_coord_map] are positions of the points. *)
Lemma point_coord_map_lookup (points : list Point) k c :
  point_coord_map points !! k = Some c ->
  exists p, p ∈ points /\ c = (x_coord p, y_coord p).
Proof.
  unfold point_coord_map.
  assert (forall (pts : list Point) (m : gmap string (float * float)),
            (forall p, p ∈ pts -> p ∈ points) ->
            (forall k c, m !! k = Some c ->
                         exists p, p ∈ points /\ c = (x_coord p, y_coord p)) ->
            forall k c,
              foldl (fun m p =>
                       let m := <[point_num p := (x_coord p, y_coord p)]> m in
                       if String.eqb (point_name p) EmptyString then m
                       else <[point_name p := (x_coord p, y_coord p)]> m)
                    m pts !! k = Some c ->
              exists p, p ∈ points /\ c = (x_coord p, y_coord p)) as Hgen.
  { induction pts as [|p pts IH]; intros m Hsub Hm k' c'; cbn [foldl].
    - apply Hm.
    - apply IH.
      + intros q Hq. apply Hsub. by apply list_elem_of_further.
      + intros k'' c''.
        assert (p ∈ points) as Hp by (apply Hsub; apply list_elem_of_here).
        cbn zeta. destruct (String.eqb (point_name p) EmptyString).
        * intros [[_ <-]|[_ H]]%lookup_insert_Some; [by exists p|by eapply Hm].
        * intros [[_ <-]|[_ H]]%lookup_insert_Some; [by exists p|].
          apply lookup_insert_Some in H as [[_ <-]|[_ H]];
            [by exists p|by eapply Hm]. }
  apply Hgen; [done|]. intros k' c'. by rewrite lookup_empty.
Qed.

(** Where the loop of [parse_d00_landparcel] stops: behind the last line,
    or on a line that carries [D99] or [D00]. *)
Lemma d00_loop_stops pmap n i coords coords' i' :
  d00_loop lines pmap n i coords = Some (coords', i') ->
  i' = i + Z.of_nat n \/ at_block_end lines i'.
Proof.
  revert i coords. induction n as [|n IH]; intros i coords; cbn [d00_loop].
  - intros [= _ <-]. left. lia.
  - destruct (py_index lines i) as [l|] eqn:Hl; [|discriminate].
    destruct (String.eqb (PyStr.strip l) EmptyString).
    { intros H. apply IH in H as [->|H]; [left; lia|by right]. }
    destruct (PyStr.startswith (PyStr.strip l) "D99") eqn:H99.
    { intros [= _ <-]. right. exists l. by split; [|left]. }
    destruct (PyStr.startswith (PyStr.strip l) "D00") eqn:H00.
    { intros [= _ <-]. right. exists l. by split; [|right]. }
    repeat match goal with
           | |- context [if ?b then _ else _] => destruct b
           | |- context [match ?o with Some _ => _ | None => _ end] => destruct o
           end;
      intros H; apply IH in H as [->|H]; (left; lia) || by right.
Qed.

(** The parcel that [parse_d00_landparcel] returns and the lines it
    covers. *)
Lemma parse_d00_landparcel_some points start_index line info lines_processed :
  parse_d00_landparcel lines points start_index line
  = (Some info, lines_processed) ->
  1 <= lines_processed
  /\ (start_index < len_lines lines ->
      start_index + lines_processed = len_lines lines
      \/ at_block_end lines (start_index + lines_processed))
  /\ lp_name info = PyStr.strip (field (PyStr.split ","%char line) 2)
  /\ lp_type info = Some (PyStr.strip (field (PyStr.split ","%char line) 1))
  /\ parcel_well_formed points info.
Proof.
  unfold parse_d00_landparcel.
  destruct (length (PyStr.split "," line) <? 4)%nat; [discriminate|].
  destruct (d00_loop _ _ _ _ _) as [[coords i']|] eqn:Hloop; [|discriminate].
  destruct (3 <=? length coords)%nat eqn:Hlen; [|discriminate].
  intros [= <- <-].
  pose proof (d00_loop_index _ _ _ _ _ _ Hloop) as Hindex.
  pose proof (d00_loop_stops _ _ _ _ _ _ Hloop) as Hstop.
  pose proof (d00_loop_coords _ _ _ _ _ _ Hloop) as [_ Hcoords].
  split; [lia|]. split.
  { intros Hlt. replace (start_index + (i' - start_index)) with i' by lia.
    destruct Hstop as [->|Hstop]; [left; lia|by right]. }
  split; [reflexivity|]. split; [reflexivity|].
  unfold parcel_well_formed. cbn [lp_type lp_coords].
  split; [by apply Nat.leb_le|].
  intros c Hc. destruct (Hcoords c Hc) as [Hnil|[k Hk]].
  - by apply elem_of_nil in Hnil.
  - by eapply point_coord_map_lookup.
Qed.

Lemma parse_a01_fields parts p :
  parse_a01 parts = inr p ->
  point_num p = PyStr.strip (field parts 1)
  /\ point_name p = PyStr.strip (field parts 2)
  /\ float_of_str (PyStr.strip (field parts 3)) = Some (x_coord p)
  /\ float_of_str (PyStr.strip (field parts 4)) = Some (y_coord p).
Proof.
  unfold parse_a01.
  destruct (_ || _); [discriminate|].
  destruct (float_of_str (PyStr.strip (field parts 3))) as [x|]; [|discriminate].
  destruct (float_of_str (PyStr.strip (field parts 4))) as [y|]; [|discriminate].
  destruct (_ && _).
  - destruct (float_of_str _); [|discriminate]. by intros [= <-].
  - by intros [= <-].
Qed.

Lemma parcel_well_formed_more_points (points : list Point) p lp :
  parcel_well_formed points lp -> parcel_well_formed (points ++ [p]) lp.
Proof.
  unfold parcel_well_formed. destruct (lp_type lp); [|done].
  intros [Hlen Hin]. split; [done|].
  intros c Hc. destruct (Hin c Hc) as (q & Hq & ->).
  exists q. split; [|done]. apply elem_of_app. by left.
Qed.

(** Every turn of the loop of [load_sim_points] keeps [collected_ok]. *)
Lemma turn_collected st st' :
  collected_ok lines st -> parse_turn lines st = Next st' ->
  collected_ok lines st'.
Proof.
  intros [Hpoints Hparcels]. unfold parse_turn.
  destruct (negb (ps_i st <? len_lines lines)) eqn:Hin; [discriminate|].
  apply negb_false_iff, Z.ltb_lt in Hin.
  destruct (py_index lines (ps_i st)) as [l|] eqn:Hl; [|discriminate].
  assert (collected_ok lines
            {| ps_i := ps_i st + 1; ps_points := ps_points st;
               ps_parcels := ps_parcels st |}) as Hadvance by done.
  destruct (PyStr.startswith (PyStr.strip l) "A01") eqn:H01.
  { destruct (5 <=? length (PyStr.split "," (PyStr.strip l)))%nat eqn:H5;
      [|by intros [= <-]].
    destruct (parse_a01 _) as [[|]|p] eqn:Hp; intros [= <-]; [done..|].
    split; cbn [ps_points ps_parcels].
    - intros q [Hq|Hq]%elem_of_app; [by apply Hpoints|].
      apply list_elem_of_singleton in Hq as ->.
      exists l. split; [by eapply py_index_elem|].
      split; [done|]. split; [by apply Nat.leb_le|done].
    - intros lp Hlp. by apply parcel_well_formed_more_points, Hparcels. }
  destruct (PyStr.startswith (PyStr.strip l) "A02").
  { destruct (4 <=? length (PyStr.split "," (PyStr.strip l)))%nat;
      [|by intros [= <-]].
    destruct (parse_a02 _ _ _ _) as [[parcels pc]|] eqn:Hp;
      [|by intros [= <-]].
    intros [= <-]. split; cbn [ps_points ps_parcels]; [done|].
    apply parse_a02_parcels in Hp as [->|(lp & -> & Htype & Hcoords)]; [done|].
    intros lp' [Hlp'|Hlp']%elem_of_app; [by apply Hparcels|].
    apply list_elem_of_singleton in Hlp' as ->.
    unfold parcel_well_formed. by rewrite Htype. }
  destruct (PyStr.startswith (PyStr.strip l) "D00"); [|by intros [= <-]].
  destruct (parse_d00_landparcel _ _ _ _) as [[info|] lp] eqn:Hd;
    [|by intros [= <-]].
  intros [= <-]. split; cbn [ps_points ps_parcels]; [done|].
  intros lp' [Hlp'|Hlp']%elem_of_app; [by apply Hparcels|].
  apply list_elem_of_singleton in Hlp' as ->.
  apply parse_d00_landparcel_some in Hd. apply Hd.
Qed.

Lemma loop_collected fuel st points parcels :
  collected_ok lines st ->
  parse_loop lines fuel st = Some (Done (points, parcels)) ->
  (forall p, p ∈ points -> exists l, l ∈ lines /\ from_a01_line l p)
  /\ (forall lp, lp ∈ parcels -> parcel_well_formed points lp).
Proof.
  revert st. induction fuel as [|fuel IH]; intros st Hok; [done|].
  cbn [parse_loop]. destruct (parse_turn lines st) as [st'| r |] eqn:Hturn.
  - apply IH. by eapply turn_collected.
  - intros [= ->]. unfold parse_turn in Hturn.
    destruct (negb _).
    + injection Hturn as <- <-. exact Hok.
    + repeat case_match; discriminate.
  - discriminate.
Qed.

(** A turn on a line that neither stalls nor rewinds moves the index
    forward. *)
Lemma turn_progress st l :
  0 <= ps_i st < len_lines lines ->
  lines !! Z.to_nat (ps_i st) = Some l ->
  a01_stalls l = false -> a02_rewinds l = false ->
  exists st', parse_turn lines st = Next st' /\ ps_i st + 1 <= ps_i st'.
Proof.
  intros Hi Hl Ha01 Ha02.
  destruct (py_index_inside _ Hi) as (l' & Hidx & Hl').
  rewrite Hl in Hl'. injection Hl' as <-.
  unfold parse_turn.
  replace (ps_i st <? len_lines lines) with true
    by (symmetry; apply Z.ltb_lt; lia).
  cbn [negb]. rewrite Hidx.
  unfold a01_stalls in Ha01. unfold a02_rewinds in Ha02.
  destruct (PyStr.startswith (PyStr.strip l) "A01") eqn:H01.
  { destruct (5 <=? length (PyStr.split "," (PyStr.strip l)))%nat eqn:H5.
    - cbn [andb] in Ha01. clear Ha02. unfold parse_a01. rewrite Ha01.
      destruct (float_of_str (PyStr.strip (field _ 3)));
        [|eexists; split; [reflexivity|cbn; lia]].
      destruct (float_of_str (PyStr.strip (field _ 4)));
        [|eexists; split; [reflexivity|cbn; lia]].
      destruct (_ && _);
        [|eexists; split; [reflexivity|cbn; lia]].
      destruct (float_of_str _); eexists; (split; [reflexivity|cbn; lia]).
    - eexists; split; [reflexivity|cbn; lia]. }
  cbn [negb andb] in Ha02.
  destruct (PyStr.startswith (PyStr.strip l) "A02") eqn:H02.
  { destruct (4 <=? length (PyStr.split "," (PyStr.strip l)))%nat eqn:H4.
    - cbn [andb] in Ha02.
      destruct (parse_a02 _ _ _ _) as [[parcels pc]|] eqn:Hp.
      + apply parse_a02_count in Hp. rewrite Hp in Ha02.
        apply Z.ltb_ge in Ha02. eexists; split; [reflexivity|cbn; lia].
      + eexists; split; [reflexivity|cbn; lia].
    - eexists; split; [reflexivity|cbn; lia]. }
  destruct (PyStr.startswith (PyStr.strip l) "D00").
  - destruct (parse_d00_landparcel _ _ _ _) as [[info|] lp] eqn:Hd.
    + apply parse_d00_landparcel_some in Hd as [Hlp _].
      eexists; split; [reflexivity|cbn; lia].
    + eexists; split; [reflexivity|cbn; lia].
  - eexists; split; [reflexivity|cbn; lia].
Qed.

Lemma parse_loop_ends fuel st :
  (forall l, l ∈ lines -> a01_stalls l = false /\ a02_rewinds l = false) ->
  0 <= ps_i st ->
  (Z.to_nat (len_lines lines - ps_i st) < fuel)%nat ->
  exists r, parse_loop lines fuel st = Some (Done r).
Proof.
  intros Hlines. revert st.
  induction fuel as [|fuel IH]; intros st Hi Hfuel; [lia|].
  cbn [parse_loop].
  destruct (Z.ltb_spec (ps_i st) (len_lines lines)) as [Hlt|Hge].
  - destruct (py_index_inside (ps_i st)) as (l & _ & Hl); [lia|].
    destruct (Hlines l) as [Ha01 Ha02]; [by eapply list_elem_of_lookup_2|].
    destruct (turn_progress st l) as (st' & -> & Hnext); [lia|done..|].
    apply IH; lia.
  - unfold parse_turn.
    replace (ps_i st <? len_lines lines) with false
      by (symmetry; apply Z.ltb_ge; lia).
    cbn [negb]. by eexists.
Qed.

(** [load_sim_points] returns on every file without a line that stalls
    the loop or moves it backwards: an [A01] record of five fields or more
    with an empty [x] or [y] field, an [A02] record of four fields or more
    that declares a negative number of lines.  The loop takes one turn per
    line at most. *)
Theorem parser_returns_without_stalling_lines :
  (forall l, l ∈ lines -> a01_stalls l = false /\ a02_rewinds l = false) ->
  exists points parcels,
    load_sim_points lines (S (length lines)) = Some (Done (points, parcels)).
Proof.
  intros Hlines.
  destruct (parse_loop_ends (S (length lines)) (mkParseState N 0 [] []) Hlines)
    as [[points parcels] Hr]; [cbn; lia|cbn; unfold len_lines; lia|].
  by exists points, parcels.
Qed.

(** Once the loop of [load_sim_points] is on an [A01] record of five fields
    or more with an empty [x] or [y] field, it stays there: the function
    does not return, whatever the number of turns. *)
Theorem stalling_line_is_never_left st l fuel :
  0 <= ps_i st < len_lines lines ->
  lines !! Z.to_nat (ps_i st) = Some l ->
  a01_stalls l = true ->
  parse_loop lines fuel st = None.
Proof.
  intros Hi Hl Hstall.
  assert (parse_turn lines st = Next st) as Hturn.
  { destruct (py_index_inside _ Hi) as (l' & Hidx & Hl').
    rewrite Hl in Hl'. injection Hl' as <-.
    unfold parse_turn.
    replace (ps_i st <? len_lines lines) with true
      by (symmetry; apply Z.ltb_lt; lia).
    cbn [negb]. rewrite Hidx.
    unfold a01_stalls in Hstall.
    apply andb_true_iff in Hstall as [[H01 H5]%andb_true_iff Hempty].
    rewrite H01, H5. unfold parse_a01. by rewrite Hempty. }
  induction fuel as [|fuel IH]; [reflexivity|].
  cbn [parse_loop]. by rewrite Hturn.
Qed.

(** Every point that [load_sim_points] returns was appended for an [A01]
    line of the file, with the coordinates that [float()] reads from its
    fourth and fifth field; its number and its name are stripped fields:
    [strip] leaves them as they are. *)
Theorem parsed_points_come_from_a01_lines fuel points parcels p :
  load_sim_points lines fuel = Some (Done (points, parcels)) ->
  p ∈ points ->
  (exists l, l ∈ lines /\ from_a01_line l p)
  /\ PyStr.strip (point_num p) = point_num p
  /\ PyStr.strip (point_name p) = point_name p.
Proof.
  intros Hload Hp.
  apply loop_collected in Hload as [Hpoints _].
  2:{ split; intros ? H; by apply elem_of_nil in H. }
  destruct (Hpoints p Hp) as (l & Hl & Hfrom). split; [by exists l|].
  destruct Hfrom as (_ & _ & Hparse).
  apply parse_a01_fields in Hparse as (-> & -> & _).
  split; apply strip_idemp.
Qed.

(** Every parcel that [load_sim_points] returns is well formed: a legacy
    [A02] parcel has a coordinate at least, a [D00] parcel has three
    corners or more and each corner is the position of a returned point. *)
Theorem parsed_parcels_are_well_formed fuel points parcels lp :
  load_sim_points lines fuel = Some (Done (points, parcels)) ->
  lp ∈ parcels ->
  parcel_well_formed points lp.
Proof.
  intros Hload Hlp.
  apply loop_collected in Hload as [_ Hparcels]; [by apply Hparcels|].
  split; intros ? H; by apply elem_of_nil in H.
Qed.

(** A turn of the loop on a [D00] record either stores no parcel and moves
    to the next line, or stores one parcel, of the type and name of the
    record, and moves to the line that ended the block: a line that carries
    [D99] or the next [D00] record, which is not consumed, or the end of
    the file. *)
Theorem d00_turn_stops_at_end_of_block st l st' :
  0 <= ps_i st < len_lines lines ->
  lines !! Z.to_nat (ps_i st) = Some l ->
  PyStr.startswith (PyStr.strip l) "A01" = false ->
  PyStr.startswith (PyStr.strip l) "A02" = false ->
  PyStr.startswith (PyStr.strip l) "D00" = true ->
  parse_turn lines st = Next st' ->
  ps_points st' = ps_points st
  /\ ((ps_parcels st' = ps_parcels st /\ ps_i st' = ps_i st + 1)
      \/ (exists info,
            ps_parcels st' = ps_parcels st ++ [info]
            /\ lp_name info
               = PyStr.strip (field (PyStr.split ","%char (PyStr.strip l)) 2)
            /\ lp_type info
               = Some (PyStr.strip (field (PyStr.split ","%char (PyStr.strip l)) 1))
            /\ parcel_well_formed (ps_points st) info
            /\ ps_i st < ps_i st'
            /\ (ps_i st' = len_lines lines \/ at_block_end lines (ps_i st')))).
Proof.
  intros Hi Hl H01 H02 H00.
  destruct (py_index_inside _ Hi) as (l' & Hidx & Hl').
  rewrite Hl in Hl'. injection Hl' as <-.
  unfold parse_turn.
  replace (ps_i st <? len_lines lines) with true
    by (symmetry; apply Z.ltb_lt; lia).
  cbn [negb]. rewrite Hidx, H01, H02, H00.
  destruct (parse_d00_landparcel _ _ _ _) as [[info|] lp] eqn:Hd.
  - apply parse_d00_landparcel_some in Hd
      as (Hlp & Hstop & Hname & Htype & Hwf).
    intros [= <-]. cbn [ps_points ps_parcels ps_i]. split; [done|].
    right. exists info. repeat split; try done; [lia|]. apply Hstop. lia.
  - intros [= <-]. cbn [ps_points ps_parcels ps_i]. split; [done|]. by left.
Qed.

End ParserProgress.

(** ** The parser on the sample file *)

Lemma sample_sim_lines_loaded :
  @load_sim_points Dec3.num sample_sim_lines 15
  = Some (Done (sample_points, sample_parcels)).
Proof. reflexivity. Qed.

(** No line of the sample file stalls the loop: the load returns within
    one turn per line and one more. *)
Lemma parser_returns_without_stalling_lines_witness :
  exists points parcels,
    @load_sim_points Dec3.num sample_sim_lines 15
    = Some (Done (points, parcels)).
Proof.
  apply (@parser_returns_without_stalling_lines Dec3.num sample_sim_lines).
  intros l Hl. unfold sample_sim_lines in Hl.
  repeat (apply elem_of_cons in Hl as [->|Hl]; [split; reflexivity|]).
  by apply elem_of_nil in Hl.
Defined.

(** On the second line of this file the loop stays for a thousand turns,
    as for any other number. *)
Lemma stalling_line_is_never_left_witness :
  parse_loop (N := Dec3.num) ["Z00,survey"; "A01,1,P1,,200.0"] 1000
    (mkParseState Dec3.num 1 [] [])
  = None.
Proof.
  apply (@stalling_line_is_never_left Dec3.num _ _ "A01,1,P1,,200.0").
  - unfold len_lines. simpl. lia.
  - reflexivity.
  - reflexivity.
Defined.

(** The third point of the sample file: the fields of its line are
    stripped. *)
Lemma parsed_points_come_from_a01_lines_witness :
  let p := mkPoint Dec3.num "3" "K3" (Dec3.of_Z 10500) (Dec3.of_Z 10600)
             (Dec3.of_Z 0) in
  (exists l, l ∈ sample_sim_lines /\ from_a01_line l p)
  /\ PyStr.strip (point_num p) = point_num p
  /\ PyStr.strip (point_name p) = point_name p.
Proof.
  intros p.
  apply (@parsed_points_come_from_a01_lines Dec3.num sample_sim_lines 15
           sample_points sample_parcels p).
  - reflexivity.
  - unfold sample_points. do 2 apply list_elem_of_further.
    apply list_elem_of_here.
Defined.

(** The linked parcel of the sample file. *)
Lemma parsed_parcels_are_well_formed_witness :
  parcel_well_formed sample_points
    (mkLandParcel Dec3.num "12-3" (Some "1")
       [(Dec3.of_Z 10100, Dec3.of_Z 10200); (Dec3.of_Z 10500, Dec3.of_Z 10200);
        (Dec3.of_Z 10500, Dec3.of_Z 10600)]).
Proof.
  apply (@parsed_parcels_are_well_formed Dec3.num sample_sim_lines 15
           sample_points sample_parcels).
  - reflexivity.
  - unfold sample_parcels. apply list_elem_of_further, list_elem_of_here.
Defined.

(** The turn on the [D00] record of the sample file stores the parcel and
    moves to the [D99] line. *)
Lemma d00_turn_stops_at_end_of_block_witness :
  let st := mkParseState Dec3.num 7 sample_points [] in
  let st' := mkParseState Dec3.num 12 sample_points
               [mkLandParcel Dec3.num "12-3" (Some "1")
                  [(Dec3.of_Z 10100, Dec3.of_Z 10200);
                   (Dec3.of_Z 10500, Dec3.of_Z 10200);
                   (Dec3.of_Z 10500, Dec3.of_Z 10600)]] in
  parse_turn sample_sim_lines st = Next st'
  /\ ps_points st' = ps_points st
  /\ at_block_end sample_sim_lines (ps_i st').
Proof.
  intros st st'.
  assert (parse_turn sample_sim_lines st = Next st') as Hturn by reflexivity.
  split; [exact Hturn|].
  destruct (@d00_turn_stops_at_end_of_block Dec3.num sample_sim_lines st
              "D00,1,12-3,1" st')
    as [Hpoints [[Hsame _]|(info & _ & _ & _ & _ & _ & [Hend|Hblock])]];
    [unfold len_lines; simpl; lia|reflexivity..|exact Hturn| | |].
  - discriminate Hsame.
  - discriminate Hend.
  - by split.
Defined.

(** White space is the white space of Unicode: a coordinate field that
    holds a full-width space (U+3000) is empty after [strip], the record
    stalls the loop, and [load_sim_points] is still on it after fifty
    turns. *)
Lemma full_width_space_coordinate_stalls :
  PyStr.strip "　" = EmptyString
  /\ PyStr.strip " 　K1　 " = "K1"
  /\ a01_stalls "A01,1,P1,　,200.0" = true
  /\ @load_sim_points Dec3.num ["A01,1,P1,　,200.0"] 50 = None.
Proof. repeat split; vm_compute; reflexivity. Qed.

(** ** The zone inferred from the mean position *)

Section ZoneTheorems.
Context {N : PyNum}.

(** [detect_coordinate_system_number] answers zone 1, 2, 3, 9 or 14 only:
    every other zone has the box of a zone that comes before it in
    [system_ranges], and the first candidate is returned. *)
Theorem detected_zone_is_one_of_five (sim_points : list Point) (zone : Z) :
  detect_coordinate_system_number sim_points = Some zone ->
  zone = 1 \/ zone = 2 \/ zone = 3 \/ zone = 9 \/ zone = 14.
Proof.
  unfold detect_coordinate_system_number.
  destruct sim_points as [|p ps]; [discriminate|].
  generalize (average (x_coord <$> p :: ps)) (average (y_coord <$> p :: ps)).
  intros avg_x avg_y. unfold system_ranges.
  repeat (rewrite filter_cons;
          match goal with
          | |- context [decide ?Q] => destruct (decide Q) as [?|?]
          end;
          [intros [= <-]; first [tauto|contradiction]|]).
  rewrite filter_nil. discriminate.
Qed.

End ZoneTheorems.

(** The points of the sample file have their mean in the box of zone 1. *)
Lemma detected_zone_is_one_of_five_witness :
  detect_coordinate_system_number sample_points = Some 1
  /\ (1 = 1 \/ 1 = 2 \/ 1 = 3 \/ 1 = 9 \/ 1 = 14).
Proof.
  assert (detect_coordinate_system_number sample_points = Some 1) as Hzone
    by reflexivity.
  split; [exact Hzone|].
  exact (@detected_zone_is_one_of_five Dec3.num sample_points 1 Hzone).
Defined.

(** ** The list and the store along a session *)

Section Session.
Context {N : PyNum}.

Lemma originals_restore (gps : gmap string GpsData) k :
  originals (restore_coords gps k) = originals gps.
Proof.
  apply map_eq. intros k'. unfold originals.
  rewrite !lookup_fmap, restore_coords_lookup.
  destruct (decide (k = k')); [|done].
  destruct (gps !! k') as [g|]; [|reflexivity]. cbn.
  unfold restore_entry. by destruct g as [x y [ox|] [oy|]].
Qed.

Lemma originals_foldl names (gps : gmap string GpsData) :
  originals (foldl restore_coords gps names) = originals gps.
Proof.
  revert gps. induction names as [|n names IH]; intros gps; cbn [foldl];
    [done|].
  by rewrite IH, originals_restore.
Qed.

Lemma originals_snap (gps : gmap string GpsData) p x y :
  originals (snap_coords p x y gps) = originals gps.
Proof.
  apply map_eq. intros k. unfold originals.
  rewrite !lookup_fmap, snap_coords_lookup.
  destruct (decide (p = k)); [|done].
  by destruct (gps !! k) as [g|].
Qed.

Lemma same_frame_refl (st : App) : same_frame st st.
Proof. by split. Qed.

Lemma same_frame_trans (st1 st2 st3 : App) :
  same_frame st1 st2 -> same_frame st2 st3 -> same_frame st1 st3.
Proof. intros [H1 H2] [H3 H4]. split; congruence. Qed.

Lemma row_heads_names (tree tree' : list Row) :
  row_heads tree' = row_heads tree ->
  v_original <$> tree' = v_original <$> tree.
Proof.
  intros H.
  assert (forall t : list Row, v_original <$> t = fst <$> row_heads t) as Hfst.
  { intros t. unfold row_heads. rewrite <- list_fmap_compose.
    by apply list_fmap_ext. }
  by rewrite !Hfst, H.
Qed.

Lemma row_heads_sweep (hit : Row -> bool) (tree : list Row) :
  row_heads ((fun r => if hit r then clear_row r else r) <$> tree)
  = row_heads tree.
Proof.
  unfold row_heads. rewrite <- list_fmap_compose. apply list_fmap_ext.
  intros _ r _. cbn. by destruct (hit r).
Qed.

Lemma row_heads_insert (tree : list Row) i r r' :
  tree !! i = Some r ->
  v_original r' = v_original r -> v_datetime r' = v_datetime r ->
  row_heads (<[i := r']> tree) = row_heads tree.
Proof.
  intros Hi Ho Hd. unfold row_heads. rewrite list_fmap_insert.
  apply list_insert_id. rewrite list_lookup_fmap, Hi. cbn. congruence.
Qed.

Lemma row_heads_update_first photo_name f (tree : list Row) :
  (forall r, v_original (f r) = v_original r) ->
  (forall r, v_datetime (f r) = v_datetime r) ->
  row_heads (update_first photo_name f tree) = row_heads tree.
Proof.
  intros Ho Hd. unfold row_heads.
  induction tree as [|r tree IH]; cbn [update_first]; [reflexivity|].
  destruct (String.eqb (v_original r) photo_name); rewrite !fmap_cons.
  - by rewrite Ho, Hd.
  - by rewrite IH.
Qed.

Lemma demote_frame (hit : Row -> bool) (st : App) :
  same_frame st (demote hit st).
Proof.
  split; cbn; [apply row_heads_sweep|apply originals_foldl].
Qed.

(** *** Rows and original positions: every session *)

Lemma categories_sweep (hit : Row -> bool) (tree : list Row) :
  categories_ok tree ->
  categories_ok ((fun r => if hit r then clear_row r else r) <$> tree).
Proof.
  intros Hcat r (r0 & -> & Hr0)%list_elem_of_fmap Hm.
  destruct (hit r0); [by destruct Hm|by apply Hcat].
Qed.

Lemma elem_of_insert_row (tree : list Row) i r' r :
  r ∈ <[i := r']> tree -> r = r' \/ r ∈ tree.
Proof.
  intros [j Hj]%list_elem_of_lookup_1.
  apply list_lookup_insert_Some in Hj as [(_ & <- & _)|[_ Hj]]; [by left|].
  right. by eapply list_elem_of_lookup_2.
Qed.

Lemma categories_insert (tree : list Row) i r' :
  categories_ok tree ->
  (v_matching r' <> EmptyString ->
   v_landscape r' = distant \/ v_landscape r' = close_up) ->
  categories_ok (<[i := r']> tree).
Proof.
  intros Hcat Hr' r [->|Hr]%elem_of_insert_row; [exact Hr'|by apply Hcat].
Qed.

(** One visit of the loop of [auto_match_by_gps]. *)
Lemma visit_frame cfg distance sim_points (st : App) c item_id :
  categories_ok (photos_tree st) ->
  categories_ok
    (photos_tree (fst (auto_match_visit cfg distance sim_points (st, c) item_id)))
  /\ same_frame st
       (fst (auto_match_visit cfg distance sim_points (st, c) item_id)).
Proof.
  intros Hcat.
  assert (categories_ok (photos_tree st) /\ same_frame st st) as Hsame
    by (split; [done|apply same_frame_refl]).
  unfold auto_match_visit.
  destruct (photos_tree st !! item_id) as [values|] eqn:Hrow; [|done].
  destruct (cell_truth (read_cell (v_matching values))); [done|].
  destruct (photo_gps_data st !! v_original values) as [data|]; [|done].
  destruct (g_x_coord data) as [x|]; [|done].
  destruct (g_y_coord data) as [y|]; [|done].
  destruct (nearest_point x y sim_points) as [min_distance [p|]]; [|done].
  destruct (fle min_distance distance); [|done].
  unfold create_filename, demote.
  set (hit := collides cfg _ _ _ _).
  cbn [fst photos_tree photo_gps_data].
  split; [|split]; cbn [photos_tree photo_gps_data].
  - apply categories_insert; [by apply categories_sweep|]. by right.
  - rewrite (row_heads_insert _ _ (if hit values then clear_row values
                                   else values));
      [apply row_heads_sweep| |by destruct (hit values)..].
    by rewrite list_lookup_fmap, Hrow.
  - by rewrite originals_snap, originals_foldl.
Qed.

Lemma visits_frame cfg distance sim_points item_ids (st : App) c :
  categories_ok (photos_tree st) ->
  categories_ok
    (photos_tree
       (fst (foldl (auto_match_visit cfg distance sim_points) (st, c)
               item_ids)))
  /\ same_frame st
       (fst (foldl (auto_match_visit cfg distance sim_points) (st, c)
               item_ids)).
Proof.
  revert st c.
  induction item_ids as [|item_id item_ids IH]; intros st c Hcat; cbn [foldl].
  - split; [done|apply same_frame_refl].
  - destruct (visit_frame cfg distance sim_points st c item_id Hcat)
      as [Hcat1 Hframe1].
    destruct (auto_match_visit cfg distance sim_points (st, c) item_id)
      as [st1 c1].
    destruct (IH st1 c1 Hcat1) as [Hcat2 Hframe2].
    split; [done|]. by eapply same_frame_trans.
Qed.

Lemma auto_match_frame cfg sim_points use_arbitrary_coordinates
    use_gps_conversion distance (st : App) :
  categories_ok (photos_tree st) ->
  categories_ok
    (photos_tree
       (auto_match_by_gps cfg use_arbitrary_coordinates use_gps_conversion
          distance sim_points st))
  /\ same_frame st
       (auto_match_by_gps cfg use_arbitrary_coordinates use_gps_conversion
          distance sim_points st).
Proof.
  intros Hcat.
  assert (categories_ok (photos_tree st) /\ same_frame st st) as Hsame
    by (split; [done|apply same_frame_refl]).
  unfold auto_match_by_gps.
  destruct sim_points as [|p ps]; [done|].
  destruct distance as [d|]; [|done].
  destruct (decide _); [done|].
  destruct use_arbitrary_coordinates; [done|].
  destruct (negb use_gps_conversion); [done|].
  destruct (feq d (float_of_Z 0)); [done|].
  by apply visits_frame.
Qed.

Lemma confirm_landscape_frame cfg photo_name (p : Point) d landscape
    (st : App) :
  landscape = distant \/ landscape = close_up ->
  categories_ok (photos_tree st) ->
  categories_ok
    (photos_tree (confirm_landscape cfg photo_name p d landscape st))
  /\ same_frame st (confirm_landscape cfg photo_name p d landscape st).
Proof.
  intros Hls Hcat.
  unfold confirm_landscape, create_filename, demote.
  cbn [photos_tree photo_gps_data].
  split; [|split]; cbn [photos_tree photo_gps_data].
  - intros r Hr Hm.
    apply elem_of_update_first in Hr as [Hr|(r0 & _ & _ & ->)]; [|done].
    revert Hm. by eapply categories_sweep.
  - rewrite row_heads_update_first by done. apply row_heads_sweep.
  - by rewrite originals_snap, originals_foldl.
Qed.

Lemma on_map_release_frame cfg sim_points dragging_photo xdata ydata choice
    (st : App) :
  offered choice ->
  categories_ok (photos_tree st) ->
  categories_ok
    (photos_tree
       (on_map_release cfg dragging_photo xdata ydata choice sim_points st))
  /\ same_frame st
       (on_map_release cfg dragging_photo xdata ydata choice sim_points st).
Proof.
  intros Hchoice Hcat.
  assert (categories_ok (photos_tree st) /\ same_frame st st) as Hsame
    by (split; [done|apply same_frame_refl]).
  unfold on_map_release.
  destruct dragging_photo as [name|]; [|done].
  destruct (String.eqb name EmptyString); [done|].
  destruct (drop_target xdata ydata sim_points) as [[p d]|]; [|done].
  destruct choice as [landscape|]; [|done].
  apply confirm_landscape_frame; [|done].
  by destruct Hchoice as [?|[[= ->]|[= ->]]]; [|left|right].
Qed.

Lemma unmatch_photo_frame selection confirmed (st : App) :
  categories_ok (photos_tree st) ->
  categories_ok (photos_tree (unmatch_photo selection confirmed st))
  /\ same_frame st (unmatch_photo selection confirmed st).
Proof.
  intros Hcat.
  assert (categories_ok (photos_tree st) /\ same_frame st st) as Hsame
    by (split; [done|apply same_frame_refl]).
  unfold unmatch_photo.
  destruct selection as [photo_item|]; [|done].
  destruct (photos_tree st !! photo_item) as [values|] eqn:Hrow; [|done].
  destruct (negb (cell_truth (read_cell (v_matching values)))); [done|].
  destruct confirmed; [|done].
  split; [|split]; cbn [photos_tree photo_gps_data].
  - apply categories_insert; [done|]. intros Hm. by destruct Hm.
  - by apply (row_heads_insert _ _ values).
  - done.
Qed.

Lemma edit_photo_matching_frame cfg sim_points selection picked saved
    (st : App) :
  offered picked ->
  categories_ok (photos_tree st) ->
  categories_ok
    (photos_tree
       (edit_photo_matching cfg selection picked saved sim_points st))
  /\ same_frame st
       (edit_photo_matching cfg selection picked saved sim_points st).
Proof.
  intros Hpicked Hcat.
  assert (categories_ok (photos_tree st) /\ same_frame st st) as Hsame
    by (split; [done|apply same_frame_refl]).
  unfold edit_photo_matching.
  destruct selection as [photo_item|]; [|done].
  destruct (photos_tree st !! photo_item) as [values|] eqn:Hrow; [|done].
  destruct (cell_truth (read_cell (v_matching values))) eqn:Hmatched;
    cbn [negb]; [|done].
  destruct (negb saved); [done|].
  destruct (find_matched_point cfg (read_cell (v_matching values)) sim_points)
    as [p|]; [|done].
  assert (default (v_landscape values) picked = distant
          \/ default (v_landscape values) picked = close_up) as Hls.
  { destruct Hpicked as [->|[->| ->]]; [|by left|by right]. cbn.
    apply Hcat; [by eapply list_elem_of_lookup_2|].
    by apply cell_truth_written. }
  unfold create_filename, demote.
  set (hit := collides cfg _ _ _ _).
  split; [|split]; cbn [photos_tree photo_gps_data].
  - apply categories_insert; [by apply categories_sweep|]. done.
  - rewrite (row_heads_insert _ _ (if hit values then clear_row values
                                   else values));
      [apply row_heads_sweep| |by destruct (hit values)..].
    by rewrite list_lookup_fmap, Hrow.
  - apply originals_foldl.
Qed.

(** Every session keeps the categories of the matched rows, the file
    names and dates of the rows and the original positions. *)
Lemma reachable_frame (st0 st : App) :
  categories_ok (photos_tree st0) -> reachable st0 st ->
  categories_ok (photos_tree st) /\ same_frame st0 st.
Proof.
  intros Hcat0 Hreach.
  induction Hreach as
    [|cfg sim_points dragging xdata ydata choice st Hreach [IHcat IHframe]
        Hstrip Hchoice
     |cfg sim_points arb conv distance st Hreach [IHcat IHframe] Hstrip Hagree
     |cfg sim_points selection picked saved st Hreach [IHcat IHframe]
        Hstrip Hagree Hpicked
     |selection confirmed st Hreach [IHcat IHframe]].
  - split; [done|apply same_frame_refl].
  - destruct (on_map_release_frame cfg sim_points dragging xdata ydata
                choice st Hchoice IHcat) as [Hcat Hframe].
    split; [done|by eapply same_frame_trans].
  - destruct (auto_match_frame cfg sim_points arb conv distance st IHcat)
      as [Hcat Hframe].
    split; [done|by eapply same_frame_trans].
  - destruct (edit_photo_matching_frame cfg sim_points selection picked
                saved st Hpicked IHcat) as [Hcat Hframe].
    split; [done|by eapply same_frame_trans].
  - destruct (unmatch_photo_frame selection confirmed st IHcat)
      as [Hcat Hframe].
    split; [done|by eapply same_frame_trans].
Qed.

Lemma reachable_as_written_reachable (st0 st : App) :
  reachable_as_written st0 st -> reachable st0 st.
Proof.
  induction 1; [apply reach_start|by apply reach_drop
               |by apply reach_auto_match|by apply reach_edit
               |by apply reach_unmatch].
Qed.

(** *** Unique names: sessions whose identifiers read as written *)

Lemma reads_as_written_empty : reads_as_written EmptyString.
Proof. reflexivity. Qed.

Lemma cells_sweep (hit : Row -> bool) (tree : list Row) :
  cells_as_written tree ->
  cells_as_written ((fun r => if hit r then clear_row r else r) <$> tree).
Proof.
  intros Hcells r (r0 & -> & Hr0)%list_elem_of_fmap.
  destruct (hit r0); [apply reads_as_written_empty|by apply Hcells].
Qed.

Lemma cells_insert (tree : list Row) i r' :
  cells_as_written tree -> reads_as_written (v_matching r') ->
  cells_as_written (<[i := r']> tree).
Proof.
  intros Hcells Hr' r [->|Hr]%elem_of_insert_row; [exact Hr'|by apply Hcells].
Qed.

(** The row that gets the base name after the sweep of [create_filename]
    is the only one that holds it. *)
Lemma sweep_set_names_unique cfg (tree : list Row) i r r' id0 l base :
  NoDup (v_original <$> tree) -> names_unique tree ->
  cells_as_written tree ->
  tree !! i = Some r ->
  v_original r' = v_original r -> v_matching r' = id0 ->
  v_landscape r' = l -> v_new r' = base ->
  names_unique
    (<[i := r']>
       ((fun r0 => if collides cfg id0 (v_original r) l base r0
                   then clear_row r0 else r0) <$> tree)).
Proof.
  intros Hnodup Huniq Hcells Hi Ho Hm Hl Hn.
  set (hit := collides cfg id0 (v_original r) l base).
  assert (forall k r2 r2o,
            k <> i -> tree !! k = Some r2o ->
            (if hit r2o then clear_row r2o else r2o) = r2 ->
            v_matching r2 = id0 -> v_landscape r2 = l -> v_new r2 = base ->
            v_new r2 <> EmptyString -> False) as Hclash.
  { intros k r2 r2o Hk Hk0 Hr2 Hm2 Hl2 Hn2 Hne.
    destruct (hit r2o) eqn:Hhit; subst r2; [by apply Hne|].
    assert (v_original r2o <> v_original r) as Hother.
    { intros Heq. apply Hk.
      apply (NoDup_lookup _ _ _ (v_original r) Hnodup);
        rewrite list_lookup_fmap; [by rewrite Hk0; cbn; rewrite Heq
                                  |by rewrite Hi]. }
    apply String.eqb_neq in Hother.
    assert (cell_str (read_cell (v_matching r2o)) = id0) as Hread.
    { rewrite <- Hm2. apply Hcells. by eapply list_elem_of_lookup_2. }
    revert Hhit. unfold hit, collides, is_existing. cbn zeta.
    rewrite Hread, Hl2, Hn2, Hother, !String.eqb_refl.
    by destruct (use_landscape_suffix cfg). }
  intros j k r1 r2 Hj Hk Hm12 Hl12 Hn12 Hne.
  apply list_lookup_insert_Some in Hj, Hk.
  rewrite list_lookup_fmap in Hj, Hk.
  destruct Hj as [(<- & <- & _)|[Hji Hj]], Hk as [(Hik & <- & _)|[Hki Hk]].
  - done.
  - exfalso. destruct (tree !! k) as [r2o|] eqn:Hk0; [|discriminate].
    injection Hk as Hk.
    apply (Hclash k r2 r2o); [done|done|done|congruence..].
  - exfalso. subst k. destruct (tree !! j) as [r1o|] eqn:Hj0; [|discriminate].
    injection Hj as Hj.
    apply (Hclash j r1 r1o); [done|done|done|congruence..].
  - destruct (tree !! j) as [r1o|] eqn:Hj0; [|discriminate].
    destruct (tree !! k) as [r2o|] eqn:Hk0; [|discriminate].
    injection Hj as Hj. injection Hk as Hk.
    destruct (hit r1o); [subst r1; by destruct Hne|].
    destruct (hit r2o); [subst r2; exfalso; apply Hne; by rewrite Hn12|].
    subst r1 r2. by apply (Huniq j k r1o r2o).
Qed.

(** A row without a new name does not touch the uniqueness of the
    names. *)
Lemma blank_names_unique (tree : list Row) i r' :
  names_unique tree -> v_new r' = EmptyString ->
  names_unique (<[i := r']> tree).
Proof.
  intros Huniq Hblank j k r1 r2 Hj Hk Hm12 Hl12 Hn12 Hne.
  apply list_lookup_insert_Some in Hj, Hk.
  destruct Hj as [(_ & <- & _)|[Hji Hj]]; [by destruct Hne|].
  destruct Hk as [(_ & <- & _)|[Hki Hk]];
    [exfalso; apply Hne; by rewrite Hn12|].
  by apply (Huniq j k r1 r2).
Qed.

(** The identifier that [auto_match_by_gps] writes is the one that
    [create_filename] uses. *)
Lemma matching_identifier_effective cfg sim_points (p : Point) :
  names_stripped sim_points -> identifiers_agree cfg sim_points ->
  p ∈ sim_points ->
  effective_identifier cfg
    (if use_point_name cfg then point_name p else point_num p) (Some p)
  = (if use_point_name cfg then point_name p else point_num p).
Proof.
  intros Hstrip Hagree Hp. unfold effective_identifier.
  rewrite (Hstrip p Hp).
  destruct Hagree as [->|[->|Hnone]]; [reflexivity| |].
  - by destruct (force_point_name_for_special cfg),
                (is_special_name (point_name p)).
  - specialize (Hnone p Hp). rewrite (Hstrip p Hp) in Hnone. rewrite Hnone.
    by destruct (force_point_name_for_special cfg).
Qed.

(** The point that [save_edit] finds has the matching point of the row,
    read as a string, as its identifier or its name. *)
Lemma find_matched_point_spec cfg identifier sim_points (p : Point) :
  find_matched_point cfg identifier sim_points = Some p ->
  p ∈ sim_points
  /\ exists s, identifier = CStr s
       /\ ((if use_point_name cfg then point_name p else point_num p) = s
           \/ point_name p = s).
Proof.
  induction sim_points as [|q rest IH]; cbn [find_matched_point]; [done|].
  destruct (_ || _) eqn:Hq.
  - intros [= ->]. split; [apply list_elem_of_here|].
    apply orb_true_iff in Hq as [Hq|Hq]; apply cell_is_str in Hq;
      eexists; (split; [exact Hq|]); tauto.
  - intros H. destruct (IH H) as [Hin Hid].
    split; [by apply list_elem_of_further|done].
Qed.

(** No point is found for a matching point that reads as an integer. *)
Lemma find_matched_point_int cfg n sim_points :
  find_matched_point cfg (CInt n) sim_points = None.
Proof. induction sim_points as [|q rest IH]; [done|exact IH]. Qed.

(** A row whose matching point reads as an integer cannot be edited:
    [save_edit] finds no point for it (the error box
    "対応する測量点が見つかりません") and changes nothing. *)
Lemma edit_leaves_integer_matching_point cfg photo_item picked saved
    sim_points (st : App) values n :
  photos_tree st !! photo_item = Some values ->
  read_cell (v_matching values) = CInt n ->
  edit_photo_matching cfg (Some photo_item) picked saved sim_points st = st.
Proof.
  intros Hrow Hcell. unfold edit_photo_matching. rewrite Hrow, Hcell.
  destruct (negb (cell_truth (CInt n))); [reflexivity|].
  destruct (negb saved); [reflexivity|].
  by rewrite find_matched_point_int.
Qed.

(** The identifier of the row that [save_edit] hands to
    [create_filename] is the one that [create_filename] uses. *)
Lemma edited_identifier_effective cfg identifier sim_points (p : Point) :
  names_stripped sim_points -> identifiers_agree cfg sim_points ->
  p ∈ sim_points ->
  (if use_point_name cfg then point_name p else point_num p) = identifier
  \/ point_name p = identifier ->
  effective_identifier cfg identifier (Some p) = identifier.
Proof.
  intros Hstrip Hagree Hp Hid.
  unfold effective_identifier. rewrite (Hstrip p Hp).
  destruct Hagree as [->|[Hname|Hnone]]; [reflexivity| |].
  - rewrite Hname in Hid.
    assert (point_name p = identifier) as Hid' by tauto.
    rewrite Hid'.
    by destruct (force_point_name_for_special cfg),
                (is_special_name identifier).
  - specialize (Hnone p Hp). rewrite (Hstrip p Hp) in Hnone. rewrite Hnone.
    by destruct (force_point_name_for_special cfg).
Qed.

Lemma dialog_identifier_read_back cfg sim_points (p : Point) :
  identifiers_read_back sim_points -> p ∈ sim_points ->
  reads_as_written (dialog_identifier cfg p).
Proof.
  intros Hread Hp. destruct (Hread p Hp) as [Hnum Hname].
  unfold dialog_identifier.
  by destruct (is_special_name _), (use_point_name cfg).
Qed.

(** One visit of the loop of [auto_match_by_gps]. *)
Lemma visit_list_ok cfg distance sim_points (st : App) c item_id :
  names_stripped sim_points -> identifiers_agree cfg sim_points ->
  identifiers_read_back sim_points ->
  list_ok st ->
  list_ok (fst (auto_match_visit cfg distance sim_points (st, c) item_id)).
Proof.
  intros Hstrip Hagree Hread Hok.
  unfold auto_match_visit.
  destruct (photos_tree st !! item_id) as [values|] eqn:Hrow; [|done].
  destruct (cell_truth (read_cell (v_matching values))); [done|].
  destruct (photo_gps_data st !! v_original values) as [data|]; [|done].
  destruct (g_x_coord data) as [x|]; [|done].
  destruct (g_y_coord data) as [y|]; [|done].
  destruct (nearest_point x y sim_points) as [min_distance [p|]] eqn:Hscan;
    [|done].
  destruct (fle min_distance distance); [|done].
  apply nearest_point_element in Hscan.
  unfold create_filename.
  rewrite (matching_identifier_effective cfg sim_points p Hstrip Hagree Hscan).
  change (effective_landscape close_up) with close_up.
  assert (reads_as_written
            (if use_point_name cfg then point_name p else point_num p))
    as Hid.
  { destruct (Hread p Hscan). by destruct (use_point_name cfg). }
  set (id0 := if use_point_name cfg then point_name p else point_num p) in *.
  set (base := base_filename cfg id0 (v_original values) close_up (Some p)).
  cbn [fst]. destruct Hok as (Hnodup & Huniq & Hcells).
  split; [|split]; cbn [photos_tree photo_gps_data demote].
  - rewrite (row_heads_names (photos_tree st)); [done|].
    rewrite (row_heads_insert _ _ (if collides cfg id0 (v_original values)
                                        close_up base values
                                   then clear_row values else values));
      [apply row_heads_sweep| |by destruct (collides _ _ _ _ _ _)..].
    by rewrite list_lookup_fmap, Hrow.
  - by apply (sweep_set_names_unique cfg _ item_id values).
  - apply cells_insert; [by apply cells_sweep|exact Hid].
Qed.

Lemma visits_list_ok cfg distance sim_points item_ids (st : App) c :
  names_stripped sim_points -> identifiers_agree cfg sim_points ->
  identifiers_read_back sim_points ->
  list_ok st ->
  list_ok (fst (foldl (auto_match_visit cfg distance sim_points) (st, c)
                  item_ids)).
Proof.
  intros Hstrip Hagree Hread. revert st c.
  induction item_ids as [|item_id item_ids IH]; intros st c Hok; cbn [foldl];
    [done|].
  pose proof (visit_list_ok cfg distance sim_points st c item_id
                Hstrip Hagree Hread Hok) as Hok1.
  destruct (auto_match_visit cfg distance sim_points (st, c) item_id)
    as [st1 c1].
  by apply IH.
Qed.

Lemma auto_match_list_ok cfg sim_points use_arbitrary_coordinates
    use_gps_conversion distance (st : App) :
  names_stripped sim_points -> identifiers_agree cfg sim_points ->
  identifiers_read_back sim_points ->
  list_ok st ->
  list_ok (auto_match_by_gps cfg use_arbitrary_coordinates use_gps_conversion
             distance sim_points st).
Proof.
  intros Hstrip Hagree Hread Hok.
  unfold auto_match_by_gps.
  destruct sim_points as [|p ps]; [done|].
  destruct distance as [d|]; [|done].
  destruct (decide _); [done|].
  destruct use_arbitrary_coordinates; [done|].
  destruct (negb use_gps_conversion); [done|].
  destruct (feq d (float_of_Z 0)); [done|].
  by apply visits_list_ok.
Qed.

(** The assignment of the dialog keeps the uniqueness of the names held,
    for an identifier that reads as written. *)
Lemma confirm_landscape_list_ok cfg photo_name (p : Point) d landscape
    (st : App) :
  PyStr.strip (point_name p) = point_name p ->
  reads_as_written (dialog_identifier cfg p) ->
  landscape = distant \/ landscape = close_up ->
  list_ok st ->
  list_ok (confirm_landscape cfg photo_name p d landscape st).
Proof.
  intros Hstrip Hid Hls (Hnodup & Huniq & Hcells).
  unfold confirm_landscape, create_filename.
  rewrite (dialog_identifier_effective _ _ Hstrip),
          (dialog_landscape_effective landscape Hls).
  set (id0 := dialog_identifier cfg p) in *.
  set (base := base_filename cfg id0 photo_name landscape (Some p)).
  set (hit := collides cfg id0 photo_name landscape base).
  set (f := fun r : Row =>
              {| v_original := v_original r; v_new := base;
                 v_datetime := v_datetime r; v_landscape := landscape;
                 v_x := v_x r; v_y := v_y r; v_matching := id0;
                 v_distance := format_f 1 d +:+ "m" |}).
  unfold demote. cbn [photos_tree].
  assert (v_original <$> ((fun r => if hit r then clear_row r else r)
                            <$> photos_tree st)
          = v_original <$> photos_tree st) as Hsweep by apply sweep_original.
  split; [|split]; cbn [photos_tree].
  { rewrite update_first_fmap_original by reflexivity. by rewrite Hsweep. }
  2:{ intros r Hr.
      apply elem_of_update_first in Hr as [Hr|(r0 & _ & _ & ->)];
        [by apply (cells_sweep hit _ Hcells)|exact Hid]. }
  intros i j r1' r2' Hi Hj Hm Hl Hn Hne.
  rewrite update_first_lookup in Hi, Hj by (by rewrite Hsweep).
  rewrite list_lookup_fmap in Hi, Hj.
  destruct (photos_tree st !! i) as [r1|] eqn:Hi0; [|discriminate].
  destruct (photos_tree st !! j) as [r2|] eqn:Hj0; [|discriminate].
  cbn in Hi, Hj.
  assert (forall r, v_original (if hit r then clear_row r else r) = v_original r)
    as Horig by (intros r; by destruct (hit r)).
  rewrite Horig in Hi, Hj.
  (* a row of another photograph that holds a name was not displaced *)
  assert (forall r r', String.eqb (v_original r) photo_name = false ->
            (if hit r then clear_row r else r) = r' ->
            v_new r' <> EmptyString -> r' = r /\ hit r = false) as Hkeep.
  { intros r r' _ Hr Hnew. destruct (hit r); [|by split].
    subst r'. by destruct Hnew. }
  (* a row that holds the name just handed out would have been displaced *)
  assert (forall r, r ∈ photos_tree st ->
            String.eqb (v_original r) photo_name = false ->
            hit r = false -> v_matching r = id0 -> v_landscape r = landscape ->
            v_new r = base -> False) as Hclash.
  { intros r Hin Hr Hhit Hrm Hrl Hrn. revert Hhit.
    assert (cell_str (read_cell (v_matching r)) = id0) as Hread
      by (rewrite <- Hrm; by apply Hcells).
    unfold hit, collides, is_existing. cbn zeta.
    rewrite Hread, Hrl, Hrn, Hr, !String.eqb_refl.
    by destruct (use_landscape_suffix cfg). }
  assert (r1 ∈ photos_tree st) as Hin1 by (by eapply list_elem_of_lookup_2).
  assert (r2 ∈ photos_tree st) as Hin2 by (by eapply list_elem_of_lookup_2).
  destruct (String.eqb (v_original r1) photo_name) eqn:H1,
           (String.eqb (v_original r2) photo_name) eqn:H2.
  - apply String.eqb_eq in H1, H2.
    apply (NoDup_lookup _ _ _ photo_name Hnodup);
      rewrite list_lookup_fmap; [by rewrite Hi0; cbn; rewrite H1
                                |by rewrite Hj0; cbn; rewrite H2].
  - injection Hi as <-. injection Hj as Hj. cbn in Hm, Hl, Hn, Hne.
    destruct (Hkeep r2 r2' H2 Hj) as [-> Hhit]; [congruence|].
    exfalso. by apply (Hclash r2).
  - injection Hi as Hi. injection Hj as <-. cbn in Hm, Hl, Hn.
    destruct (Hkeep r1 r1' H1 Hi Hne) as [-> Hhit].
    exfalso. by apply (Hclash r1).
  - injection Hi as Hi. injection Hj as Hj.
    destruct (Hkeep r1 r1' H1 Hi Hne) as [-> _].
    destruct (Hkeep r2 r2' H2 Hj) as [-> _]; [congruence|].
    by apply (Huniq i j r1 r2).
Qed.

Lemma on_map_release_list_ok cfg sim_points dragging_photo xdata ydata choice
    (st : App) :
  names_stripped sim_points -> identifiers_read_back sim_points ->
  offered choice ->
  list_ok st ->
  list_ok (on_map_release cfg dragging_photo xdata ydata choice sim_points st).
Proof.
  intros Hstrip Hread Hchoice Hok.
  unfold on_map_release.
  destruct dragging_photo as [name|]; [|done].
  destruct (String.eqb name EmptyString); [done|].
  destruct (drop_target xdata ydata sim_points) as [[p d]|] eqn:Hdrop; [|done].
  destruct choice as [landscape|]; [|done].
  assert (p ∈ sim_points) as Hp.
  { unfold drop_target in Hdrop.
    destruct (on_map xdata ydata) as [[xd yd]|]; [|done].
    destruct (nearest_point yd xd sim_points) as [md [q|]] eqn:Hscan; [|done].
    destruct (flt md (float_of_Z 50)); [|done].
    injection Hdrop as -> _. by eapply nearest_point_element. }
  apply confirm_landscape_list_ok; [by apply Hstrip
                                   |by eapply dialog_identifier_read_back
                                   | |done].
  by destruct Hchoice as [?|[[= ->]|[= ->]]]; [|left|right].
Qed.

Lemma unmatch_photo_list_ok selection confirmed (st : App) :
  list_ok st -> list_ok (unmatch_photo selection confirmed st).
Proof.
  intros Hok.
  unfold unmatch_photo.
  destruct selection as [photo_item|]; [|done].
  destruct (photos_tree st !! photo_item) as [values|] eqn:Hrow; [|done].
  destruct (negb (cell_truth (read_cell (v_matching values)))); [done|].
  destruct confirmed; [|done].
  destruct Hok as (Hnodup & Huniq & Hcells).
  split; [|split]; cbn [photos_tree photo_gps_data].
  - rewrite (row_heads_names (photos_tree st)); [done|].
    by apply (row_heads_insert _ _ values).
  - by apply blank_names_unique.
  - apply cells_insert; [done|apply reads_as_written_empty].
Qed.

Lemma edit_photo_matching_list_ok cfg sim_points selection picked saved
    (st : App) :
  names_stripped sim_points -> identifiers_agree cfg sim_points ->
  offered picked ->
  categories_ok (photos_tree st) ->
  list_ok st ->
  list_ok (edit_photo_matching cfg selection picked saved sim_points st).
Proof.
  intros Hstrip Hagree Hpicked Hcat Hok.
  unfold edit_photo_matching.
  destruct selection as [photo_item|]; [|done].
  destruct (photos_tree st !! photo_item) as [values|] eqn:Hrow; [|done].
  destruct (cell_truth (read_cell (v_matching values))) eqn:Hmatched;
    cbn [negb]; [|done].
  destruct (negb saved); [done|].
  destruct (find_matched_point cfg (read_cell (v_matching values)) sim_points)
    as [p|] eqn:Hfind; [|done].
  destruct (find_matched_point_spec _ _ _ _ Hfind) as (Hp & s & Hcell & Hid).
  pose proof (read_cell_str _ _ Hcell) as ->.
  rewrite Hcell. cbn [cell_str].
  destruct Hok as (Hnodup & Huniq & Hcells).
  assert (default (v_landscape values) picked = distant
          \/ default (v_landscape values) picked = close_up) as Hls.
  { destruct Hpicked as [->|[->| ->]]; [|by left|by right]. cbn.
    apply Hcat; [by eapply list_elem_of_lookup_2|].
    by apply cell_truth_written. }
  unfold create_filename.
  rewrite (edited_identifier_effective cfg _ sim_points p Hstrip Hagree Hp Hid),
          (dialog_landscape_effective _ Hls).
  set (l := default (v_landscape values) picked) in *.
  set (base := base_filename cfg (v_matching values) (v_original values) l
                 (Some p)).
  split; [|split]; cbn [photos_tree photo_gps_data demote].
  - rewrite (row_heads_names (photos_tree st)); [done|].
    rewrite (row_heads_insert _ _ (if collides cfg (v_matching values)
                                        (v_original values) l base values
                                   then clear_row values else values));
      [apply row_heads_sweep| |by destruct (collides _ _ _ _ _ _)..].
    by rewrite list_lookup_fmap, Hrow.
  - by apply (sweep_set_names_unique cfg _ photo_item values).
  - apply cells_insert; [by apply cells_sweep|]. cbn [v_matching].
    apply Hcells. by eapply list_elem_of_lookup_2.
Qed.

(** Along a session whose identifiers read as written, the file names
    stay distinct, the new names unique and the matching points as
    written. *)
Lemma reachable_list_ok (st0 st : App) :
  categories_ok (photos_tree st0) -> list_ok st0 ->
  reachable_as_written st0 st -> list_ok st.
Proof.
  intros Hcat0 Hok0 Hreach.
  induction Hreach as
    [|cfg sim_points dragging xdata ydata choice st Hreach IHok
        Hstrip Hread Hchoice
     |cfg sim_points arb conv distance st Hreach IHok Hstrip Hagree Hread
     |cfg sim_points selection picked saved st Hreach IHok
        Hstrip Hagree Hpicked
     |selection confirmed st Hreach IHok].
  - done.
  - by apply on_map_release_list_ok.
  - by apply auto_match_list_ok.
  - apply edit_photo_matching_list_ok; [done..| |done].
    apply reachable_as_written_reachable in Hreach.
    by destruct (reachable_frame _ _ Hcat0 Hreach).
  - by apply unmatch_photo_list_ok.
Qed.

(** From a list whose file names are distinct and whose rows hold no new
    name and no matching point, every sequence of assignments of the
    dialog, automatic matchings, edits and unmatchings with identifiers
    that read as written keeps the names unique: for every identifier and
    category at most one row holds a given base name. *)
Lemma assignments_keep_names_unique (st0 st : App) :
  NoDup (v_original <$> photos_tree st0) ->
  (forall r, r ∈ photos_tree st0 ->
     v_new r = EmptyString /\ v_matching r = EmptyString) ->
  reachable_as_written st0 st ->
  names_unique (photos_tree st).
Proof.
  intros Hnodup Hfresh Hreach.
  assert (list_ok st) as (_ & Huniq & _); [|exact Huniq].
  apply (reachable_list_ok st0); [| |done].
  - intros r Hr Hm. by destruct (Hfresh r Hr) as [_ ?].
  - split; [done|]. split.
    + intros i j r1 r2 Hi _ _ _ _ Hne. exfalso. apply Hne.
      apply (Hfresh r1). by eapply list_elem_of_lookup_2.
    + intros r Hr. destruct (Hfresh r Hr) as [_ Hm].
      unfold reads_as_written. by rewrite Hm.
Qed.

End Session.

(** ** From the loaded photographs on *)

Section LoadPhotos.
Context {N : PyNum}.

Lemma load_photos_snoc (photo_files : list (string * Exif)) photo_file
    exif_data :
  load_photos (photo_files ++ [(photo_file, exif_data)])
  = {| photos_tree :=
         photos_tree (load_photos photo_files)
         ++ [inserted_values photo_file exif_data];
       photo_gps_data :=
         <[photo_file := record_original_coords (exif_entry exif_data)]>
           (photo_gps_data (load_photos photo_files)) |}.
Proof. unfold load_photos. by rewrite foldl_snoc. Qed.

Lemma load_photos_tree (photo_files : list (string * Exif)) :
  photos_tree (load_photos photo_files)
  = (fun fe => inserted_values (fst fe) (snd fe)) <$> photo_files.
Proof.
  induction photo_files as [|[f e] fs IH] using rev_ind; [reflexivity|].
  rewrite load_photos_snoc, fmap_app. cbn [photos_tree]. by rewrite IH.
Qed.

Lemma load_photos_store (photo_files : list (string * Exif)) k g :
  photo_gps_data (load_photos photo_files) !! k = Some g ->
  exists e, (k, e) ∈ photo_files
            /\ g = record_original_coords (exif_entry e).
Proof.
  induction photo_files as [|[f e] fs IH] using rev_ind.
  - unfold load_photos. cbn. by rewrite lookup_empty.
  - rewrite load_photos_snoc. cbn [photo_gps_data].
    intros [[<- <-]|[_ H]]%lookup_insert_Some.
    + exists e. split; [|done]. apply elem_of_app. right.
      by apply list_elem_of_singleton.
    + destruct (IH H) as (e' & He' & ->). exists e'. split; [|done].
      apply elem_of_app. by left.
Qed.

Lemma load_photos_list_ok (photo_files : list (string * Exif)) :
  NoDup photo_files.*1 -> list_ok (load_photos photo_files).
Proof.
  intros Hnodup. unfold list_ok. rewrite load_photos_tree. split; [|split].
  - rewrite <- list_fmap_compose.
    by replace (v_original ∘ (fun fe : string * Exif =>
                                inserted_values (fst fe) (snd fe)))
      with (@fst string (@Exif N)).
  - intros i j r1 r2 Hi _ _ _ _ Hne. exfalso. apply Hne.
    rewrite list_lookup_fmap in Hi.
    destruct (photo_files !! i) as [fe|]; [|discriminate].
    by injection Hi as <-.
  - by intros r (fe & -> & _)%list_elem_of_fmap.
Qed.

Lemma load_photos_categories (photo_files : list (string * Exif)) :
  categories_ok (photos_tree (load_photos photo_files)).
Proof.
  rewrite load_photos_tree.
  intros r (fe & -> & _)%list_elem_of_fmap Hm. by destruct Hm.
Qed.

(** [load_photos] inserts one row per file, in the order of the listing,
    without new name, matching point or distance and with the category
    不明; every entry of the store belongs to a listed file and has the
    position found in the file as its original position too, both
    coordinates or none. *)
Theorem loaded_photos_are_unmatched_at_their_position
    (photo_files : list (string * Exif)) :
  v_original <$> photos_tree (load_photos photo_files) = photo_files.*1
  /\ (forall r, r ∈ photos_tree (load_photos photo_files) ->
        v_new r = EmptyString /\ v_matching r = EmptyString
        /\ v_distance r = EmptyString /\ v_landscape r = unknown)
  /\ (forall k g, photo_gps_data (load_photos photo_files) !! k = Some g ->
        k ∈ photo_files.*1
        /\ g_original_x_coord g = g_x_coord g
        /\ g_original_y_coord g = g_y_coord g
        /\ (is_Some (g_x_coord g) <-> is_Some (g_y_coord g))
        /\ restore_entry g = g).
Proof.
  split; [|split].
  - rewrite load_photos_tree, <- list_fmap_compose.
    by apply list_fmap_ext.
  - rewrite load_photos_tree. by intros r (fe & -> & _)%list_elem_of_fmap.
  - intros k g (e & He & ->)%load_photos_store.
    split; [by apply (list_elem_of_fmap_2 fst) in He|].
    unfold record_original_coords, exif_entry, restore_entry.
    destruct (e_position e) as [[x y]|]; cbn;
      repeat split; by intros [? [=]] || by eexists.
Qed.

(** Along a session that starts with [load_photos] of files with distinct
    names, no two rows with the same matching point and category hold the
    same new file name: after any sequence of drops on the map, automatic
    matching, edits and unmatching, each step with its own settings and
    control points, as long as the names of the points are stripped, the
    steps that write an identifier themselves write the one that
    [create_filename] uses, and the numbers and names of the points are
    read from the list as they were written into it. *)
Theorem session_keeps_names_unique (photo_files : list (string * Exif))
    (st : App) :
  NoDup photo_files.*1 ->
  reachable_as_written (load_photos photo_files) st ->
  names_unique (photos_tree st).
Proof.
  intros Hnodup Hreach.
  destruct (reachable_list_ok _ _ (load_photos_categories _)
              (load_photos_list_ok _ Hnodup) Hreach) as (_ & Huniq & _).
  exact Huniq.
Qed.

(** Along such a session the rows keep their file name and date and
    their order, a matched row has one of the two categories of the
    dialogs, and the original position of every photograph in the store is
    the position that [load_photos] found in the file. *)
Theorem session_keeps_files_and_original_positions
    (photo_files : list (string * Exif)) (st : App) :
  NoDup photo_files.*1 ->
  reachable (load_photos photo_files) st ->
  row_heads (photos_tree st)
  = (fun fe => (fst fe, default EmptyString (e_datetime (snd fe))))
      <$> photo_files
  /\ (forall r, r ∈ photos_tree st -> v_matching r <> EmptyString ->
        v_landscape r = distant \/ v_landscape r = close_up)
  /\ (forall k g, photo_gps_data st !! k = Some g ->
        exists e, (k, e) ∈ photo_files
                  /\ g_original_x_coord g = fst <$> e_position e
                  /\ g_original_y_coord g = snd <$> e_position e).
Proof.
  intros Hnodup Hreach.
  destruct (reachable_frame _ _ (load_photos_categories _) Hreach)
    as [Hcat [Hheads Horig]].
  split; [|split; [exact Hcat|]].
  - rewrite Hheads, load_photos_tree. unfold row_heads.
    rewrite <- list_fmap_compose. by apply list_fmap_ext.
  - intros k g Hk.
    assert (originals (photo_gps_data st) !! k
            = Some (g_original_x_coord g, g_original_y_coord g)) as Hk'
      by (unfold originals; by rewrite lookup_fmap, Hk).
    rewrite Horig in Hk'. unfold originals in Hk'.
    rewrite lookup_fmap in Hk'.
    destruct (photo_gps_data (load_photos photo_files) !! k) as [g0|] eqn:Hg0;
      [|discriminate].
    apply load_photos_store in Hg0 as (e & He & ->).
    exists e. split; [done|]. injection Hk' as Hx Hy. rewrite <- Hx, <- Hy.
    unfold record_original_coords, exif_entry.
    by destruct (e_position e) as [[x y]|].
Qed.

(** Unmatching does not move the photograph back: after the assignment of
    the dialog, with an identifier that reads from the list as a true
    value, and the unmatching of the same row, the row is without new
    name, matching point and distance and has the category 不明, and the
    stored position of the photograph is still the position of the point,
    whatever its original position.  With an identifier that reads as
    false (the number ["0"]), unmatching is refused and changes
    nothing. *)
Theorem unmatch_leaves_photo_on_point cfg photo_item (r : Row) (p : Point)
    d landscape (st : App) g :
  NoDup (v_original <$> photos_tree st) ->
  photos_tree st !! photo_item = Some r ->
  photo_gps_data st !! v_original r = Some g ->
  let st1 := confirm_landscape cfg (v_original r) p d landscape st in
  let st' := unmatch_photo (Some photo_item) true st1 in
  (cell_truth (read_cell (dialog_identifier cfg p)) = true ->
   photos_tree st' !! photo_item
   = Some {| v_original := v_original r; v_new := "";
             v_datetime := v_datetime r; v_landscape := unknown;
             v_x := v_x r; v_y := v_y r; v_matching := "";
             v_distance := "" |}
   /\ photo_gps_data st' !! v_original r
      = Some (snap_entry (x_coord p) (y_coord p) g))
  /\ (cell_truth (read_cell (dialog_identifier cfg p)) = false ->
      st' = st1).
Proof.
  intros Hnodup Hrow Hg st1 st'. subst st' st1.
  unfold confirm_landscape, create_filename, demote.
  set (hit := collides cfg _ _ _ _).
  assert (hit r = false) as Hspare.
  { destruct (hit r) eqn:Hhit; [|done].
    by apply collides_other in Hhit. }
  unfold unmatch_photo. cbn [photos_tree photo_gps_data].
  rewrite update_first_lookup by (by rewrite sweep_original).
  rewrite list_lookup_fmap, Hrow. cbn. rewrite Hspare, String.eqb_refl.
  cbn [v_matching].
  split; intros Hid; rewrite Hid; cbn [negb]; [|reflexivity].
  cbn [photos_tree photo_gps_data v_original v_datetime v_x v_y]. split.
  - apply list_lookup_insert_eq. rewrite <- (length_fmap v_original).
    rewrite update_first_fmap_original by done.
    rewrite sweep_original, length_fmap. by eapply lookup_lt_Some.
  - rewrite snap_coords_lookup, decide_True by done.
    rewrite foldl_restore_lookup, decide_False, Hg; [done|].
    intros (r' & Hname & [Hhit _]%list_elem_of_filter)%list_elem_of_fmap.
    by apply collides_other in Hhit.
Qed.

End LoadPhotos.

(** ** A session on the decimal instance *)

Lemma session_points_stripped : names_stripped Session.sim_points.
Proof.
  intros p Hp. unfold Session.sim_points in Hp.
  repeat (apply elem_of_cons in Hp as [->|Hp]; [reflexivity|]).
  by apply elem_of_nil in Hp.
Qed.

Lemma session_identifiers_agree :
  identifiers_agree Scenario.cfg Session.sim_points.
Proof.
  right. right. intros p Hp. unfold Session.sim_points in Hp.
  repeat (apply elem_of_cons in Hp as [->|Hp]; [reflexivity|]).
  by apply elem_of_nil in Hp.
Qed.

Lemma session_reachable :
  reachable (load_photos Session.files) Session.after_unmatch.
Proof.
  pose proof session_points_stripped as Hstrip.
  pose proof session_identifiers_agree as Hagree.
  unfold Session.after_unmatch, Session.after_edit, Session.after_drop,
    Session.after_auto_match.
  apply reach_unmatch, reach_edit; [|done|done|right; by left].
  apply reach_drop; [|done|right; by left].
  apply reach_auto_match; [|done|done]. apply reach_start.
Qed.

Lemma session_identifiers_read_back :
  identifiers_read_back Session.sim_points.
Proof.
  intros p Hp. unfold Session.sim_points in Hp.
  repeat (apply elem_of_cons in Hp as [->|Hp]; [by split|]).
  by apply elem_of_nil in Hp.
Qed.

Lemma session_reachable_as_written :
  reachable_as_written (load_photos Session.files) Session.after_unmatch.
Proof.
  pose proof session_points_stripped as Hstrip.
  pose proof session_identifiers_agree as Hagree.
  pose proof session_identifiers_read_back as Hread.
  unfold Session.after_unmatch, Session.after_edit, Session.after_drop,
    Session.after_auto_match.
  apply written_unmatch, written_edit; [|done|done|right; by left].
  apply written_drop; [|done|done|right; by left].
  apply written_auto_match; [|done|done|done]. apply written_start.
Qed.

Lemma session_files_distinct : NoDup Session.files.*1.
Proof.
  change (NoDup ["P1.jpg"; "P2.jpg"; "P3.png"]).
  apply (bool_decide_unpack _). vm_compute. exact I.
Qed.

(** The session of [Session]: automatic matching, which displaces [P1] in
    favour of [P2], a drop of [P3], an edit of [P2] and the unmatching of
    [P3]. *)
Lemma session_keeps_names_unique_witness :
  names_unique (photos_tree Session.after_unmatch)
  /\ v_new <$> photos_tree Session.after_unmatch = [""; "BM1-1.jpg"; ""].
Proof.
  split; [|reflexivity].
  exact (@session_keeps_names_unique Dec3.num Session.files
           Session.after_unmatch session_files_distinct
           session_reachable_as_written).
Defined.

(** Why the identifiers have to read as written: the number ["001"] is
    read from the list as the integer [1], and [create_filename] compares
    [str(1)] with ["001"]; the row of [P1] is not found when [P2] is
    assigned to the same point and category, and both hold the name
    ["001-2.jpg"]. *)
Lemma leading_zero_identifier_shares_name :
  read_cell (N := Dec3.num) "001" = CInt 1
  /\ cell_str (read_cell (N := Dec3.num) "001") = "1"
  /\ photos_tree Scenario.p2_after_p1_on_leading
     = [ {| v_original := "P1.jpg"; v_new := "001-2.jpg"; v_datetime := "";
            v_landscape := close_up; v_x := "10110.000"; v_y := "10205.000";
            v_matching := "001"; v_distance := "11.2m" |};
         {| v_original := "P2.jpg"; v_new := "001-2.jpg"; v_datetime := "";
            v_landscape := close_up; v_x := "10101.000"; v_y := "10201.000";
            v_matching := "001"; v_distance := "1.4m" |};
         {| v_original := "P3.png"; v_new := ""; v_datetime := "";
            v_landscape := unknown; v_x := "10099.000"; v_y := "10199.000";
            v_matching := ""; v_distance := "" |} ]
  /\ ~ names_unique (photos_tree Scenario.p2_after_p1_on_leading).
Proof.
  assert (photos_tree Scenario.p2_after_p1_on_leading
          = [ {| v_original := "P1.jpg"; v_new := "001-2.jpg";
                 v_datetime := ""; v_landscape := close_up;
                 v_x := "10110.000"; v_y := "10205.000";
                 v_matching := "001"; v_distance := "11.2m" |};
              {| v_original := "P2.jpg"; v_new := "001-2.jpg";
                 v_datetime := ""; v_landscape := close_up;
                 v_x := "10101.000"; v_y := "10201.000";
                 v_matching := "001"; v_distance := "1.4m" |};
              {| v_original := "P3.png"; v_new := ""; v_datetime := "";
                 v_landscape := unknown; v_x := "10099.000";
                 v_y := "10199.000"; v_matching := "";
                 v_distance := "" |} ]) as Htree by reflexivity.
  split; [reflexivity|]. split; [reflexivity|]. split; [exact Htree|].
  rewrite Htree. intros Huniq.
  specialize (Huniq 0%nat 1%nat _ _ eq_refl eq_refl eq_refl eq_refl eq_refl).
  cbn in Huniq. assert (0 = 1)%nat by (apply Huniq; discriminate).
  discriminate.
Qed.

Lemma session_keeps_files_and_original_positions_witness :
  row_heads (photos_tree Session.after_unmatch)
  = [("P1.jpg", "2024:05:01 10:00:00"); ("P2.jpg", ""); ("P3.png", "")]
  /\ (forall r, r ∈ photos_tree Session.after_unmatch ->
        v_matching r <> EmptyString ->
        v_landscape r = distant \/ v_landscape r = close_up)
  /\ (forall k g, photo_gps_data Session.after_unmatch !! k = Some g ->
        exists e, (k, e) ∈ Session.files
                  /\ g_original_x_coord g = fst <$> e_position e
                  /\ g_original_y_coord g = snd <$> e_position e).
Proof.
  exact (@session_keeps_files_and_original_positions Dec3.num Session.files
           Session.after_unmatch session_files_distinct session_reachable).
Defined.

(** [P2] assigned to [BM1] in the dialog and unmatched again: its stored
    position stays on [BM1], its original position is kept beside. *)
Lemma unmatch_leaves_photo_on_point_witness :
  let st' := unmatch_photo (Some 1%nat) true
               (confirm_landscape Scenario.cfg "P2.jpg" Scenario.BM1
                  (Dec3.Fin 1414) close_up (load_photos Session.files)) in
  photos_tree st' !! 1%nat
  = Some {| v_original := "P2.jpg"; v_new := ""; v_datetime := "";
            v_landscape := unknown; v_x := "10101.000"; v_y := "10201.000";
            v_matching := ""; v_distance := "" |}
  /\ photo_gps_data st' !! "P2.jpg"
     = Some (mkGps Dec3.num (Some (Dec3.of_Z 10100)) (Some (Dec3.of_Z 10200))
               (Some (Dec3.of_Z 10101)) (Some (Dec3.of_Z 10201))).
Proof.
  exact (proj1
           (@unmatch_leaves_photo_on_point Dec3.num Scenario.cfg 1%nat
              {| v_original := "P2.jpg"; v_new := ""; v_datetime := "";
                 v_landscape := unknown; v_x := "10101.000";
                 v_y := "10201.000"; v_matching := ""; v_distance := "" |}
              Scenario.BM1 (Dec3.Fin 1414) close_up
              (load_photos Session.files)
              (mkGps Dec3.num (Some (Dec3.of_Z 10101))
                 (Some (Dec3.of_Z 10201)) (Some (Dec3.of_Z 10101))
                 (Some (Dec3.of_Z 10201)))
              session_files_distinct eq_refl eq_refl)
           eq_refl).
Defined.

(** [P1] assigned to the point numbered ["0"]: the matching point reads
    as the integer [0], and [unmatch_photo] answers that the photograph
    is not matched and leaves the row as it is. *)
Lemma unmatch_refused_on_point_zero :
  photos_tree Scenario.p1_on_zero !! 0%nat
  = Some {| v_original := "P1.jpg"; v_new := "0-1.jpg"; v_datetime := "";
            v_landscape := distant; v_x := "10110.000"; v_y := "10205.000";
            v_matching := "0"; v_distance := "11.2m" |}
  /\ unmatch_photo (Some 0%nat) true Scenario.p1_on_zero
     = Scenario.p1_on_zero.
Proof. split; reflexivity. Qed.

(** ** Drops, statistics and settings *)

Section DropTheorems.
Context {N : PyNum} {O : PyNumOrder N}.

(** A photograph released on the map at display position [(xd, yd)] is
    assigned to the first nearest control point of the survey position
    [(yd, xd)], with the category of the dialog, when that point is closer
    than 50, and to no point otherwise; a release at display coordinate
    [0.0] on either axis is taken for a release off the map and changes
    nothing. *)
Theorem drop_takes_first_nearest_point_within_fifty
    cfg photo (xd yd : float) landscape sim_points (st : App) :
  photo <> EmptyString ->
  sim_points <> [] ->
  (forall p, p ∈ sim_points -> flt (point_distance yd xd p) inf = true) ->
  (truthy xd = true -> truthy yd = true ->
   exists i p,
     first_nearest (point_distance yd xd) sim_points i p
     /\ on_map_release cfg (Some photo) (Some xd) (Some yd) (Some landscape)
          sim_points st
        = if flt (point_distance yd xd p) (float_of_Z 50)
          then confirm_landscape cfg photo p (point_distance yd xd p)
                 landscape st
          else st)
  /\ (truthy xd = false \/ truthy yd = false ->
      on_map_release cfg (Some photo) (Some xd) (Some yd) (Some landscape)
        sim_points st
      = st).
Proof.
  intros Hphoto Hne Hfin.
  apply String.eqb_neq in Hphoto.
  split.
  - intros Hx Hy.
    destruct (nearest_point_first_nearest sim_points O yd xd Hne Hfin)
      as (i & p & Hfirst & Hscan).
    exists i, p. split; [exact Hfirst|].
    unfold on_map_release, drop_target, on_map.
    rewrite Hphoto, Hx, Hy. cbn [andb]. rewrite Hscan.
    by destruct (flt (point_distance yd xd p) (float_of_Z 50)).
  - intros Hzero. unfold on_map_release, drop_target, on_map.
    rewrite Hphoto.
    by destruct Hzero as [-> | ->]; rewrite ?andb_false_r.
Qed.

End DropTheorems.

Section StatisticsTheorems.
Context {N : PyNum}.

Lemma count_rows_breakdown (tree : list Row) :
  categories_ok tree ->
  forall m d c m' d' c',
    foldl count_row (m, d, c) tree = (m', d', c') ->
    (d' + c' = d + c + (m' - m) /\ m <= m' <= m + length tree)%nat.
Proof.
  induction tree as [|r tree IH]; intros Hcat m d c m' d' c'; cbn [foldl].
  - intros [= <- <- <-]. cbn. lia.
  - assert (categories_ok tree) as Hcat'
      by (intros r0 Hr0; apply Hcat; by apply list_elem_of_further).
    unfold count_row at 2.
    destruct (cell_truth (read_cell (v_matching r))) eqn:Hm.
    + destruct (Hcat r) as [Hl|Hl];
        [apply list_elem_of_here|by apply cell_truth_written|..];
        rewrite Hl; cbn [String.eqb];
        [change (String.eqb distant distant) with true
        |change (String.eqb close_up distant) with false;
         change (String.eqb close_up close_up) with true];
        cbn iota; intros H; apply (IH Hcat') in H; cbn [length]; lia.
    + intros H. apply (IH Hcat') in H. cbn [length]. lia.
Qed.

(** Along a session that starts with [load_photos] of files with distinct
    names, the numbers of [show_statistics] add up: every file is counted,
    the matched and the unmatched rows make up the total, and the distant
    and the close views make up the matched rows. *)
Theorem statistics_add_up (photo_files : list (string * Exif)) (st : App) :
  NoDup photo_files.*1 ->
  reachable (load_photos photo_files) st ->
  let s := show_statistics (photos_tree st) in
  stat_total s = length photo_files
  /\ (stat_matched s + stat_unmatched s = stat_total s)%nat
  /\ (stat_distant s + stat_close s = stat_matched s)%nat.
Proof.
  intros Hnodup Hreach.
  destruct (reachable_frame _ _ (load_photos_categories _) Hreach)
    as [Hcat [Hheads _]].
  assert (length (photos_tree st) = length photo_files) as Hlen.
  { rewrite <- (length_fmap (fun r => (v_original r, v_datetime r))).
    change (length (row_heads (photos_tree st)) = length photo_files).
    rewrite Hheads. unfold row_heads.
    by rewrite length_fmap, load_photos_tree, length_fmap. }
  unfold show_statistics.
  destruct (foldl count_row (0, 0, 0)%nat (photos_tree st))
    as [[m d] c] eqn:Hcount.
  apply (count_rows_breakdown _ Hcat) in Hcount.
  cbn [stat_total stat_matched stat_distant stat_close stat_unmatched].
  lia.
Qed.

(** Reading back the settings that were saved restores the naming check
    boxes, the zone and the drag mode; whether GPS conversion is restored
    depends on the frame of the control points at the time of reading: in
    an arbitrary frame the flag is left as it is.  Saved and read back in
    the same state, the settings are unchanged. *)
Theorem settings_round_trip (v v' : Variables) :
  let r := load_settings (Some (save_settings v)) v' in
  naming r = naming v
  /\ coordinate_system r = coordinate_system v
  /\ drag_mode r = drag_mode v
  /\ use_arbitrary_coordinates r = use_arbitrary_coordinates v'
  /\ use_gps_conversion r
     = (if use_arbitrary_coordinates v' then use_gps_conversion v'
        else use_gps_conversion v)
  /\ load_settings (Some (save_settings v)) v = v.
Proof.
  destruct v as [[a b c] z g m arb], v' as [[a' b' c'] z' g' m' arb'].
  cbn. repeat split; [by destruct arb'|by destruct arb].
Qed.

(** Control points that [detect_coordinate_system_type] takes for an
    arbitrary frame switch GPS conversion off; no settings file read
    afterwards switches it on again, and [auto_match_by_gps] changes
    nothing. *)
Theorem arbitrary_frame_blocks_auto_matching
    (sim_points : list Point) file (v : Variables) distance (st : App) :
  detect_coordinate_system_type sim_points = true ->
  let v' := load_settings file
              (apply_resolution (resolve_coordinate_system sim_points) v) in
  use_arbitrary_coordinates v' = true
  /\ use_gps_conversion v' = false
  /\ auto_match_command v' distance sim_points st = st.
Proof.
  intros Harb. unfold resolve_coordinate_system. rewrite Harb.
  destruct file as [settings|]; cbn; (split; [done|split; [done|]]).
  - unfold auto_match_command, auto_match_by_gps. cbn.
    destruct sim_points; [done|]. destruct distance; [|done].
    by destruct (decide _).
  - unfold auto_match_command, auto_match_by_gps. cbn.
    destruct sim_points; [done|]. destruct distance; [|done].
    by destruct (decide _).
Qed.

(** The base name of the newer program is the file name of the earlier
    one for the identifier that the special-point override leaves: the
    category 不明 gets the suffix of the close view in both. *)
Theorem base_name_agrees_with_earlier_program
    cfg identifier original_filename landscape_type (point_data : option Point) :
  base_filename cfg identifier original_filename landscape_type point_data
  = Legacy.create_filename (use_landscape_suffix cfg)
      (effective_identifier cfg identifier point_data) original_filename
      landscape_type.
Proof.
  unfold base_filename, Legacy.create_filename.
  destruct (use_landscape_suffix cfg); [|reflexivity].
  do 2 f_equal. unfold suffix_of, effective_landscape.
  destruct (String.eqb landscape_type unknown) eqn:Hl; [|reflexivity].
  apply String.eqb_eq in Hl. by rewrite Hl.
Qed.

End StatisticsTheorems.

(** [P3.png] released at display position [(10201, 10500)]: the nearest
    point of the survey position [(10500, 10201)] is taken. *)
Lemma drop_takes_first_nearest_point_within_fifty_witness :
  let dist := point_distance (N := Dec3.num) (Dec3.of_Z 10500)
                (Dec3.of_Z 10201) in
  exists i p,
    first_nearest dist Session.sim_points i p
    /\ Session.after_drop
       = if flt (dist p) (Dec3.of_Z 50)
         then confirm_landscape Scenario.cfg "P3.png" p (dist p) distant
                Session.after_auto_match
         else Session.after_auto_match.
Proof.
  intros dist.
  refine (proj1 (@drop_takes_first_nearest_point_within_fifty Dec3.num
                   Dec3Order.order Scenario.cfg "P3.png" (Dec3.of_Z 10201)
                   (Dec3.of_Z 10500) distant Session.sim_points
                   Session.after_auto_match _ _ _) eq_refl eq_refl).
  - discriminate.
  - discriminate.
  - intros p Hp. unfold Session.sim_points in Hp.
    repeat (apply elem_of_cons in Hp as [->|Hp]; [reflexivity|]).
    by apply elem_of_nil in Hp.
Defined.

(** The statistics at the end of the session of [Session]: three files,
    one matched row, a distant view. *)
Lemma statistics_add_up_witness :
  let s := show_statistics (N := Dec3.num)
             (photos_tree Session.after_unmatch) in
  s = mkStatistics 3 1 1 0 2
  /\ stat_total s = length Session.files
  /\ (stat_matched s + stat_unmatched s = stat_total s)%nat
  /\ (stat_distant s + stat_close s = stat_matched s)%nat.
Proof.
  split; [reflexivity|].
  exact (@statistics_add_up Dec3.num Session.files Session.after_unmatch
           session_files_distinct session_reachable).
Defined.

(** A site frame of two points below 5000: GPS conversion stays off after
    reading settings that were saved with the conversion on. *)
Lemma arbitrary_frame_blocks_auto_matching_witness :
  let site := [mkPoint Dec3.num "1" "K1" (Dec3.of_Z 100) (Dec3.of_Z 200)
                 (Dec3.of_Z 0);
               mkPoint Dec3.num "2" "K2" (Dec3.of_Z 150) (Dec3.of_Z (-40))
                 (Dec3.of_Z 0)] in
  let v := mkVariables Scenario.cfg 9 true 1 false in
  let v' := load_settings (Some (save_settings v))
              (apply_resolution (resolve_coordinate_system site) v) in
  use_arbitrary_coordinates v' = true
  /\ use_gps_conversion v' = false
  /\ auto_match_command (N := Dec3.num) v' (Some (Dec3.of_Z 15)) site
       (load_photos Session.files)
     = load_photos Session.files.
Proof.
  intros site v.
  exact (@arbitrary_frame_blocks_auto_matching Dec3.num site
           (Some (save_settings v)) v (Some (Dec3.of_Z 15))
           (load_photos Session.files) eq_refl).
Defined.

(** ** Copying the photographs *)

Section CopyTheorems.

Variable join : string -> string -> string.
Variable copy_error : gmap string string -> string -> string -> option string.

(** A turn of the copy loop writes the destination of its row at most. *)
Lemma copy_item_other photo_directory output_folder files n errs item p :
  join output_folder (v_new item) <> p ->
  (copy_item join copy_error photo_directory output_folder (files, n, errs)
     item).1.1 !! p
  = files !! p.
Proof.
  intros Hp. unfold copy_item.
  destruct (files !! join photo_directory (v_original item)); [|done].
  destruct (copy_error files _ _); [done|].
  cbn. by rewrite lookup_insert_ne.
Qed.

Lemma copy_items_other photo_directory output_folder items files n errs p :
  (forall item, item ∈ items -> join output_folder (v_new item) <> p) ->
  (foldl (copy_item join copy_error photo_directory output_folder)
         (files, n, errs) items).1.1 !! p
  = files !! p.
Proof.
  revert files n errs.
  induction items as [|item items IH]; intros files n errs Hp; cbn [foldl];
    [done|].
  pose proof (copy_item_other photo_directory output_folder files n errs item p
                (Hp item (list_elem_of_here _ _))) as Hitem.
  destruct (copy_item join copy_error photo_directory output_folder
              (files, n, errs) item) as [[files1 n1] errs1].
  rewrite IH; [done|]. intros item' Hitem'. apply Hp.
  by apply list_elem_of_further.
Qed.

(** Every row of the copy loop is counted once, as a success or as an
    error. *)
Lemma copy_items_count photo_directory output_folder items files n errs :
  ((foldl (copy_item join copy_error photo_directory output_folder)
          (files, n, errs) items).1.2
   + length (foldl (copy_item join copy_error photo_directory output_folder)
               (files, n, errs) items).2
   = n + length errs + length items)%nat.
Proof.
  revert files n errs.
  induction items as [|item items IH]; intros files n errs; cbn [foldl].
  - cbn. lia.
  - unfold copy_item at 2 4.
    destruct (files !! join photo_directory (v_original item)).
    + destruct (copy_error files _ _); rewrite IH, ?length_app; cbn; lia.
    + rewrite IH, length_app. cbn. lia.
Qed.

(** [rename_photos_to_new_folder] writes no path but the new names of the
    rows inside the output folder; when a backup is asked for, it copies
    nothing at all; and when the copy loop runs, the successes and the
    errors together are the rows that have a new name. *)
Theorem rename_writes_new_names_only {N : PyNum} create_backup photo_directory
    output_folder (st : App) (files : gmap string string) :
  let out := rename_photos_to_new_folder join copy_error create_backup
               photo_directory output_folder st files in
  (forall p,
     (forall r, r ∈ photos_tree st -> v_new r <> EmptyString ->
                join output_folder (v_new r) <> p) ->
     out.1 !! p = files !! p)
  /\ (create_backup = true -> out = (files, NotRun))
  /\ (forall success_count error_list,
        out.2 = Ran success_count error_list ->
        (success_count + length error_list
         = length (rename_list (photos_tree st)))%nat).
Proof.
  unfold rename_photos_to_new_folder.
  destruct (decide (photo_gps_data st = ∅)); [by repeat split|].
  destruct create_backup; [by repeat split|].
  destruct (rename_list (photos_tree st)) as [|item items] eqn:Hlist;
    [by repeat split|].
  destruct (String.eqb output_folder EmptyString); [by repeat split|].
  pose proof (copy_items_count photo_directory output_folder (item :: items)
                files 0 []) as Hcount.
  split; [|split; [done|]].
  - intros p Hp.
    pose proof (copy_items_other photo_directory output_folder (item :: items)
                  files 0 [] p) as Hother.
    destruct (foldl _ _ _) as [[files' n'] errs']. cbn. apply Hother.
    intros r Hr. rewrite <- Hlist in Hr.
    apply list_elem_of_filter in Hr as [Hnew Hr]. by apply Hp.
  - destruct (foldl _ _ _) as [[files' n'] errs']. cbn.
    intros success_count error_list [= <- <-]. cbn in Hcount. lia.
Qed.

(** The output file of a new name holds the photograph of the last row
    with that name: the copy of a row whose file exists and can be copied
    is still there at the end when no later row has the same destination,
    whatever was copied under that name before. *)
Theorem rename_last_copy_wins {N : PyNum} photo_directory output_folder
    (st : App) (files : gmap string string) l1 r l2 content :
  photo_gps_data st <> ∅ ->
  output_folder <> EmptyString ->
  rename_list (photos_tree st) = l1 ++ r :: l2 ->
  files !! join photo_directory (v_original r) = Some content ->
  (forall files0,
     copy_error files0 (join photo_directory (v_original r))
       (join output_folder (v_new r)) = None) ->
  (forall a, a ∈ l1 ->
     join output_folder (v_new a) <> join photo_directory (v_original r)) ->
  (forall b, b ∈ l2 ->
     join output_folder (v_new b) <> join output_folder (v_new r)) ->
  (rename_photos_to_new_folder join copy_error false photo_directory
     output_folder st files).1 !! join output_folder (v_new r)
  = Some content.
Proof.
  intros Hstore Hout Hlist Hsrc Hcopy Hbefore Hafter.
  unfold rename_photos_to_new_folder.
  rewrite decide_False by done. rewrite Hlist.
  apply String.eqb_neq in Hout. rewrite Hout.
  destruct (l1 ++ r :: l2) as [|item items] eqn:Hitems;
    [by destruct l1|].
  rewrite <- Hitems. clear Hlist Hitems item items.
  rewrite foldl_app. cbn [foldl].
  pose proof (copy_items_other photo_directory output_folder l1 files 0 []
                (join photo_directory (v_original r)) Hbefore) as H1.
  destruct (foldl (copy_item join copy_error photo_directory output_folder)
              (files, 0%nat, []) l1) as [[files1 n1] errs1].
  cbn [fst] in H1. rewrite Hsrc in H1.
  unfold copy_item at 2. rewrite H1, Hcopy.
  pose proof (copy_items_other photo_directory output_folder l2
                (<[join output_folder (v_new r) := content]> files1) (S n1)
                errs1 (join output_folder (v_new r)) Hafter) as H2.
  destruct (foldl _ _ l2) as [[files2 n2] errs2].
  cbn [fst] in H2 |- *. by rewrite H2, lookup_insert_eq.
Qed.

(** *** The earlier program: free paths *)

Lemma string_length_append (s1 s2 : string) :
  String.length (s1 +:+ s2) = (String.length s1 + String.length s2)%nat.
Proof. induction s1 as [|c s1 IH]; simpl; [done|]. by f_equal. Qed.

Lemma string_append_cancel_r (s1 s2 e : string) :
  s1 +:+ e = s2 +:+ e -> s1 = s2.
Proof.
  revert s2. induction s1 as [|c s1 IH]; intros [|c2 s2] H.
  - done.
  - apply (f_equal String.length) in H.
    rewrite !string_length_append in H. simpl in H. lia.
  - apply (f_equal String.length) in H.
    rewrite !string_length_append in H. simpl in H. lia.
  - change (String c (s1 +:+ e) = String c2 (s2 +:+ e)) in H.
    injection H as -> H. f_equal. by apply IH.
Qed.

Lemma to_uint_nonnil (n : nat) : Nat.to_uint n <> Decimal.Nil.
Proof.
  rewrite <- (DecimalNat.Unsigned.of_to n) at 1.
  rewrite DecimalNat.Unsigned.to_of. apply DecimalFacts.unorm_nonnil.
Qed.

(** The numbered names of a base name are distinct. *)
Lemma numbered_name_inj identifier ext (n m : nat) :
  numbered_name identifier n ext = numbered_name identifier m ext -> n = m.
Proof.
  unfold numbered_name. intros H.
  apply String.app_inj in H. apply String.app_inj in H.
  apply string_append_cancel_r in H.
  apply DecimalNat.Unsigned.to_uint_inj.
  apply (f_equal NilZero.uint_of_string) in H.
  rewrite !NilZero.usu in H by apply to_uint_nonnil.
  by injection H.
Qed.

Section FreePath.
Variable files : gmap string string.
Variable renamed_folder base_new_filename : string.
Hypothesis join_inj :
  forall a b, join renamed_folder a = join renamed_folder b -> a = b.

Lemma free_path_numbered (fuel counter : nat) (tried : gset string) :
  tried ⊆ dom files ->
  (forall c, (counter <= c)%nat ->
     join renamed_folder
       (numbered_name (splitext_root base_new_filename) c
          (PyStr.splitext_ext base_new_filename)) ∉ tried) ->
  (size files < fuel + size tried)%nat ->
  exists p,
    free_path join fuel files renamed_folder base_new_filename
      (numbered_name (splitext_root base_new_filename) counter
         (PyStr.splitext_ext base_new_filename)) (S counter)
    = Some p
    /\ files !! p = None.
Proof.
  revert counter tried.
  induction fuel as [|fuel IH]; intros counter tried Hsub Hfresh Hsize.
  - apply subseteq_size in Hsub. rewrite size_dom in Hsub. lia.
  - cbn [free_path].
    destruct (decide (is_Some (files !! join renamed_folder _))) as [Hex|Hfree].
    + apply (IH (S counter)
               ({[join renamed_folder
                    (numbered_name (splitext_root base_new_filename) counter
                       (PyStr.splitext_ext base_new_filename))]} ∪ tried)).
      * apply union_subseteq. split; [|done].
        apply singleton_subseteq_l. by apply elem_of_dom.
      * intros c Hc [Hin|Hin]%elem_of_union; [|by apply (Hfresh c); [lia|]].
        apply elem_of_singleton in Hin.
        apply join_inj, numbered_name_inj in Hin. lia.
      * rewrite size_union, size_singleton; [lia|].
        apply disjoint_singleton_l. apply Hfresh. lia.
    + eexists. split; [reflexivity|].
      by apply eq_None_not_Some.
Qed.

(** The search for a free path ends within one test per file of the
    folder tree and two more, on a path that does not exist. *)
Lemma free_path_found (fuel : nat) :
  (size files + 2 <= fuel)%nat ->
  exists p,
    free_path join fuel files renamed_folder base_new_filename
      base_new_filename 1
    = Some p
    /\ files !! p = None.
Proof.
  intros Hfuel. destruct fuel as [|fuel]; [lia|]. cbn [free_path].
  destruct (decide (is_Some (files !! join renamed_folder base_new_filename)))
    as [Hex|Hfree].
  - apply (free_path_numbered fuel 1 ∅).
    + apply empty_subseteq.
    + intros c _. apply not_elem_of_empty.
    + rewrite size_empty. lia.
  - eexists. split; [reflexivity|]. by apply eq_None_not_Some.
Qed.

End FreePath.

Lemma legacy_copy_items (fuel : nat) directory renamed_folder (tree : list Row)
    (files : gmap string string) (renamed_count skipped_count : nat) :
  (forall a b, join renamed_folder a = join renamed_folder b -> a = b) ->
  (size files + length tree + 2 <= fuel)%nat ->
  exists files' renamed_count' skipped_count',
    foldl (legacy_copy_item join copy_error fuel directory renamed_folder)
          (Some (files, renamed_count, skipped_count)) tree
    = Some (files', renamed_count', skipped_count')
    /\ files ⊆ files'
    /\ (size files' + renamed_count = size files + renamed_count')%nat
    /\ (renamed_count <= renamed_count')%nat
    /\ (skipped_count'
        = skipped_count
          + length (filter (fun r => v_matching r ∈ unmatched_marks) tree))%nat
    /\ (renamed_count' + skipped_count'
        <= renamed_count + skipped_count + length tree)%nat.
Proof.
  intros Hinj. revert files renamed_count skipped_count.
  induction tree as [|values tree IH];
    intros files renamed_count skipped_count Hfuel; cbn [foldl].
  - exists files, renamed_count, skipped_count. cbn.
    repeat split; [done|lia..].
  - cbn [length] in Hfuel. unfold legacy_copy_item at 2.
    rewrite filter_cons.
    destruct (decide (v_matching values ∈ unmatched_marks)) as [Hmark|Hmark].
    { rewrite bool_decide_eq_true_2 by done.
      destruct (IH files renamed_count (S skipped_count))
        as (files' & n' & s' & -> & Hsub & Hsize & Hle & Hskip & Hall); [lia|].
      exists files', n', s'. cbn [length]. repeat split; [done|lia..]. }
    rewrite bool_decide_eq_false_2 by done.
    destruct (free_path_found files renamed_folder (v_new values) Hinj fuel)
      as (new_path & -> & Hfree); [lia|].
    assert (exists files1 n1,
              match files !! join directory (v_original values) with
              | Some content =>
                  match copy_error files (join directory (v_original values))
                          new_path with
                  | Some _ => Some (files, renamed_count, skipped_count)
                  | None =>
                      Some (<[new_path := content]> files, S renamed_count,
                            skipped_count)
                  end
              | None => Some (files, renamed_count, skipped_count)
              end = Some (files1, n1, skipped_count)
              /\ files ⊆ files1
              /\ (size files1 + renamed_count = size files + n1)%nat
              /\ (renamed_count <= n1 <= S renamed_count)%nat)
      as (files1 & n1 & -> & Hsub1 & Hsize1 & Hn1).
    { destruct (files !! join directory (v_original values)) as [content|].
      - destruct (copy_error files _ new_path).
        + exists files, renamed_count. repeat split; [done|lia..].
        + exists (<[new_path := content]> files), (S renamed_count).
          split; [done|]. split; [by apply insert_subseteq|].
          rewrite map_size_insert_None by done. lia.
      - exists files, renamed_count. repeat split; [done|lia..]. }
    destruct (IH files1 n1 skipped_count)
      as (files' & n' & s' & -> & Hsub & Hsize & Hle & Hskip & Hall); [lia|].
    exists files', n', s'. split; [done|].
    split; [by etrans|]. cbn [length]. repeat split; lia.
Qed.

(** The copy loop of the earlier program ends and never overwrites: every
    file that was in the folder tree is still there with its content,
    every copy is a new file, the rows that carry one of the four marks
    of an unmatched photograph are skipped and counted, and no row is
    counted twice. *)
Theorem legacy_rename_never_overwrites directory renamed_folder
    (tree : list Row) (files : gmap string string) :
  (forall a b, join renamed_folder a = join renamed_folder b -> a = b) ->
  exists files' renamed_count skipped_count,
    legacy_rename join copy_error (size files + length tree + 2) directory
      renamed_folder tree files
    = Some (files', renamed_count, skipped_count)
    /\ files ⊆ files'
    /\ size files' = (size files + renamed_count)%nat
    /\ skipped_count
       = length (filter (fun r => v_matching r ∈ unmatched_marks) tree)
    /\ (renamed_count + skipped_count <= length tree)%nat.
Proof.
  intros Hinj.
  destruct (legacy_copy_items (size files + length tree + 2) directory
              renamed_folder tree files 0 0 Hinj)
    as (files' & n' & s' & Hrun & Hsub & Hsize & _ & Hskip & Hall); [lia|].
  exists files', n', s'. repeat split; [done|done|lia|done|lia].
Qed.

End CopyTheorems.

Section LegacyMatchTheorems.
Context {N : PyNum}.

(** Matching of the earlier program reads the file name and the category
    of a row only and leaves both, with the date and the coordinate cells:
    run twice with the same points, store and threshold, it gives what it
    gives run once. *)
Theorem legacy_matching_twice_is_once use_point_name use_landscape_suffix
    max_distance (points : list Legacy.Point)
    (photo_gps_data : gmap string (float * float)) (tree : list Row) :
  let pass := Legacy.match_photos_to_points_xy use_point_name
                use_landscape_suffix max_distance points photo_gps_data in
  pass (pass tree) = pass tree
  /\ row_heads (pass tree) = row_heads tree
  /\ (fun r => (v_landscape r, v_x r, v_y r)) <$> pass tree
     = (fun r => (v_landscape r, v_x r, v_y r)) <$> tree.
Proof.
  cbn zeta. unfold Legacy.match_photos_to_points_xy, row_heads.
  split; [|split]; rewrite <- list_fmap_compose; apply list_fmap_ext;
    intros _ r _; cbn [compose].
  - assert (forall res,
              v_original (Legacy.write_result use_point_name
                            use_landscape_suffix r res) = v_original r
              /\ v_landscape (Legacy.write_result use_point_name
                                use_landscape_suffix r res) = v_landscape r)
      as Hkeeps by (by intros []).
    destruct (Hkeeps (Legacy.match_photo max_distance points
                        (photo_gps_data !! v_original r))) as [Ho Hl].
    rewrite Ho.
    destruct (Legacy.match_photo max_distance points
                (photo_gps_data !! v_original r));
      cbn in Hl |- *; by rewrite ?Hl.
  - by destruct (Legacy.match_photo max_distance points
                   (photo_gps_data !! v_original r)).
  - by destruct (Legacy.match_photo max_distance points
                   (photo_gps_data !! v_original r)).
Qed.

End LegacyMatchTheorems.

(** ** Copies on the scenarios *)

Lemma join_path_inj folder a b : join_path folder a = join_path folder b -> a = b.
Proof.
  unfold join_path. intros H.
  apply String.app_inj in H. by apply String.app_inj in H.
Qed.

Lemma auto_matched_to_ref_renamed :
  rename_list (photos_tree Scenario.auto_matched_to_ref)
  = [ {| v_original := "P1.jpg"; v_new := "基準点A-2.jpg"; v_datetime := "";
         v_landscape := close_up; v_x := "10100.000"; v_y := "10200.000";
         v_matching := "12"; v_distance := "11.2m" |} ]
    ++ {| v_original := "P2.jpg"; v_new := "基準点A-2.jpg"; v_datetime := "";
          v_landscape := close_up; v_x := "10100.000"; v_y := "10200.000";
          v_matching := "12"; v_distance := "1.4m" |}
       :: [ {| v_original := "P3.png"; v_new := "基準点A-2.png";
               v_datetime := ""; v_landscape := close_up; v_x := "10100.000";
               v_y := "10200.000"; v_matching := "12";
               v_distance := "1.4m" |} ].
Proof. vm_compute. reflexivity. Qed.

Lemma auto_matched_to_ref_store :
  photo_gps_data Scenario.auto_matched_to_ref <> ∅.
Proof.
  intros Hempty.
  assert (size (photo_gps_data Scenario.auto_matched_to_ref) = 3%nat) as Hsize
    by (vm_compute; reflexivity).
  rewrite Hempty, map_size_empty in Hsize. discriminate Hsize.
Qed.

(** The rows left by automatic matching to a reference point: [P1] and
    [P2] hold the same new name; the output holds the photograph of [P2]
    under that name. *)
Lemma rename_last_copy_wins_witness :
  (rename_photos_to_new_folder join_path copies false "photos" "out"
     Scenario.auto_matched_to_ref photo_folder).1
  !! join_path "out" "基準点A-2.jpg"
  = Some "second".
Proof.
  refine (@rename_last_copy_wins join_path copies Dec3.num "photos" "out"
            Scenario.auto_matched_to_ref photo_folder
            [ {| v_original := "P1.jpg"; v_new := "基準点A-2.jpg";
                 v_datetime := ""; v_landscape := close_up;
                 v_x := "10100.000"; v_y := "10200.000"; v_matching := "12";
                 v_distance := "11.2m" |} ]
            {| v_original := "P2.jpg"; v_new := "基準点A-2.jpg";
               v_datetime := ""; v_landscape := close_up; v_x := "10100.000";
               v_y := "10200.000"; v_matching := "12"; v_distance := "1.4m" |}
            [ {| v_original := "P3.png"; v_new := "基準点A-2.png";
                 v_datetime := ""; v_landscape := close_up;
                 v_x := "10100.000"; v_y := "10200.000"; v_matching := "12";
                 v_distance := "1.4m" |} ]
            "second" auto_matched_to_ref_store _ auto_matched_to_ref_renamed
            _ _ _ _).
  - discriminate.
  - vm_compute. reflexivity.
  - reflexivity.
  - intros a Ha. apply list_elem_of_singleton in Ha as ->.
    intros H. vm_compute in H. discriminate H.
  - intros b Hb. apply list_elem_of_singleton in Hb as ->.
    intros H. vm_compute in H. discriminate H.
Defined.

(** Both copies are counted although one of them is overwritten. *)
Lemma rename_counts_overwritten_copy :
  (rename_photos_to_new_folder join_path copies false "photos" "out"
     Scenario.auto_matched_to_ref photo_folder).2
  = Ran 3 [].
Proof. vm_compute. reflexivity. Qed.

(** The two photographs matched to [BM1] are copied beside the file that
    was in the output folder, under numbered names; the row out of range
    is skipped. *)
Lemma legacy_rename_never_overwrites_witness :
  exists files' renamed_count skipped_count,
    legacy_rename join_path copies
      (size legacy_folder + length legacy_rows + 2) "photos"
      "photos/renamed" legacy_rows legacy_folder
    = Some (files', renamed_count, skipped_count)
    /\ legacy_folder ⊆ files'
    /\ size files' = (size legacy_folder + renamed_count)%nat
    /\ skipped_count
       = length (filter (fun r => v_matching r ∈ unmatched_marks)
                   legacy_rows)
    /\ (renamed_count + skipped_count <= length legacy_rows)%nat.
Proof.
  exact (@legacy_rename_never_overwrites join_path copies "photos"
           "photos/renamed" legacy_rows legacy_folder
           (join_path_inj "photos/renamed")).
Defined.

(** The names under which they are copied. *)
Lemma legacy_rename_numbers_the_copies :
  legacy_rename join_path copies 8 "photos" "photos/renamed" legacy_rows
    legacy_folder
  = Some (<["photos/renamed/BM1-2_2.jpg" := "second"]>
            (<["photos/renamed/BM1-2_1.jpg" := "first"]> legacy_folder),
          2%nat, 1%nat).
Proof. vm_compute. reflexivity. Qed.

(** ** One visit of automatic matching *)

Section VisitTheorems.
Context {N : PyNum} {O : PyNumOrder N}.


End VisitTheorems.


(** ** The loaded list of the scenarios *)

(** The row that [load_photos] inserts is the row of the scenarios unless
    a coordinate is [0.0]: its cell is then left empty. *)
Lemma inserted_values_loaded_row {N : PyNum} photo_file (exif_data : Exif) :
  (forall x y, e_position exif_data = Some (x, y) ->
               truthy x = true /\ truthy y = true) ->
  inserted_values photo_file exif_data
  = loaded_row photo_file (default EmptyString (e_datetime exif_data))
      (exif_entry exif_data).
Proof.
  intros Hnonzero. unfold inserted_values, loaded_row, exif_entry.
  destruct (e_position exif_data) as [[x y]|]; [|reflexivity].
  destruct (Hnonzero x y eq_refl) as [Hx Hy]. cbn. by rewrite Hx, Hy.
Qed.

(** The list of the scenarios is what [load_photos] makes of the three
    photographs. *)
Lemma scenario_loaded_by_load_photos :
  Scenario.loaded
  = load_photos
      [ ("P1.jpg", mkExif Dec3.num None
                     (Some (Dec3.of_Z 10110, Dec3.of_Z 10205)));
        ("P2.jpg", mkExif Dec3.num None
                     (Some (Dec3.of_Z 10101, Dec3.of_Z 10201)));
        ("P3.png", mkExif Dec3.num None
                     (Some (Dec3.of_Z 10099, Dec3.of_Z 10199))) ].
Proof. reflexivity. Qed.

(** ** Files of point records *)

Section PointFileTheorems.
Context {N : PyNum}.
Variable lines : list string.

Lemma point_file_loop (fuel k : nat) (points : list Point) :
  point_file lines ->
  (k <= length lines)%nat ->
  (length lines - k < fuel)%nat ->
  parse_loop lines fuel (mkParseState N (Z.of_nat k) points [])
  = Some (Done (points ++ omap a01_point (drop k lines), [])).
Proof.
  intros Hfile. revert k points.
  induction fuel as [|fuel IH]; intros k points Hk Hfuel; [lia|].
  cbn [parse_loop]. unfold parse_turn. cbn [ps_i ps_points ps_parcels].
  unfold len_lines.
  destruct (Z.ltb_spec (Z.of_nat k) (Z.of_nat (length lines))) as [Hlt|Hge];
    cbn [negb].
  - rewrite py_index_nat by lia.
    destruct (lines !! k) as [l|] eqn:Hl.
    2:{ apply lookup_ge_None in Hl. lia. }
    rewrite (drop_S _ _ _ Hl). cbn [omap list_omap].
    destruct (Hfile l) as (Hstall & H02 & H00);
      [by eapply list_elem_of_lookup_2|].
    replace (Z.of_nat k + 1) with (Z.of_nat (S k)) by lia.
    unfold a01_point, a01_stalls in *.
    destruct (PyStr.startswith (PyStr.strip l) "A01") eqn:H01; cbn [andb].
    + destruct (5 <=? length (PyStr.split "," (PyStr.strip l)))%nat eqn:H5.
      * cbn [andb] in Hstall.
        destruct (parse_a01 (PyStr.split "," (PyStr.strip l)))
          as [[|]|p] eqn:Hparse.
        -- exfalso. revert Hparse. unfold parse_a01. rewrite Hstall.
           repeat case_match; discriminate.
        -- cbn. by rewrite IH by lia.
        -- rewrite IH by lia. cbn. by rewrite <- app_assoc.
      * cbn. by rewrite IH by lia.
    + rewrite H02, H00. cbn. by rewrite IH by lia.
  - rewrite drop_ge by lia. cbn. by rewrite app_nil_r.
Qed.

(** On a file without [A02] and [D00] records and without an [A01]
    record with an empty coordinate, [load_sim_points] returns, in the
    order of the file, exactly the points of the [A01] lines that have
    five fields or more and numbers as coordinates, and no parcel; the
    other lines are passed over. *)
Theorem point_file_gives_its_points_in_order :
  point_file lines ->
  load_sim_points lines (S (length lines))
  = Some (Done (omap a01_point lines, [])).
Proof.
  intros Hfile.
  assert (0 <= length lines)%nat as Hk by lia.
  assert (length lines - 0 < S (length lines))%nat as Hfuel by lia.
  exact (point_file_loop (S (length lines)) 0 [] Hfile Hk Hfuel).
Qed.

End PointFileTheorems.

(** A file of three point records, one of them with a coordinate that is
    not a number, and a header. *)
Lemma point_file_gives_its_points_in_order_witness :
  let lines := ["Z00,survey"; "A01,1,K1,10100.0,10200.0,5.5";
                "A01,2,K2,abc,10200.0"; " A01, 3 , K3 ,10500.0,10600.0,"] in
  load_sim_points lines 5
  = Some (Done ([mkPoint Dec3.num "1" "K1" (Dec3.of_Z 10100)
                   (Dec3.of_Z 10200) (Dec3.Fin 5500);
                 mkPoint Dec3.num "3" "K3" (Dec3.of_Z 10500)
                   (Dec3.of_Z 10600) (Dec3.of_Z 0)], [])).
Proof.
  intros lines.
  refine (@point_file_gives_its_points_in_order Dec3.num lines _).
  intros l Hl. unfold lines in Hl.
  repeat (apply elem_of_cons in Hl as [->|Hl];
          [split; [|split]; reflexivity|]).
  by apply elem_of_nil in Hl.
Defined.

(** ** Matching and loading in the two programs *)

Section TwoPrograms.
Context {N : PyNum}.


Variable read_file : string -> option string.
Variable find_points : string -> list Legacy.Point.

(** C7, amended.  [load_sim_points] of the earlier program tries the
    candidates shift-jis, utf-8, cp932, euc-jp in this order and accepts
    the first one under which the file decodes and yields at least one
    point record; it reports that the file could not be parsed exactly
    when no candidate yields a point record, and what it accepts is never
    an empty point list.  [load_sim_points] of the newer program has no
    candidates and no test on the points: the lines decoded as shift_jis,
    undecodable bytes left out, are read to the end, and a file without
    [A01], [A02] and [D00] records is accepted with no point at all. *)
Theorem earlier_loader_tries_encodings_newer_accepts_no_points :
  Legacy.encodings = ["shift-jis"; "utf-8"; "cp932"; "euc-jp"]
  /\ (forall e points,
        Legacy.load_sim_points read_file find_points = Legacy.Loaded e points ->
        points <> []
        /\ (exists content, read_file e = Some content
                            /\ find_points content = points)
        /\ exists before after,
             Legacy.encodings = before ++ e :: after
             /\ forall e', e' ∈ before ->
                  Legacy.decoded_points read_file find_points e' = [])
  /\ (Legacy.load_sim_points read_file find_points = Legacy.Unparsable
      <-> forall e, e ∈ Legacy.encodings ->
            Legacy.decoded_points read_file find_points e = [])
  /\ (forall lines : list string,
        (forall l, l ∈ lines ->
           PyStr.startswith (PyStr.strip l) "A01" = false
           /\ PyStr.startswith (PyStr.strip l) "A02" = false
           /\ PyStr.startswith (PyStr.strip l) "D00" = false) ->
        load_sim_points lines (S (length lines)) = Some (Done ([], []))).
Proof.
  split; [reflexivity|].
  pose proof (try_encodings_spec read_file find_points Legacy.encodings)
    as Hspec.
  fold (Legacy.load_sim_points read_file find_points) in Hspec.
  split; [|split].
  - intros e points Hload. by rewrite Hload in Hspec.
  - split.
    + intros Hload. by rewrite Hload in Hspec.
    + intros Hnone.
      destruct (Legacy.load_sim_points read_file find_points)
        as [e points|]; [|reflexivity].
      destruct Hspec as (Hne & (content & Hread & Hfind) & before & after & Henc & _).
      exfalso. apply Hne.
      assert (e ∈ Legacy.encodings) as He.
      { rewrite Henc. apply elem_of_app. right. left. }
      specialize (Hnone e He). unfold Legacy.decoded_points in Hnone.
      by rewrite Hread, Hfind in Hnone.
  - intros lines Hlines.
    assert (point_file lines) as Hfile.
    { intros l Hl. destruct (Hlines l Hl) as (H01 & H02 & H00).
      split; [|by split]. unfold a01_stalls. by rewrite H01. }
    assert (omap a01_point lines = []) as Hnone.
    { clear Hfile. induction lines as [|l lines IH]; [reflexivity|].
      cbn [omap list_omap].
      destruct (Hlines l (list_elem_of_here _ _)) as (H01 & _).
      unfold a01_point at 1. rewrite H01. cbn [andb].
      apply IH. intros l' Hl'. apply Hlines. by apply list_elem_of_further. }
    assert (0 <= length lines)%nat as Hk by lia.
    assert (length lines - 0 < S (length lines))%nat as Hfuel by lia.
    pose proof (point_file_loop lines (S (length lines)) 0 [] Hfile Hk Hfuel)
      as Hloop.
    rewrite drop_0, Hnone in Hloop. exact Hloop.
Qed.

End TwoPrograms.



(** C7 on a file that decodes as utf-8 only, in the earlier program, and
    on a file of a header line, which the newer program accepts without a
    point. *)
Lemma earlier_loader_tries_encodings_newer_accepts_no_points_witness :
  let read_file e :=
    if String.eqb e "utf-8" then Some "A01,1,BM1,100.0,200.0" else None in
  let find_points (content : string) :=
    [Legacy.mkPoint Dec3.num "1" "BM1" (Dec3.of_Z 100) (Dec3.of_Z 200)] in
  Legacy.load_sim_points read_file find_points
  = Legacy.Loaded "utf-8"
      [Legacy.mkPoint Dec3.num "1" "BM1" (Dec3.of_Z 100) (Dec3.of_Z 200)]
  /\ (exists before after,
        Legacy.encodings = before ++ "utf-8" :: after
        /\ forall e', e' ∈ before ->
             Legacy.decoded_points read_file find_points e' = [])
  /\ @load_sim_points Dec3.num ["Z00,header"; ""] 3 = Some (Done ([], [])).
Proof.
  intros read_file find_points.
  destruct (@earlier_loader_tries_encodings_newer_accepts_no_points Dec3.num
              read_file find_points) as (_ & Hloaded & _ & Hnewer).
  assert (Legacy.load_sim_points read_file find_points
          = Legacy.Loaded "utf-8"
              [Legacy.mkPoint Dec3.num "1" "BM1" (Dec3.of_Z 100)
                 (Dec3.of_Z 200)]) as Hload by reflexivity.
  split; [exact Hload|]. split.
  - by destruct (Hloaded _ _ Hload) as (_ & _ & Hfirst).
  - apply (Hnewer ["Z00,header"; ""]).
    intros l Hl.
    repeat (apply elem_of_cons in Hl as [->|Hl];
            [split; [|split]; reflexivity|]).
    by apply elem_of_nil in Hl.
Defined.
